(** * uncruft: scanning and cleanup core, embedded in Rocq

    The development follows the Python package [uncruft]:
    - [models.py]            : [RiskLevel], [Category], [ScanResult], [CleanupResult],
                               [Analysis], [CleanupSession]
    - [categories.py]        : the [CATEGORIES] table and [get_category]
    - [analyzer.py]          : [get_safe_cleanup_targets], [estimate_cleanup_savings],
                               [filter_by_minimum_size], [get_category_by_size]
    - [scanner.py]           : [expand_path], the directory-size engine and its
                               cache, [aggregate_category_results], [scan_path],
                               [scan_category], [quick_scan], [run_command], the
                               protection list
    - [recursive_scanner.py] : [find_matching_directories], [scan_recursive_category],
                               [aggregate_recursive_results]
    - [cleaner.py]           : [is_path_safe], [is_inside_allowed_path], [delete_path],
                               [clean_category], [_run_native_cleanup],
                               [clean_safe_items], [validate_cleanup_request],
                               [delete_node_modules_project]

    Python [int] is [Z], [str] is [string], [Optional[T]] is [option T],
    [dict[str, T]] is [gmap string T] (or an association list where the
    insertion order is visible), [set[str]] is [gset string], and
    [time.time()] readings are binary64 floats ([PrimFloat.float]).
    Functions are modelled at [progress_callback=None]. *)

From Stdlib Require Import ZArith Lia String Ascii List Bool Permutation.
From Stdlib Require Import Sorted DecimalString.
From Stdlib Require Import Floats.PrimFloat Numbers.Cyclic.Int63.Uint63.
From stdpp Require Import base strings gmap list.
Import ListNotations.

Local Open Scope string_scope.
Local Open Scope list_scope.
Local Open Scope Z_scope.

(* ===================================================================== *)
(** ** Python string primitives used by the package *)
(* ===================================================================== *)

Definition is_sep (c : ascii) : bool := Ascii.eqb c "/"%char.

(** [s.startswith(p)] *)
Definition startswith (p s : string) : bool := String.prefix p s.

(** [sep.join(l)] *)
Definition str_join (sep : string) (l : list string) : string := String.concat sep l.

(** [c in s] for a one-character string [c] *)
Fixpoint str_contains_char (c : ascii) (s : string) : bool :=
  match s with
  | EmptyString => false
  | String c' s' => Ascii.eqb c' c || str_contains_char c s'
  end.

(** [s.rstrip("/")] *)
Fixpoint rstrip_sep (s : string) : string :=
  match s with
  | EmptyString => EmptyString
  | String c s' =>
      let r := rstrip_sep s' in
      if is_sep c && String.eqb r "" then "" else String c r
  end.

(** [s.lstrip("/")] *)
Fixpoint lstrip_sep (s : string) : string :=
  match s with
  | EmptyString => EmptyString
  | String c s' => if is_sep c then lstrip_sep s' else s
  end.

(** [s.strip("/")] *)
Definition strip_sep (s : string) : string := rstrip_sep (lstrip_sep s).

(** [s.split("/")]: never empty, [""] for the empty string. *)
Fixpoint split_sep (s : string) : list string :=
  match s with
  | EmptyString => [""]
  | String c s' =>
      if is_sep c then "" :: split_sep s'
      else match split_sep s' with
           | [] => [String c ""]
           | w :: ws => String c w :: ws
           end
  end.

(** [s.replace(old, new)] for a non-empty [old]: leftmost, non-overlapping
    occurrences.  The fuel counts the characters still to be read. *)
Fixpoint str_replace_fuel (fuel : nat) (old new s : string) : string :=
  match fuel with
  | O => s
  | S fuel' =>
      if String.prefix old s
      then new +:+ str_replace_fuel fuel' old new
                     (String.substring (String.length old)
                                       (String.length s - String.length old) s)
      else match s with
           | EmptyString => EmptyString
           | String c s' => String c (str_replace_fuel fuel' old new s')
           end
  end.

Definition str_replace (old new s : string) : string :=
  str_replace_fuel (S (String.length s)) old new s.

(** The prefix of [s] before its first ["/"], and the rest from that ["/"] on
    ([s[:i]] and [s[i:]] for [i = s.find("/")], [i = len(s)] when absent). *)
Fixpoint break_sep (s : string) : string * string :=
  match s with
  | EmptyString => ("", "")
  | String c s' =>
      if is_sep c then ("", s)
      else let (a, b) := break_sep s' in (String c a, b)
  end.

(* ===================================================================== *)
(** ** pathlib.Path (POSIX flavour) *)
(* ===================================================================== *)

(** A [Path] holds what [pathlib] holds after parsing: the root (["" ], ["/"]
    or ["//"]) and the list of components. *)
Record Path := mkPath { root : string; tail : list string }.

(** [posixpath.splitroot] without the (always empty) drive. *)
Definition splitroot (p : string) : string * string :=
  match p with
  | EmptyString => ("", p)
  | String c0 r0 =>
      if negb (is_sep c0) then ("", p)
      else match r0 with
           | EmptyString => ("/", r0)
           | String c1 r1 =>
               if negb (is_sep c1) then ("/", r0)
               else match r1 with
                    | EmptyString => ("//", r1)
                    | String c2 _ => if is_sep c2 then ("/", r0) else ("//", r1)
                    end
           end
  end.

(** A component is kept when it is neither empty nor ["."]. *)
Definition keep_component (x : string) : bool :=
  negb (String.eqb x "") && negb (String.eqb x ".").

Definition components (rel : string) : list string :=
  List.filter keep_component (split_sep rel).

(** [Path(s)] *)
Definition Path_of_str (s : string) : Path :=
  let (r, rel) := splitroot s in mkPath r (components rel).

(** [str(path)] *)
Definition str (p : Path) : string :=
  let s := root p +:+ str_join "/" (tail p) in
  if String.eqb s "" then "." else s.

(** [path / name] for a single component [name]; [Path(entry.path)] of an
    [os.scandir(path)] entry called [name] is this path (lemma
    [Path_of_entry_path]). *)
Definition joinpath (p : Path) (name : string) : Path :=
  mkPath (root p) (tail p ++ [name]).

(** [os.path.join(a, b)]; the [path] of an [os.scandir(a)] entry named [b]. *)
Fixpoint str_endswith_sep (s : string) : bool :=
  match s with
  | EmptyString => false
  | String c EmptyString => is_sep c
  | String _ s' => str_endswith_sep s'
  end.

Definition os_path_join (a b : string) : string :=
  if startswith "/" b then b
  else if String.eqb a "" || str_endswith_sep a then a +:+ b
  else a +:+ "/" +:+ b.

Declare Scope path_scope.
Delimit Scope path_scope with path.
Notation "p // name" := (joinpath p name) (at level 40, left associativity) : path_scope.
Local Open Scope path_scope.

(** [a] is a proper ancestor of [b]: [a in b.parents]. *)
Definition is_ancestor (a b : Path) : Prop :=
  root a = root b /\ exists ext, ext <> [] /\ tail b = tail a ++ ext.

(** A well-formed path, as [Path(...)] builds them: one of the three roots,
    and components that are non-empty, not ["."] and free of ["/"]. *)
Definition wf_component (x : string) : Prop :=
  keep_component x = true /\ str_contains_char "/" x = false.

Definition wf_path (p : Path) : Prop :=
  (root p = "" \/ root p = "/" \/ root p = "//") /\ Forall wf_component (tail p).

(* ===================================================================== *)
(** ** models.py *)
(* ===================================================================== *)

Inductive RiskLevel := SAFE | REVIEW | RISKY.

(** [Category]; the descriptive text fields (description, consequences,
    recovery and the knowledge-base texts) play no part in scanning or
    cleaning and are left out. *)
Record Category := mkCategory {
  c_id : string;
  c_name : string;
  c_paths : list string;
  c_risk_level : RiskLevel;
  c_glob_patterns : list string;
  c_search_roots : list string;
  c_is_recursive : bool;
  c_min_size_bytes : Z;
  c_cleanup_command : option string
}.

Record ScanResult := mkScanResult {
  sr_category_id : string;
  sr_category_name : string;
  sr_path : string;
  sr_size_bytes : Z;
  sr_file_count : Z;
  sr_dir_count : Z;
  sr_risk_level : RiskLevel;
  sr_exists : bool;
  sr_error : option string
}.

Record CleanupResult := mkCleanupResult {
  cr_category_id : string;
  cr_path : string;
  cr_bytes_freed : Z;
  cr_files_deleted : Z;
  cr_success : bool;
  cr_error : option string;
  cr_dry_run : bool
}.

(** Truth value of an [Optional[str]]: [None] and [""] are false. *)
Definition truthy (o : option string) : bool :=
  match o with
  | None => false
  | Some s => negb (String.eqb s "")
  end.

(* ===================================================================== *)
(** ** categories.py *)
(* ===================================================================== *)

Definition dev_search_roots : list string :=
  ["~/Documents"; "~/Code"; "~/Projects"; "~/Developer"; "~/repos"; "~/src"].

(** The [CATEGORIES] dict, in source order. *)
Definition CATEGORIES : list (string * Category) := [
  ("conda_cache",
   mkCategory "conda_cache" "Conda Package Cache"
     ["~/miniconda3/pkgs"; "~/anaconda3/pkgs"; "~/opt/miniconda3/pkgs"; "~/opt/anaconda3/pkgs"; "~/.conda/pkgs"]
     SAFE [] [] false (0)
     (Some "conda clean --all --yes"));
  ("npm_cache",
   mkCategory "npm_cache" "NPM Cache"
     ["~/.npm/_cacache"; "~/.npm/_logs"]
     SAFE [] [] false (0)
     (Some "npm cache clean --force"));
  ("yarn_cache",
   mkCategory "yarn_cache" "Yarn Cache"
     ["~/.yarn/cache"; "~/Library/Caches/Yarn"]
     SAFE [] [] false (0)
     (Some "yarn cache clean"));
  ("pip_cache",
   mkCategory "pip_cache" "Pip Cache"
     ["~/Library/Caches/pip"; "~/.cache/pip"]
     SAFE [] [] false (0)
     (Some "pip cache purge"));
  ("homebrew_cache",
   mkCategory "homebrew_cache" "Homebrew Cache"
     ["~/Library/Caches/Homebrew"; "/usr/local/Caskroom/.cache"]
     SAFE [] [] false (0)
     (Some "brew cleanup --prune=all"));
  ("chrome_cache",
   mkCategory "chrome_cache" "Chrome Cache"
     ["~/Library/Caches/Google/Chrome"; "~/Library/Application Support/Google/Chrome/Default/Cache"; "~/Library/Application Support/Google/Chrome/Default/Code Cache"]
     SAFE [] [] false (0)
     (None));
  ("safari_cache",
   mkCategory "safari_cache" "Safari Cache"
     ["~/Library/Caches/com.apple.Safari"; "~/Library/Caches/com.apple.Safari.SafeBrowsing"]
     SAFE [] [] false (0)
     (None));
  ("edge_cache",
   mkCategory "edge_cache" "Microsoft Edge Cache"
     ["~/Library/Caches/com.microsoft.Edge"; "~/Library/Application Support/Microsoft Edge/Default/Cache"]
     SAFE [] [] false (0)
     (None));
  ("firefox_cache",
   mkCategory "firefox_cache" "Firefox Cache"
     ["~/Library/Caches/Firefox"]
     SAFE [] [] false (0)
     (None));
  ("xcode_derived_data",
   mkCategory "xcode_derived_data" "Xcode DerivedData"
     ["~/Library/Developer/Xcode/DerivedData"]
     SAFE [] [] false (0)
     (None));
  ("xcode_archives",
   mkCategory "xcode_archives" "Xcode Archives"
     ["~/Library/Developer/Xcode/Archives"]
     REVIEW [] [] false (0)
     (None));
  ("system_logs",
   mkCategory "system_logs" "System Logs"
     ["~/Library/Logs"; "/var/log"]
     SAFE [] [] false (0)
     (None));
  ("application_caches",
   mkCategory "application_caches" "Application Caches"
     ["~/Library/Caches"]
     SAFE [] [] false (0)
     (None));
  ("trash",
   mkCategory "trash" "Trash"
     ["~/.Trash"]
     REVIEW [] [] false (0)
     (None));
  ("docker_data",
   mkCategory "docker_data" "Docker Data"
     ["~/Library/Containers/com.docker.docker/Data/vms"]
     REVIEW [] [] false (0)
     (Some "docker system prune -a"));
  ("huggingface_cache",
   mkCategory "huggingface_cache" "HuggingFace Models"
     ["~/.cache/huggingface"]
     REVIEW [] [] false (0)
     (None));
  ("downloads_old",
   mkCategory "downloads_old" "Downloads (Old Files)"
     ["~/Downloads"]
     REVIEW [] [] false (0)
     (None));
  ("ios_backups",
   mkCategory "ios_backups" "iOS Backups"
     ["~/Library/Application Support/MobileSync/Backup"]
     REVIEW [] [] false (0)
     (None));
  ("xcode_simulators",
   mkCategory "xcode_simulators" "Xcode Simulators"
     ["~/Library/Developer/CoreSimulator/Devices"]
     REVIEW [] [] false (0)
     (Some "xcrun simctl delete unavailable"));
  ("slack_cache",
   mkCategory "slack_cache" "Slack Cache"
     ["~/Library/Application Support/Slack/Cache"; "~/Library/Application Support/Slack/Service Worker/CacheStorage"]
     SAFE [] [] false (0)
     (None));
  ("spotify_cache",
   mkCategory "spotify_cache" "Spotify Cache"
     ["~/Library/Caches/com.spotify.client"]
     SAFE [] [] false (0)
     (None));
  ("vscode_cache",
   mkCategory "vscode_cache" "VS Code Cache"
     ["~/Library/Application Support/Code/Cache"; "~/Library/Application Support/Code/CachedData"; "~/Library/Application Support/Code/CachedExtensions"]
     SAFE [] [] false (0)
     (None));
  ("gradle_cache",
   mkCategory "gradle_cache" "Gradle Cache"
     ["~/.gradle/caches"]
     SAFE [] [] false (0)
     (None));
  ("maven_cache",
   mkCategory "maven_cache" "Maven Cache"
     ["~/.m2/repository"]
     SAFE [] [] false (0)
     (None));
  ("cocoapods_cache",
   mkCategory "cocoapods_cache" "CocoaPods Cache"
     ["~/Library/Caches/CocoaPods"]
     SAFE [] [] false (0)
     (Some "pod cache clean --all"));
  ("node_modules",
   mkCategory "node_modules" "Node Modules"
     []
     SAFE ["**/node_modules"] dev_search_roots true (10 * 1024 * 1024)
     (None));
  ("python_venvs",
   mkCategory "python_venvs" "Python Virtual Environments"
     []
     SAFE ["**/.venv"; "**/venv"; "**/.virtualenv"; "**/env"] dev_search_roots true (50 * 1024 * 1024)
     (None));
  ("pycache",
   mkCategory "pycache" "Python Cache (__pycache__)"
     []
     SAFE ["**/__pycache__"] dev_search_roots true (1 * 1024 * 1024)
     (None));
  ("build_artifacts",
   mkCategory "build_artifacts" "Build Artifacts"
     []
     REVIEW ["**/dist"; "**/build"; "**/.build"] dev_search_roots true (10 * 1024 * 1024)
     (None));
  ("cargo_cache",
   mkCategory "cargo_cache" "Rust Cargo Cache"
     ["~/.cargo/registry"; "~/.cargo/git"]
     SAFE [] [] false (0)
     (None));
  ("go_cache",
   mkCategory "go_cache" "Go Module Cache"
     ["~/go/pkg/mod"; "~/Library/Caches/go-build"]
     SAFE [] [] false (0)
     (Some "go clean -modcache"));
  ("target_dirs",
   mkCategory "target_dirs" "Rust Target Directories"
     []
     SAFE ["**/target"] dev_search_roots true (100 * 1024 * 1024)
     (None));
  ("dotnet_cache",
   mkCategory "dotnet_cache" ".NET/NuGet Cache"
     ["~/.nuget/packages"; "~/.dotnet"]
     SAFE [] [] false (0)
     (Some "dotnet nuget locals all --clear"))
].

(** [dict.get] and [key in dict] on a table in insertion order. *)
Fixpoint dict_get {V : Type} (table : list (string * V)) (key : string) : option V :=
  match table with
  | [] => None
  | (k, v) :: rest => if String.eqb k key then Some v else dict_get rest key
  end.

Definition dict_mem {V : Type} (table : list (string * V)) (key : string) : bool :=
  match dict_get table key with Some _ => true | None => false end.

(* ===================================================================== *)
(** ** The operating system, as the package sees it *)
(* ===================================================================== *)

(** The two exceptions the package catches around filesystem calls;
    [PermissionError] is the subclass, and the message is [str(e)]. *)
Inductive oserror :=
| PermissionError (msg : string)
| OSError (msg : string).

Inductive result (A : Type) :=
| Ok (a : A)
| Raise (e : oserror).
Arguments Ok {A} a.
Arguments Raise {A} e.

(** What a call of [clean_category] ends in: a result, or the [IndexError]
    of [category.paths[0]] on a category without paths. *)
Inductive outcome (A : Type) :=
| Return (a : A)
| IndexError.
Arguments Return {A} a.
Arguments IndexError {A}.

(** An [os.DirEntry]: the name and the answers the package asks of it. *)
Record DirEntry := mkDirEntry {
  de_name : string;
  de_is_file : result bool;   (* entry.is_file(follow_symlinks=False) *)
  de_is_dir : result bool;    (* entry.is_dir(follow_symlinks=False)  *)
  de_st_size : result Z       (* entry.stat().st_size                 *)
}.

(** What [subprocess.run(command, shell=True, capture_output=True, text=True,
    timeout=300)] can do. *)
Inductive proc_outcome :=
| Completed (returncode : Z) (stderr : string)
| TimeoutExpired
| OtherException (msg : string).

(** Everything outside the package: the process environment, the disk and
    the wall clock.  An [os.scandir] that fails while iterating is, for every
    caller below, the same as a shorter successful listing, so [scandir]
    either lists or raises. *)
Class OS := {
  Disk : Type;
  Clock : Type;
  environ_HOME : string;                      (* $HOME, or the pw_dir of the user *)
  pw_dir : string -> option string;           (* pwd.getpwnam(name).pw_dir        *)
  substitute_vars : string -> string;         (* the $VAR rewriting of expandvars *)
  path_exists : Disk -> Path -> bool;         (* Path.exists()                    *)
  path_is_file : Disk -> Path -> bool;        (* Path.is_file()                   *)
  path_is_dir : Disk -> Path -> bool;         (* Path.is_dir()                    *)
  path_st_size : Disk -> Path -> result Z;    (* Path.stat().st_size              *)
  scandir : Disk -> Path -> result (list DirEntry);
  path_unlink : Disk -> Path -> Disk * option oserror;
  shutil_rmtree : Disk -> Path -> Disk * option oserror;
  subprocess_run : Disk -> string -> Disk * proc_outcome;
  time_time : Clock -> float * Clock
}.

Section Package.
Context `{os : OS}.

(* ===================================================================== *)
(** ** scanner.py: expand_path *)
(* ===================================================================== *)

(** [os.path.expandvars]: paths without ["$"] are returned as they are. *)
Definition expandvars (path : string) : string :=
  if negb (str_contains_char "$"%char path) then path else substitute_vars path.

(** [os.path.expanduser] *)
Definition expanduser (path : string) : string :=
  match path with
  | String c rest =>
      if negb (Ascii.eqb c "~"%char) then path
      else
        let (name, tl) := break_sep rest in
        let userhome := if String.eqb name "" then Some environ_HOME else pw_dir name in
        match userhome with
        | None => path
        | Some h =>
            let r := rstrip_sep h +:+ tl in
            if String.eqb r "" then "/" else r
        end
  | EmptyString => path
  end.

Definition expand_path (path : string) : Path :=
  Path_of_str (expanduser (expandvars path)).

(** [Path.home()] *)
Definition Path_home : Path := Path_of_str (expanduser "~").


(** The module-level state of [scanner.py] together with the outside world:
    [_size_cache] maps [str(path)] to [(size, files, dirs, cached_at)]. *)
Record World := mkWorld {
  disk : Disk;
  clock : Clock;
  _size_cache : gmap string (Z * Z * Z * float)
}.

Definition set_disk (w : World) (d : Disk) : World :=
  mkWorld d (clock w) (_size_cache w).

(* ===================================================================== *)
(** ** scanner.py: the directory-size engine *)
(* ===================================================================== *)

Definition CACHE_TTL : Z := 300.

(** The float a small non-negative Python [int] compares equal to. *)
Definition float_of_int (z : Z) : float := PrimFloat.of_uint63 (Uint63.of_Z z).

Definition clear_size_cache (w : World) : World :=
  mkWorld (disk w) (clock w) ∅.

(** One iteration of the [for entry in entries] loop of [_scan]; [rec] is the
    recursive call [_scan(Path(entry.path), depth + 1)] and [acc] holds the
    three [nonlocal] counters. *)
Definition _scan_entry (rec : Path -> Z -> Z * Z * Z -> Z * Z * Z)
    (p : Path) (depth : Z) (acc : Z * Z * Z) (entry : DirEntry) : Z * Z * Z :=
  let '(total_size, file_count, dir_count) := acc in
  match de_is_file entry with
  | Raise _ => acc
  | Ok true =>
      match de_st_size entry with
      | Raise _ => acc
      | Ok size => (total_size + size, file_count + 1, dir_count)
      end
  | Ok false =>
      match de_is_dir entry with
      | Raise _ => acc
      | Ok true => rec (p // de_name entry) (depth + 1) (total_size, file_count, dir_count + 1)
      | Ok false => acc
      end
  end.

(** The inner function [_scan(p, depth)].  It recurses with [depth + 1] and
    returns at once when [depth > max_depth]; [fuel] bounds the number of
    nested calls and is never exhausted from [max_depth + 1 - depth] on
    (lemma [_scan_fuel_enough]). *)
Fixpoint _scan (fuel : nat) (d : Disk) (max_depth : Z) (p : Path) (depth : Z)
    (acc : Z * Z * Z) : Z * Z * Z :=
  if depth >? max_depth then acc
  else
    match fuel with
    | O => acc
    | S fuel' =>
        match scandir d p with
        | Raise _ => acc
        | Ok entries =>
            fold_left (_scan_entry (_scan fuel' d max_depth) p depth) entries acc
        end
    end.

Definition get_directory_size_fast (d : Disk) (path : Path) (max_depth : Z) : Z * Z * Z :=
  _scan (Z.to_nat (max_depth + 1)) d max_depth path 0 (0, 0, 0).

Definition get_directory_size_cached (w : World) (path : Path) (max_depth : Z)
    : (Z * Z * Z) * World :=
  let key := str path in
  let (now, clk) := time_time (clock w) in
  let recompute :=
    let '(size, files, dirs) := get_directory_size_fast (disk w) path max_depth in
    ((size, files, dirs),
     mkWorld (disk w) clk (<[key := (size, files, dirs, now)]> (_size_cache w))) in
  match _size_cache w !! key with
  | Some (size, files, dirs, cached_at) =>
      if PrimFloat.ltb (PrimFloat.sub now cached_at) (float_of_int CACHE_TTL)
      then ((size, files, dirs), mkWorld (disk w) clk (_size_cache w))
      else recompute
  | None => recompute
  end.

Definition get_directory_size (w : World) (path : Path) : (Z * Z * Z) * World :=
  get_directory_size_cached w path 20.

(** *** Vocabulary for the recursion law of the size computation

    What one level of a directory contributes, read off its listing: the
    entries that are regular files whose size can be read, and the entries
    that are directories (symbolic links are neither; an entry whose type or
    size cannot be read is none of them). *)
Definition listing (d : Disk) (p : Path) : list DirEntry :=
  match scandir d p with Ok entries => entries | Raise _ => [] end.

Definition is_direct_file (e : DirEntry) : bool :=
  match de_is_file e, de_st_size e with
  | Ok true, Ok _ => true
  | _, _ => false
  end.

Definition direct_file_size (e : DirEntry) : Z :=
  match de_st_size e with Ok size => size | Raise _ => 0 end.

Definition is_subdirectory (e : DirEntry) : bool :=
  match de_is_file e, de_is_dir e with
  | Ok false, Ok true => true
  | _, _ => false
  end.

Definition direct_files (d : Disk) (p : Path) : list DirEntry :=
  List.filter is_direct_file (listing d p).

Definition subdirectories (d : Disk) (p : Path) : list Path :=
  map (fun e => p // de_name e) (List.filter is_subdirectory (listing d p)).

(** The three counters of a size triple, and the sum of two triples. *)
Definition bytes_of (t : Z * Z * Z) : Z := fst (fst t).
Definition files_of (t : Z * Z * Z) : Z := snd (fst t).
Definition dirs_of (t : Z * Z * Z) : Z := snd t.

Definition counts_add (a b : Z * Z * Z) : Z * Z * Z :=
  (bytes_of a + bytes_of b, files_of a + files_of b, dirs_of a + dirs_of b).

(** [additive rec]: a recursive scan that only adds to the counters. *)
Definition additive (rec : Path -> Z -> Z * Z * Z -> Z * Z * Z) : Prop :=
  forall q k acc, rec q k acc = counts_add acc (rec q k (0, 0, 0)).

(** The sum of a list of numbers. *)
Definition total (l : list Z) : Z := fold_right Z.add 0 l.

(** [nests_at_most n d p]: below [p], directories are nested at most [n]
    levels deep ([0]: [p] has no subdirectory). *)
Fixpoint nests_at_most (n : nat) (d : Disk) (p : Path) : bool :=
  match n with
  | O => match subdirectories d p with [] => true | _ => false end
  | S n' => forallb (nests_at_most n' d) (subdirectories d p)
  end.

(** [sum(...)] over Python ints *)
Definition sum_Z (l : list Z) : Z := fold_left Z.add l 0.

(** [[r.error for r in results if r.error]] *)
Definition truthy_errors (results : list ScanResult) : list string :=
  flat_map (fun r => match sr_error r with
                     | Some e => if String.eqb e "" then [] else [e]
                     | None => []
                     end) results.

Definition aggregate_category_results (results : list ScanResult) : option ScanResult :=
  match results with
  | [] => None
  | first :: _ =>
      let existing_paths :=
        map sr_path (List.filter (fun r => sr_exists r && (sr_size_bytes r >? 0)) results) in
      let display_path :=
        match existing_paths with p :: _ => p | [] => sr_path first end in
      let total_size := sum_Z (map sr_size_bytes results) in
      let total_files := sum_Z (map sr_file_count results) in
      let total_dirs := sum_Z (map sr_dir_count results) in
      let any_exists := existsb sr_exists results in
      let errors := truthy_errors results in
      Some (mkScanResult (sr_category_id first) (sr_category_name first)
              display_path total_size total_files total_dirs
              (sr_risk_level first) any_exists
              (match errors with [] => None | _ => Some (str_join "; " errors) end))
  end.

(* ===================================================================== *)
(** ** recursive_scanner.py *)
(* ===================================================================== *)

Definition SKIP_DIRECTORIES : list string :=
  [".git"; ".svn"; ".hg"; "Library"; "Applications"; ".Trash";
   "node_modules"; ".venv"; "venv"; "__pycache__"].

(** [x in (a, b, ...)] on strings *)
Definition str_in (x : string) (l : list string) : bool :=
  existsb (String.eqb x) l.

(** One iteration of the [for entry in entries] loop of
    [find_matching_directories]: the paths it yields. *)
Definition find_entry (rec : Path -> list Path) (root : Path) (pattern : string)
    (skip_inside_match : bool) (entry : DirEntry) : list Path :=
  match de_is_dir entry with
  | Raise _ => []
  | Ok false => []
  | Ok true =>
      let name := de_name entry in
      if startswith "." name && negb (String.eqb name pattern)
         && (negb (str_in name [".venv"; ".virtualenv"])
             || negb (str_in pattern [".venv"; ".virtualenv"]))
      then []
      else if str_in name SKIP_DIRECTORIES && negb (String.eqb name pattern)
      then []
      else
        let entry_path := root // name in
        (if String.eqb name pattern then [entry_path] else [])
        ++ (if String.eqb name pattern && skip_inside_match then []
            else rec entry_path)
  end.

(** The generator [find_matching_directories], as the list of the paths it
    yields, in order.  Every recursive call has [max_depth - 1] and the
    generator stops at [max_depth <= 0], so [Z.to_nat max_depth] nested calls
    are all there can be (lemma [find_matching_fuel_enough]). *)
Fixpoint find_matching_fuel (fuel : nat) (d : Disk) (root : Path) (pattern : string)
    (max_depth : Z) (skip_inside_match : bool) : list Path :=
  if max_depth <=? 0 then []
  else
    match fuel with
    | O => []
    | S fuel' =>
        match scandir d root with
        | Raise _ => []
        | Ok entries =>
            flat_map
              (find_entry
                 (fun entry_path =>
                    find_matching_fuel fuel' d entry_path pattern (max_depth - 1)
                                       skip_inside_match)
                 root pattern skip_inside_match)
              entries
        end
    end.

Definition find_matching_directories (d : Disk) (root : Path) (pattern : string)
    (max_depth : Z) (skip_inside_match : bool) : list Path :=
  find_matching_fuel (Z.to_nat max_depth) d root pattern max_depth skip_inside_match.

(** [results.sort(key=lambda r: r.size_bytes, reverse=True)]: stable,
    largest first. *)
Fixpoint insert_desc (r : ScanResult) (l : list ScanResult) : list ScanResult :=
  match l with
  | [] => [r]
  | y :: l' =>
      if sr_size_bytes y >? sr_size_bytes r then y :: insert_desc r l' else r :: l
  end.

Definition sort_desc (l : list ScanResult) : list ScanResult :=
  fold_right insert_desc [] l.

(** Body of [for found_dir in find_matching_directories(...)]. *)
Definition scan_found (category : Category)
    (st : list ScanResult * gset string * World) (found_dir : Path)
    : list ScanResult * gset string * World :=
  let '(results, seen_paths, w) := st in
  let dir_str := str found_dir in
  if bool_decide (dir_str ∈ seen_paths) then st
  else
    let seen_paths := seen_paths ∪ {[dir_str]} in
    let '((size, file_count, dir_count), w) := get_directory_size w found_dir in
    if size <? c_min_size_bytes category then (results, seen_paths, w)
    else
      (results ++ [mkScanResult (c_id category) (c_name category) dir_str
                     size file_count dir_count (c_risk_level category) true None],
       seen_paths, w).

(** Body of [for pattern in category.glob_patterns]. *)
Definition scan_pattern (category : Category) (root_path : Path)
    (st : list ScanResult * gset string * World) (pattern : string)
    : list ScanResult * gset string * World :=
  let pattern_name := strip_sep (str_replace "*/" "" (str_replace "**/" "" pattern)) in
  fold_left (scan_found category)
    (find_matching_directories (disk (snd st)) root_path pattern_name 15 true) st.

(** Body of [for search_root in category.search_roots]. *)
Definition scan_root (category : Category)
    (st : list ScanResult * gset string * World) (search_root : string)
    : list ScanResult * gset string * World :=
  let root_path := expand_path search_root in
  let d := disk (snd st) in
  if negb (path_exists d root_path) || negb (path_is_dir d root_path) then st
  else fold_left (scan_pattern category root_path) (c_glob_patterns category) st.

Definition scan_recursive_category (w : World) (category : Category)
    : list ScanResult * World :=
  if negb (c_is_recursive category) then ([], w)
  else
    let '(results, _, w') :=
      fold_left (scan_root category) (c_search_roots category) ([], ∅, w) in
    (sort_desc results, w').

(* ===================================================================== *)
(** ** cleaner.py *)
(* ===================================================================== *)

(** The registry the cleaner looks categories up in.  The package uses the
    module-level [CATEGORIES]; its tests substitute other tables, so the
    table is a parameter here. *)
Variable registry : list (string * Category).

(** [f"{total_bytes / 1024**3:.1f}"]: the decimal rendering of a float
    division, used only inside an error message. *)
Variable format_gib : Z -> string.

Definition get_category (category_id : string) : option Category :=
  dict_get registry category_id.

Definition BLOCKED_PATHS : list string :=
  ["~/Documents"; "~/Desktop"; "~/Pictures"; "~/Music"; "~/Movies";
   "~/Code"; "~/Projects"; "~/Work";
   "/System"; "/Library"; "/Applications"; "/usr"; "/bin"; "/sbin";
   "/var"; "/private"; "/Users"; "~"].

Definition MAX_CLEANUP_BYTES : Z := 100 * 1024 ^ 3.

(** The body of the [for blocked in BLOCKED_PATHS] loop returns [False]
    exactly when this holds for [blocked]. *)
Definition hits_blocked (path_str blocked : string) : bool :=
  let blocked_expanded := str (expand_path blocked) in
  (String.eqb path_str blocked_expanded
   || startswith (blocked_expanded +:+ "/") path_str)
  && String.eqb path_str blocked_expanded.

Definition is_path_safe (path : Path) : bool :=
  let path_str := str path in
  if existsb (hits_blocked path_str) BLOCKED_PATHS then false
  else
    let home := str Path_home in
    if String.eqb path_str home then false else true.

(** The two [except] clauses of [delete_path]. *)
Definition delete_error (e : oserror) : Z * Z * option string :=
  match e with
  | PermissionError msg => (0, 0, Some ("Permission denied: " +:+ msg))
  | OSError msg => (0, 0, Some ("OS error: " +:+ msg))
  end.

Definition delete_path (w : World) (path : Path) (dry_run : bool)
    : (Z * Z * option string) * World :=
  if negb (path_exists (disk w) path) then ((0, 0, None), w)
  else
    let measured : result (Z * Z) * World :=
      if path_is_file (disk w) path then
        match path_st_size (disk w) path with
        | Ok size => (Ok (size, 1), w)
        | Raise e => (Raise e, w)
        end
      else
        let '((size, files, _), w1) := get_directory_size w path in
        (Ok (size, files), w1) in
    match measured with
    | (Raise e, w1) => (delete_error e, w1)
    | (Ok (size, files), w1) =>
        if dry_run then ((size, files, None), w1)
        else
          let (d2, raised) :=
            if path_is_file (disk w1) path then path_unlink (disk w1) path
            else shutil_rmtree (disk w1) path in
          match raised with
          | Some e => (delete_error e, set_disk w1 d2)
          | None => ((size, files, None), set_disk w1 d2)
          end
    end.

Definition native_path (command : string) : string :=
  "[native command: " +:+ command +:+ "]".

Definition _run_native_cleanup (w : World) (category_id command : string)
    (dry_run : bool) : CleanupResult * World :=
  if dry_run then
    (mkCleanupResult category_id (native_path command) 0 0 true None true, w)
  else
    let (d', out) := subprocess_run (disk w) command in
    let w' := set_disk w d' in
    match out with
    | Completed returncode stderr =>
        if returncode =? 0 then
          (mkCleanupResult category_id (native_path command) 0 0 true None false, w')
        else
          (mkCleanupResult category_id (native_path command) 0 0 false
             (Some (if String.eqb stderr "" then "Command failed" else stderr)) false, w')
    | TimeoutExpired =>
        (mkCleanupResult category_id (native_path command) 0 0 false
           (Some "Command timed out") false, w')
    | OtherException msg =>
        (mkCleanupResult category_id (native_path command) 0 0 false (Some msg) false, w')
    end.

(** The loop state of [clean_category]:
    [total_bytes], [total_files], [errors], [paths_cleaned] and the world. *)
Definition clean_state : Type := Z * Z * list string * list string * World.

(** Body of [for path_str in category.paths]. *)
Definition clean_path (dry_run : bool) (st : clean_state) (path_str : string)
    : clean_state :=
  let '(total_bytes, total_files, errors, paths_cleaned, w) := st in
  let path := expand_path path_str in
  if negb (path_exists (disk w) path) then st
  else if negb (is_path_safe path) then
    (total_bytes, total_files, errors ++ ["Blocked path: " +:+ str path], paths_cleaned, w)
  else
    let '((bytes_freed, files_deleted, error), w') := delete_path w path dry_run in
    match error with
    | Some e =>
        if String.eqb e "" then
          (total_bytes + bytes_freed, total_files + files_deleted, errors,
           paths_cleaned ++ [str path], w')
        else
          (total_bytes, total_files, errors ++ [str path +:+ ": " +:+ e], paths_cleaned, w')
    | None =>
        (total_bytes + bytes_freed, total_files + files_deleted, errors,
         paths_cleaned ++ [str path], w')
    end.

Definition clean_category (w : World) (category_id : string) (dry_run : bool)
    : outcome CleanupResult * World :=
  match get_category category_id with
  | None =>
      (Return (mkCleanupResult category_id "" 0 0 false
                 (Some ("Unknown category: " +:+ category_id)) dry_run), w)
  | Some category =>
      if truthy (c_cleanup_command category) && negb dry_run then
        let (r, w') :=
          _run_native_cleanup w category_id
            (match c_cleanup_command category with Some c => c | None => "" end)
            dry_run in
        (Return r, w')
      else
        let '(total_bytes, total_files, errors, paths_cleaned, w') :=
          fold_left (clean_path dry_run) (c_paths category) (0, 0, [], [], w) in
        let path :=
          match paths_cleaned with
          | p :: _ => Some p
          | [] => match c_paths category with p :: _ => Some p | [] => None end
          end in
        match path with
        | None => (IndexError, w')
        | Some path =>
            (Return (mkCleanupResult category_id path total_bytes total_files
                       (match errors with [] => true | _ => false end)
                       (match errors with [] => None | _ => Some (str_join "; " errors) end)
                       dry_run), w')
        end
  end.

Definition validate_cleanup_request (category_ids : list string) (total_bytes : Z)
    : bool * option string :=
  if total_bytes >? MAX_CLEANUP_BYTES then
    (false, Some ("Cleanup exceeds safety limit (" +:+ format_gib total_bytes
                  +:+ " GB > 100 GB)"))
  else
    match List.find (fun cat_id => negb (dict_mem registry cat_id)) category_ids with
    | Some cat_id => (false, Some ("Unknown category: " +:+ cat_id))
    | None => (true, None)
    end.

(** *** Vocabulary for the dry run of [clean_category]

    What the disk holds at a path that exists: a regular file is its size
    and one file, any other path what [get_directory_size_fast] counts below
    it with the default bound of 20; a size that cannot be read is an
    error. *)
Definition size_on_disk (d : Disk) (path : Path) : result (Z * Z) :=
  if path_is_file d path then
    match path_st_size d path with
    | Ok size => Ok (size, 1)
    | Raise e => Raise e
    end
  else Ok (bytes_of (get_directory_size_fast d path 20),
           files_of (get_directory_size_fast d path 20)).

(** The bytes and files a declared path adds to a dry run: those on disk,
    when the path is allowed and its size can be read. *)
Definition counted (d : Disk) (path_str : string) : option (Z * Z) :=
  if is_path_safe (expand_path path_str) then
    match size_on_disk d (expand_path path_str) with
    | Ok measured => Some measured
    | Raise _ => None
    end
  else None.

(** The size cache holds nothing stale: what it stores for a path is what a
    scan of the disk gives now. *)
Definition size_cache_fresh (w : World) : Prop :=
  forall path size files dirs cached_at,
    wf_path path ->
    _size_cache w !! str path = Some (size, files, dirs, cached_at) ->
    (size, files, dirs) = get_directory_size_fast (disk w) path 20.

End Package.

(* ===================================================================== *)
(** ** models.py: [DiskUsage], [Analysis], [CleanupSession] *)
(* ===================================================================== *)

Definition RiskLevel_eqb (a b : RiskLevel) : bool :=
  match a, b with
  | SAFE, SAFE | REVIEW, REVIEW | RISKY, RISKY => true
  | _, _ => false
  end.

Record DiskUsage := mkDiskUsage {
  du_total_bytes : Z;
  du_used_bytes : Z;
  du_free_bytes : Z;
  du_mount_point : string
}.

(** [Analysis]; the [timestamp] is a [datetime], kept as a clock reading. *)
Record Analysis := mkAnalysis {
  an_timestamp : float;
  an_disk_usage : DiskUsage;
  an_scan_results : list ScanResult
}.

Definition safe_items (analysis : Analysis) : list ScanResult :=
  List.filter (fun r => RiskLevel_eqb (sr_risk_level r) SAFE && (sr_size_bytes r >? 0))
              (an_scan_results analysis).

Definition review_items (analysis : Analysis) : list ScanResult :=
  List.filter (fun r => RiskLevel_eqb (sr_risk_level r) REVIEW && (sr_size_bytes r >? 0))
              (an_scan_results analysis).

Definition risky_items (analysis : Analysis) : list ScanResult :=
  List.filter (fun r => RiskLevel_eqb (sr_risk_level r) RISKY && (sr_size_bytes r >? 0))
              (an_scan_results analysis).

Definition total_safe_bytes (analysis : Analysis) : Z :=
  sum_Z (map sr_size_bytes (safe_items analysis)).

Definition total_review_bytes (analysis : Analysis) : Z :=
  sum_Z (map sr_size_bytes (review_items analysis)).

Definition total_cleanable_bytes (analysis : Analysis) : Z :=
  sum_Z (map sr_size_bytes
           (List.filter (fun r => sr_size_bytes r >? 0) (an_scan_results analysis))).

Record CleanupSession := mkCleanupSession {
  cs_id : string;
  cs_timestamp : float;
  cs_results : list CleanupResult;
  cs_disk_before : DiskUsage;
  cs_disk_after : option DiskUsage
}.

Definition total_bytes_freed (session : CleanupSession) : Z :=
  sum_Z (map cr_bytes_freed (List.filter cr_success (cs_results session))).

(** [sum(1 for r in self.results if ...)] *)
Definition success_count (session : CleanupSession) : Z :=
  sum_Z (map (fun _ => 1) (List.filter cr_success (cs_results session))).

Definition failure_count (session : CleanupSession) : Z :=
  sum_Z (map (fun _ => 1) (List.filter (fun r => negb (cr_success r)) (cs_results session))).

(* ===================================================================== *)
(** ** analyzer.py *)
(* ===================================================================== *)

(** [l[:n]] for a Python [int] [n]: a negative [n] counts from the end. *)
Definition slice_to {A : Type} (n : Z) (l : list A) : list A :=
  if 0 <=? n then firstn (Z.to_nat n) l
  else firstn (Z.to_nat (Z.of_nat (List.length l) + n)) l.

Definition get_safe_cleanup_targets (analysis : Analysis) : list ScanResult :=
  sort_desc (safe_items analysis).

Definition estimate_cleanup_savings (analysis : Analysis) (include_review : bool) : Z :=
  let total := total_safe_bytes analysis in
  if include_review then total + total_review_bytes analysis else total.

Definition filter_by_minimum_size (results : list ScanResult) (min_bytes : Z)
    : list ScanResult :=
  List.filter (fun r => sr_size_bytes r >=? min_bytes) results.

Definition get_category_by_size (analysis : Analysis) (top_n : Z) : list ScanResult :=
  let sorted_results :=
    sort_desc (List.filter (fun r => sr_size_bytes r >? 0) (an_scan_results analysis)) in
  slice_to top_n sorted_results.

(* ===================================================================== *)
(** ** recursive_scanner.py: [aggregate_recursive_results] *)
(* ===================================================================== *)

(** [str(n)] and [f"{n}"] for a Python [int]. *)
Definition str_of_int (n : Z) : string := NilZero.string_of_int (Z.to_int n).

(** [max(results, key=lambda r: r.size_bytes)] on [first :: rest]: the first
    of the largest. *)
Fixpoint max_by_size (first : ScanResult) (rest : list ScanResult) : ScanResult :=
  match rest with
  | [] => first
  | r :: rest' =>
      max_by_size (if sr_size_bytes r >? sr_size_bytes first then r else first) rest'
  end.

Definition aggregate_recursive_results (results : list ScanResult) (category : Category)
    : option ScanResult :=
  match results with
  | [] => None
  | first :: rest =>
      let total_size := sum_Z (map sr_size_bytes results) in
      let total_files := sum_Z (map sr_file_count results) in
      let total_dirs := sum_Z (map sr_dir_count results) in
      let found_count := Z.of_nat (List.length results) in
      let largest := max_by_size first rest in
      let display_path :=
        if found_count >? 1
        then sr_path largest +:+ " (+" +:+ str_of_int (found_count - 1) +:+ " more)"
        else sr_path largest in
      Some (mkScanResult (c_id category)
              (c_name category +:+ " (" +:+ str_of_int found_count +:+ " found)")
              display_path total_size total_files total_dirs
              (c_risk_level category) true None)
  end.

(** A directory the walk goes through on its way to a match of [pattern]:
    either it is itself a match that was entered ([skip_inside_match] off),
    or it is not on the skip list and not hidden, [.virtualenv] apart when
    [.venv] is searched. *)
Definition passable (pattern : string) (skip_inside_match : bool) (name : string) : Prop :=
  (name = pattern /\ skip_inside_match = false)
  \/ (name <> pattern
      /\ str_in name SKIP_DIRECTORIES = false
      /\ (startswith "." name = false \/ (name = ".virtualenv" /\ pattern = ".venv"))).

(* ===================================================================== *)
(** ** Results that are Python dicts *)
(* ===================================================================== *)

Inductive pyval :=
| PyNone
| PyBool (b : bool)
| PyInt (n : Z)
| PyStr (s : string)
| PyStrs (l : list string).

(** A dict literal, in the order its keys are written. *)
Definition pydict : Type := list (string * pyval).

(** [Path.name]: the last component, [""] when there is none. *)
Definition Path_name (p : Path) : string := List.last (tail p) "".

(** [str(e)] of a caught OS error. *)
Definition oserror_str (e : oserror) : string :=
  match e with PermissionError msg => msg | OSError msg => msg end.

(** What the scan of a category needs of [get_docker_breakdown()]. *)
Record docker_breakdown := mkDockerBreakdown {
  dk_available : bool;
  dk_total_bytes : Z;
  dk_images : Z;        (* len(breakdown["images"])     *)
  dk_containers : Z     (* len(breakdown["containers"]) *)
}.

(** The protection config file, parsed: its two lists. *)
Record protection_config := mkProtectionConfig {
  protected_paths : list string;
  protected_categories : list string
}.

(** [list.remove(x)]: the first occurrence. *)
Fixpoint list_remove_first (x : string) (l : list string) : list string :=
  match l with
  | [] => []
  | y :: l' => if String.eqb y x then l' else y :: list_remove_first x l'
  end.

Section Tools.
Context `{os : OS}.

(** The registry, as in the cleaner. *)
Variable registry : list (string * Category).

(** [get_docker_breakdown()], which asks the docker command line and parses
    what it prints: its answer on a disk, [None] when it raises. *)
Variable get_docker_breakdown : Disk -> option docker_breakdown.

(** [scan_all_categories()], which scans on a thread pool. *)
Variable scan_all_categories : World -> list ScanResult * World.

(** [str.strip()], which knows the white space of Unicode. *)
Variable str_strip : string -> string.

(** [subprocess.run(cmd, shell=True, capture_output=True, text=True,
    timeout=60)]: the disk it leaves, and the exit code, standard output and
    standard error, a timeout or another exception. *)
Variable shell_run : Disk -> string -> Disk * (proc_outcome * string).

(** [_load_config()] and [_save_config(config)], which read and write the
    JSON file [~/.uncruft/config.json]. *)
Variable _load_config : Disk -> protection_config.
Variable _save_config : Disk -> protection_config -> Disk * bool.

(* --------------------------------------------------------------------- *)
(** *** scanner.py: [scan_path], [scan_category], [quick_scan] *)

Definition scan_path (w : World) (path : string) (category : Category)
    : ScanResult * World :=
  let expanded_path := expand_path path in
  let result size_bytes file_count dir_count exists_ error :=
    mkScanResult (c_id category) (c_name category) (str expanded_path)
      size_bytes file_count dir_count (c_risk_level category) exists_ error in
  if negb (path_exists (disk w) expanded_path) then (result 0 0 0 false None, w)
  else if path_is_file (disk w) expanded_path then
    match path_st_size (disk w) expanded_path with
    | Ok size => (result size 1 0 true None, w)
    | Raise e => (result 0 0 0 true (Some (oserror_str e)), w)
    end
  else if path_is_dir (disk w) expanded_path then
    let '((size, file_count, dir_count), w') := get_directory_size w expanded_path in
    (result size file_count dir_count true None, w')
  else (result 0 0 0 false None, w).

(** The loop [for path in category.paths: results.append(scan_path(...))]. *)
Definition scan_paths (w : World) (category : Category) : list ScanResult * World :=
  fold_left (fun (st : list ScanResult * World) path =>
               let (result, w') := scan_path (snd st) path category in
               (fst st ++ [result], w'))
            (c_paths category) ([], w).

Definition _scan_docker_category (w : World) (category : Category)
    : list ScanResult * World :=
  match get_docker_breakdown (disk w) with
  | Some breakdown =>
      if dk_available breakdown then
        ([mkScanResult (c_id category) (c_name category) "Docker Desktop"
            (dk_total_bytes breakdown) (dk_images breakdown) (dk_containers breakdown)
            (c_risk_level category) true None], w)
      else scan_paths w category
  | None => scan_paths w category
  end.

Definition scan_category (w : World) (category : Category) : list ScanResult * World :=
  if String.eqb (c_id category) "docker_data" then _scan_docker_category w category
  else scan_paths w category.

(** Body of [for cat_id in category_ids] in [quick_scan]. *)
Definition quick_scan_step (st : list ScanResult * World) (cat_id : string)
    : list ScanResult * World :=
  match dict_get registry cat_id with
  | None => st
  | Some category =>
      let (category_results, w') := scan_category (snd st) category in
      match aggregate_category_results category_results with
      | Some aggregated => (fst st ++ [aggregated], w')
      | None => (fst st, w')
      end
  end.

Definition quick_scan (w : World) (category_ids : option (list string))
    : list ScanResult * World :=
  match category_ids with
  | None => scan_all_categories w
  | Some ids =>
      let (results, w') := fold_left quick_scan_step ids ([], w) in
      (sort_desc results, w')
  end.

(* --------------------------------------------------------------------- *)
(** *** scanner.py: [run_command] *)

Definition ALLOWED_COMMANDS : list string :=
  ["docker images"; "docker system df"; "docker system df -v"; "docker ps -a";
   "docker volume ls"; "brew cleanup --dry-run"; "brew list --cask"; "git gc --dry-run"].

Definition DESTRUCTIVE_COMMANDS : list string :=
  ["docker system prune -a"; "docker system prune"; "docker builder prune -a";
   "docker builder prune"; "docker volume prune"; "brew cleanup"; "git gc"].

(** The [allowed_commands] entry lists a set, in no fixed order; it is given
    here in the order of the two literals. *)
Definition run_command (d : Disk) (command : string) : pydict * Disk :=
  let cmd := str_strip command in
  if negb (str_in cmd ALLOWED_COMMANDS) && negb (str_in cmd DESTRUCTIVE_COMMANDS) then
    ([("success", PyBool false);
      ("error", PyStr ("Command not allowed: " +:+ cmd));
      ("allowed_commands", PyStrs (ALLOWED_COMMANDS ++ DESTRUCTIVE_COMMANDS))], d)
  else
    let is_destructive := str_in cmd DESTRUCTIVE_COMMANDS in
    let '(d', (out, stdout)) := shell_run d cmd in
    match out with
    | Completed returncode stderr =>
        ([("success", PyBool (returncode =? 0));
          ("command", PyStr cmd);
          ("output", PyStr stdout);
          ("error", if negb (returncode =? 0) then PyStr stderr else PyNone);
          ("is_destructive", PyBool is_destructive)], d')
    | TimeoutExpired =>
        ([("success", PyBool false); ("command", PyStr cmd);
          ("error", PyStr "Command timed out after 60 seconds")], d')
    | OtherException msg =>
        ([("success", PyBool false); ("command", PyStr cmd); ("error", PyStr msg)], d')
    end.

(* --------------------------------------------------------------------- *)
(** *** scanner.py: the protection list *)

Definition is_protected (d : Disk) (path : string) : bool :=
  let config := _load_config d in
  let expanded := str (expand_path path) in
  existsb (fun protected =>
             let protected_expanded := str (expand_path protected) in
             String.eqb expanded protected_expanded
             || startswith (protected_expanded +:+ "/") expanded)
          (protected_paths config).

Definition protection_saved (config : protection_config) : pydict :=
  [("success", PyBool true);
   ("protected_paths", PyStrs (protected_paths config));
   ("protected_categories", PyStrs (protected_categories config))].

Definition add_protection (d : Disk) (path category_id : option string) : pydict * Disk :=
  if negb (truthy path) && negb (truthy category_id) then
    ([("success", PyBool false); ("error", PyStr "Must specify path or category_id")], d)
  else
    let config := _load_config d in
    let with_path : option protection_config :=
      match path with
      | Some p =>
          if String.eqb p "" then Some config
          else
            let expanded := str (expand_path p) in
            if negb (path_exists d (Path_of_str expanded)) then None
            else if negb (str_in expanded (protected_paths config)) then
              Some (mkProtectionConfig (protected_paths config ++ [expanded])
                                       (protected_categories config))
            else Some config
      | None => Some config
      end in
    match with_path with
    | None =>
        ([("success", PyBool false);
          ("error", PyStr ("Path does not exist: "
                           +:+ match path with Some p => p | None => "" end))], d)
    | Some config =>
        let config :=
          match category_id with
          | Some c =>
              if negb (String.eqb c "") && negb (str_in c (protected_categories config))
              then mkProtectionConfig (protected_paths config)
                                      (protected_categories config ++ [c])
              else config
          | None => config
          end in
        let (d', saved) := _save_config d config in
        if saved then (protection_saved config, d')
        else ([("success", PyBool false); ("error", PyStr "Failed to save config")], d')
    end.

Definition remove_protection (d : Disk) (path category_id : option string)
    : pydict * Disk :=
  if negb (truthy path) && negb (truthy category_id) then
    ([("success", PyBool false); ("error", PyStr "Must specify path or category_id")], d)
  else
    let config := _load_config d in
    let config :=
      match path with
      | Some p =>
          if String.eqb p "" then config
          else
            let expanded := str (expand_path p) in
            if str_in expanded (protected_paths config) then
              mkProtectionConfig (list_remove_first expanded (protected_paths config))
                                 (protected_categories config)
            else config
      | None => config
      end in
    let config :=
      match category_id with
      | Some c =>
          if negb (String.eqb c "") && str_in c (protected_categories config) then
            mkProtectionConfig (protected_paths config)
                               (list_remove_first c (protected_categories config))
          else config
      | None => config
      end in
    let (d', saved) := _save_config d config in
    if saved then (protection_saved config, d')
    else ([("success", PyBool false); ("error", PyStr "Failed to save config")], d').

(* --------------------------------------------------------------------- *)
(** *** cleaner.py: [is_inside_allowed_path], [clean_safe_items],
        [delete_node_modules_project] *)

Definition is_inside_allowed_path (path : Path) (category_id : string) : bool :=
  match get_category registry category_id with
  | None => false
  | Some category =>
      let path_str := str path in
      existsb (fun allowed_path => startswith (str (expand_path allowed_path)) path_str)
              (c_paths category)
  end.

(** Body of [for i, item in enumerate(safe_items)]; an [IndexError] of
    [clean_category] ends the call. *)
Definition clean_item (dry_run : bool) (st : outcome (list CleanupResult) * World)
    (item : ScanResult) : outcome (list CleanupResult) * World :=
  match st with
  | (Return results, w) =>
      match clean_category registry w (sr_category_id item) dry_run with
      | (Return result, w') => (Return (results ++ [result]), w')
      | (IndexError, w') => (IndexError, w')
      end
  | (IndexError, _) => st
  end.

Definition clean_safe_items (w : World) (scan_results : list ScanResult) (dry_run : bool)
    : outcome (list CleanupResult) * World :=
  let safe_items :=
    List.filter (fun r => RiskLevel_eqb (sr_risk_level r) SAFE && (sr_size_bytes r >? 0))
                scan_results in
  fold_left (clean_item dry_run) safe_items (Return [], w).

Definition delete_node_modules_project (w : World) (project_path : string)
    (dry_run : bool) : pydict * World :=
  let path := expand_path project_path in
  let node_modules :=
    if negb (String.eqb (Path_name path) "node_modules") then path // "node_modules"
    else path in
  if negb (path_exists (disk w) node_modules) then
    ([("success", PyBool false);
      ("error", PyStr ("node_modules not found at " +:+ str node_modules))], w)
  else
    let '((size, files, _), w1) := get_directory_size w node_modules in
    if dry_run then
      ([("success", PyBool true); ("dry_run", PyBool true);
        ("path", PyStr (str node_modules));
        ("bytes_freed", PyInt size); ("files_deleted", PyInt files)], w1)
    else
      let (d2, raised) := shutil_rmtree (disk w1) node_modules in
      match raised with
      | None =>
          ([("success", PyBool true); ("path", PyStr (str node_modules));
            ("bytes_freed", PyInt size); ("files_deleted", PyInt files)], set_disk w1 d2)
      | Some (PermissionError msg) =>
          ([("success", PyBool false);
            ("error", PyStr ("Permission denied: " +:+ msg))], set_disk w1 d2)
      | Some (OSError msg) =>
          ([("success", PyBool false); ("error", PyStr msg)], set_disk w1 d2)
      end.

End Tools.

(* ===================================================================== *)
(** ** Vocabulary for the invariants of the scans *)
(* ===================================================================== *)

(** What every result of [scan_recursive_category] for [category] looks
    like. *)
Definition found_for (category : Category) (r : ScanResult) : Prop :=
  sr_category_id r = c_id category
  /\ sr_category_name r = c_name category
  /\ sr_risk_level r = c_risk_level category
  /\ sr_exists r = true
  /\ sr_error r = None
  /\ c_min_size_bytes category <= sr_size_bytes r.

(** The invariant of the loops of [scan_recursive_category] started on the
    disk [d0]: the disk is [d0], the results are as above, no path occurs
    twice, and every path of a result has been seen. *)
Definition scan_invariant `{os : OS} (category : Category) (d0 : Disk)
    (st : list ScanResult * gset string * World) : Prop :=
  disk (snd st) = d0
  /\ Forall (found_for category) (fst (fst st))
  /\ NoDup (map sr_path (fst (fst st)))
  /\ (forall r, In r (fst (fst st)) -> sr_path r ∈ snd (fst st)).

(* ===================================================================== *)
(** ** A concrete operating system: a directory tree *)
(* ===================================================================== *)

(** A small POSIX-like disk used to run the package on examples: regular
    files with a size, directories with read and write permission bits,
    symbolic links and special files (never followed, never listed). *)
#[warnings="-register-all"]
Inductive node :=
| File (st_size : Z)
| Dir (readable writable : bool) (children : list (string * node))
| Symlink
| Special.

Definition child (name : string) (children : list (string * node)) : option node :=
  dict_get children name.

Fixpoint lookup (n : node) (names : list string) : option node :=
  match names with
  | [] => Some n
  | c :: names' =>
      match n with
      | Dir _ _ children =>
          match child c children with
          | Some n' => lookup n' names'
          | None => None
          end
      | _ => None
      end
  end.

(** Only absolute paths are resolved. *)
Definition resolve (d : node) (p : Path) : option node :=
  if String.eqb (root p) "/" then lookup d (tail p) else None.

Definition ENOENT : oserror := OSError "[Errno 2] No such file or directory".
Definition ENOTDIR : oserror := OSError "[Errno 20] Not a directory".
Definition EACCES : oserror := PermissionError "[Errno 13] Permission denied".
Definition EBUSY : oserror := OSError "[Errno 16] Resource busy".

Definition tree_entry (kv : string * node) : DirEntry :=
  let (name, n) := kv in
  mkDirEntry name
    (Ok (match n with File _ => true | _ => false end))
    (Ok (match n with Dir _ _ _ => true | _ => false end))
    (match n with File size => Ok size | Dir _ _ _ => Ok 64 | _ => Raise ENOENT end).

Definition tree_scandir (d : node) (p : Path) : result (list DirEntry) :=
  match resolve d p with
  | Some (Dir true _ children) => Ok (map tree_entry children)
  | Some (Dir false _ _) => Raise EACCES
  | Some _ => Raise ENOTDIR
  | None => Raise ENOENT
  end.

(** Removal of the entry named by [names]: allowed when its parent
    directory is writable. *)
Fixpoint tree_remove (n : node) (names : list string) : node * option oserror :=
  match names with
  | [] => (n, Some EBUSY)
  | c :: names' =>
      match n with
      | Dir r wr children =>
          match child c children with
          | None => (n, Some ENOENT)
          | Some n' =>
              match names' with
              | [] =>
                  if wr then
                    (Dir r wr (List.filter (fun kv => negb (String.eqb (fst kv) c)) children),
                     None)
                  else (n, Some EACCES)
              | _ :: _ =>
                  let (n'', e) := tree_remove n' names' in
                  (Dir r wr (map (fun kv => if String.eqb (fst kv) c then (c, n'') else kv)
                                 children), e)
              end
          end
      | _ => (n, Some ENOTDIR)
      end
  end.

Definition tree_delete (d : node) (p : Path) : node * option oserror :=
  if String.eqb (root p) "/" then tree_remove d (tail p) else (d, Some ENOENT).

(** The user is [ada]; no other account, no shell tools installed (every
    command exits with 127); each reading of the clock is one second later
    than the one before. *)
Definition TreeOS : OS := {|
  Disk := node;
  Clock := Z;
  environ_HOME := "/Users/ada";
  pw_dir := fun _ => None;
  substitute_vars := fun s => s;
  path_exists := fun d p => match resolve d p with Some _ => true | None => false end;
  path_is_file := fun d p => match resolve d p with Some (File _) => true | _ => false end;
  path_is_dir := fun d p => match resolve d p with Some (Dir _ _ _) => true | _ => false end;
  path_st_size := fun d p =>
    match resolve d p with
    | Some (File size) => Ok size
    | Some _ => Ok 64
    | None => Raise ENOENT
    end;
  scandir := tree_scandir;
  path_unlink := tree_delete;
  shutil_rmtree := tree_delete;
  subprocess_run := fun d _ => (d, Completed 127 "sh: command not found");
  time_time := fun c => (float_of_int c, c + 1)
|}.

(** [mkdir -p names] around one node. *)
Definition nest (names : list string) (leaf : node) : node :=
  fold_right (fun name n => Dir true true [(name, n)]) leaf names.

(** ada's home with an npm cache holding one 6-byte file. *)
Definition disk_npm : node :=
  nest ["Users"; "ada"; ".npm"; "_cacache"] (Dir true true [("test.txt", File 6)]).

(** ada's home with the npm cache above next to a [Documents] folder. *)
Definition disk_documents : node :=
  nest ["Users"; "ada"]
    (Dir true true
       [(".npm", Dir true true [("_cacache", Dir true true [("test.txt", File 6)])]);
        ("Documents", Dir true true [("notes.txt", File 9)])]).

(** A 6-byte file in a directory that is not writable. *)
Definition disk_readonly : node :=
  Dir true true [("srv", Dir true false [("data.bin", File 6)])].

(** Twenty-one directories inside one another under [/d], the innermost one
    holding a 5-byte file. *)
Definition disk_deep : node :=
  Dir true true [("d", nest (repeat "n" 21) (Dir true true [("f", File 5)]))].

(** A project with a [node_modules] that vendors another [node_modules],
    next to a second project. *)
Definition disk_projects : node :=
  nest ["Users"; "ada"; "Code"]
    (Dir true true
       [("app", Dir true true
           [("node_modules", Dir true true
               [("dep", Dir true true
                   [("node_modules", Dir true true [("x.js", File 3)])])]);
            ("src", Dir true true [("main.js", File 7)])]);
        ("lib", Dir true true
           [("node_modules", Dir true true [("y.js", File 4)])])]).

(** A [node_modules] twenty levels below [/tmp]. *)
Definition disk_levels : node :=
  Dir true true
    [("tmp", nest (repeat "level" 20) (Dir true true [("node_modules", Dir true true [])]))].

Definition world0 (d : node) : @World TreeOS := @mkWorld TreeOS d 1000 ∅.

(** [format_gib] for the examples: whole gibibytes with a [.0]. *)
Definition show_gib (n : Z) : string :=
  (if n / 1024 ^ 3 <? 100 then "<100" else ">=100") +:+ ".0".


(* ===================================================================== *)
(** ** Proof automation *)
(* ===================================================================== *)

(** Equations between explicit size triples, by arithmetic on each counter. *)
Ltac counts :=
  unfold counts_add, bytes_of, files_of, dirs_of, total;
  cbn -[Z.add Z.of_nat];
  apply f_equal2; [apply f_equal2|]; lia.

(* ===================================================================== *)
(** * Properties *)
(* ===================================================================== *)

(** ** Strings and paths *)

Lemma split_sep_nonempty (s : string) : split_sep s <> [].
Proof.
  destruct s as [|c s]; simpl; [discriminate|].
  destruct (is_sep c); [discriminate|].
  destruct (split_sep s); discriminate.
Qed.

Lemma split_sep_app (a b : string) :
  split_sep (a +:+ String "/" b) = split_sep a ++ split_sep b.
Proof.
  induction a as [|c a IH]; simpl.
  - reflexivity.
  - destruct (is_sep c).
    + now rewrite IH.
    + rewrite IH. pose proof (split_sep_nonempty a).
      destruct (split_sep a); [contradiction|reflexivity].
Qed.

Lemma components_app (a b : string) :
  components (a +:+ String "/" b) = components a ++ components b.
Proof. unfold components. now rewrite split_sep_app, List.filter_app. Qed.

Lemma split_sep_plain (x : string) :
  str_contains_char "/" x = false -> split_sep x = [x].
Proof.
  induction x as [|c x IH]; simpl; [reflexivity|].
  unfold is_sep. intros H. apply orb_false_iff in H as [-> H].
  now rewrite IH.
Qed.

Lemma split_sep_pieces (s : string) :
  Forall (fun x => str_contains_char "/" x = false) (split_sep s).
Proof.
  induction s as [|c s IH]; simpl.
  - now constructor.
  - destruct (is_sep c) eqn:E.
    + now constructor.
    + destruct (split_sep s) as [|w ws]; inversion IH; subst;
        constructor; simpl; auto.
      * unfold is_sep in E. now rewrite E.
      * unfold is_sep in E. now rewrite E.
Qed.

Lemma append_nonempty (a : string) (c : ascii) (b : string) :
  String.eqb (a +:+ String c b) "" = false.
Proof. destruct a; reflexivity. Qed.

Lemma rstrip_sep_idem (s : string) : rstrip_sep (rstrip_sep s) = rstrip_sep s.
Proof.
  induction s as [|c s IH]; simpl; [reflexivity|].
  destruct (is_sep c && String.eqb (rstrip_sep s) "") eqn:E; simpl.
  - reflexivity.
  - now rewrite IH, E.
Qed.

Lemma components_wf (s : string) : Forall wf_component (components s).
Proof.
  unfold components. pose proof (split_sep_pieces s) as H.
  induction H as [|x l Hx _ IH]; simpl; [constructor|].
  destruct (keep_component x) eqn:E; [constructor; [split|]|]; assumption.
Qed.

Lemma splitroot_root (s : string) :
  fst (splitroot s) = "" \/ fst (splitroot s) = "/" \/ fst (splitroot s) = "//".
Proof.
  destruct s as [|c0 [|c1 [|c2 s]]]; simpl; auto;
    repeat (match goal with |- context [is_sep ?c] => destruct (is_sep c) end; simpl; auto).
Qed.

Lemma Path_of_str_wf (s : string) : wf_path (Path_of_str s).
Proof.
  unfold Path_of_str. pose proof (splitroot_root s) as H.
  destruct (splitroot s) as [r rel]. split; simpl in *; [assumption|apply components_wf].
Qed.

Lemma wf_component_head (x : string) :
  wf_component x -> exists c x', x = String c x' /\ is_sep c = false.
Proof.
  intros [Hk Hs]. destruct x as [|c x']; [discriminate|].
  exists c, x'. split; [reflexivity|].
  simpl in Hs. apply orb_false_iff in Hs as [Hs _]. exact Hs.
Qed.

Lemma components_plain (x : string) : wf_component x -> components x = [x].
Proof.
  intros [Hk Hs]. unfold components. rewrite split_sep_plain by assumption.
  simpl. now rewrite Hk.
Qed.

Lemma components_join (l : list string) :
  Forall wf_component l -> components (str_join "/" l) = l.
Proof.
  induction 1 as [|x l Hx Hl IH]; [reflexivity|].
  destruct l as [|y l].
  - simpl. now apply components_plain.
  - change (str_join "/" (x :: y :: l)) with (x +:+ String "/" (str_join "/" (y :: l))).
    rewrite components_app, IH, components_plain by assumption. reflexivity.
Qed.

Lemma str_join_head (x : string) (l : list string) :
  wf_component x ->
  exists c s, str_join "/" (x :: l) = String c s /\ is_sep c = false.
Proof.
  intros Hx. destruct (wf_component_head x Hx) as (c & x' & -> & Hc).
  destruct l as [|y l]; simpl; eauto.
Qed.

Lemma Path_of_str_str (p : Path) : wf_path p -> Path_of_str (str p) = p.
Proof.
  destruct p as [r tl]. intros [Hr Htl]; simpl in *.
  unfold str; simpl.
  destruct tl as [|x tl].
  - destruct Hr as [->|[->| ->]]; reflexivity.
  - pose proof (components_join (x :: tl) Htl) as Hc.
    inversion Htl as [|? ? Hx _]; subst.
    destruct (str_join_head x tl Hx) as (c & s & Hj & Hsep).
    rewrite Hj in *.
    destruct Hr as [->|[->| ->]]; simpl; unfold Path_of_str; simpl;
      rewrite ?Hsep; simpl; change ("" +:+ String c s) with (String c s);
      now rewrite Hc.
Qed.

Lemma str_inj (p q : Path) : wf_path p -> wf_path q -> str p = str q -> p = q.
Proof.
  intros Hp Hq E.
  rewrite <- (Path_of_str_str p Hp), <- (Path_of_str_str q Hq). now rewrite E.
Qed.

Lemma str_neq_eqb (p q : Path) :
  wf_path p -> wf_path q -> p <> q -> String.eqb (str p) (str q) = false.
Proof.
  intros Hp Hq Hne. apply String.eqb_neq. intros E. apply Hne. now apply str_inj.
Qed.

(** ** cleaner.py: [is_path_safe] *)

Section PathSafety.
Context `{os : OS}.

Lemma append_empty_r (s : string) : s +:+ "" = s.
Proof.
  induction s as [|c s IH]; [reflexivity|].
  change (String c s +:+ "") with (String c (s +:+ "")). now rewrite IH.
Qed.

Lemma Path_home_unfold :
  Path_home =
  Path_of_str (if String.eqb (rstrip_sep environ_HOME) "" then "/"
               else rstrip_sep environ_HOME).
Proof. unfold Path_home, expanduser. simpl. now rewrite append_empty_r. Qed.

Lemma Path_home_wf : wf_path Path_home.
Proof. apply Path_of_str_wf. Qed.

Lemma expand_path_wf (s : string) : wf_path (expand_path s).
Proof. apply Path_of_str_wf. Qed.

(** Parsing [h/y] for a home string [h] without trailing separators: the
    path of [h] (of ["/"] when [h] is empty) extended by the components
    of [y]. *)
Lemma Path_of_str_below (h : string) (c : ascii) (y : string) :
  rstrip_sep h = h -> is_sep c = false ->
  Path_of_str (h +:+ String "/" (String c y)) =
  let H := Path_of_str (if String.eqb h "" then "/" else h) in
  mkPath (root H) (tail H ++ components (String c y)).
Proof.
  intros Hh Hc.
  destruct h as [|c0 h1].
  { simpl. unfold Path_of_str. simpl. rewrite Hc. reflexivity. }
  change (String.eqb (String c0 h1) "") with false. cbv iota.
  unfold Path_of_str.
  destruct (is_sep c0) eqn:E0.
  2:{ simpl. rewrite E0. simpl.
      change (String c0 (h1 +:+ String "/" (String c y)))
        with (String c0 h1 +:+ String "/" (String c y)).
      now rewrite components_app. }
  destruct h1 as [|c1 h2].
  { simpl in Hh. rewrite E0 in Hh. discriminate. }
  destruct (is_sep c1) eqn:E1.
  2:{ simpl. rewrite E0, E1. simpl.
      change (String c1 (h2 +:+ String "/" (String c y)))
        with (String c1 h2 +:+ String "/" (String c y)).
      now rewrite components_app. }
  destruct h2 as [|c2 h3].
  { simpl in Hh. rewrite E0, E1 in Hh. discriminate. }
  simpl. rewrite E0, E1. simpl.
  destruct (is_sep c2) eqn:E2; simpl.
  - change (String c1 (String c2 (h3 +:+ String "/" (String c y))))
      with (String c1 (String c2 h3) +:+ String "/" (String c y)).
    now rewrite components_app.
  - change (String c2 (h3 +:+ String "/" (String c y)))
      with (String c2 h3 +:+ String "/" (String c y)).
    now rewrite components_app.
Qed.

(** [expand_path("~/y")] is the home path extended by the components of [y]. *)
Lemma expand_path_home_rel (c : ascii) (y : string) :
  is_sep c = false ->
  str_contains_char "$" (String c y) = false ->
  expand_path (String "~" (String "/" (String c y))) =
  mkPath (root Path_home) (tail Path_home ++ components (String c y)).
Proof.
  intros Hc Hd. unfold expand_path, expandvars.
  change (str_contains_char "$" (String "~" (String "/" (String c y))))
    with (str_contains_char "$" (String c y)).
  rewrite Hd. cbv [negb]. cbv iota.
  unfold expanduser. simpl.
  rewrite append_nonempty.
  rewrite Path_of_str_below by (auto using rstrip_sep_idem).
  now rewrite Path_home_unfold.
Qed.

Lemma expand_path_tilde : expand_path "~" = Path_home.
Proof. reflexivity. Qed.

(** Nothing on the deny-list lies two or more levels below the home
    directory under [Library/Caches]. *)
Lemma blocked_not_under_caches (rest : list string) (b : string) :
  In b BLOCKED_PATHS ->
  expand_path b <>
  mkPath (root Path_home) (tail Path_home ++ "Library" :: "Caches" :: rest).
Proof.
  unfold BLOCKED_PATHS. intros Hb E.
  repeat (destruct Hb as [<-|Hb]);
    try (rewrite expand_path_home_rel in E by reflexivity;
         injection E as E; apply app_inv_head in E; discriminate);
    try contradiction;
    try (rewrite expand_path_tilde in E;
         apply (f_equal tail) in E; apply (f_equal (@List.length string)) in E;
         cbn [tail] in E; rewrite List.length_app in E; simpl in E; lia);
    match type of E with
    | expand_path ?b = _ =>
        let v := eval cbv in (expand_path b) in change (expand_path b) with v in E
    end;
    apply (f_equal tail) in E; apply (f_equal (@List.length string)) in E;
    cbn [tail] in E; rewrite List.length_app in E; simpl in E; lia.
Qed.

Lemma hits_blocked_eq (path_str blocked : string) :
  hits_blocked path_str blocked = String.eqb path_str (str (expand_path blocked)).
Proof.
  unfold hits_blocked. destruct (String.eqb path_str (str (expand_path blocked))); simpl;
    [reflexivity|apply andb_false_r].
Qed.

(** C3. [is_path_safe] rejects exactly the paths whose string equals an
    expanded deny-list entry or the home directory: the home directory is
    rejected for every user, and every expansion of a path below
    [~/Library/Caches] is accepted. *)
Theorem is_path_safe_exact_match_only :
  (forall path,
     is_path_safe path = false <->
     (exists b, In b BLOCKED_PATHS /\ str path = str (expand_path b))
     \/ str path = str Path_home)
  /\ is_path_safe Path_home = false
  /\ (forall x, str_contains_char "$" x = false ->
       is_path_safe (expand_path ("~/Library/Caches/" +:+ x)) = true).
Proof.
  assert (Hchar : forall path,
     is_path_safe path = false <->
     (exists b, In b BLOCKED_PATHS /\ str path = str (expand_path b))
     \/ str path = str Path_home).
  { intros path. unfold is_path_safe.
    destruct (existsb (hits_blocked (str path)) BLOCKED_PATHS) eqn:E.
    - split; [intros _|reflexivity]. left.
      apply List.existsb_exists in E as (b & Hb & Hh).
      rewrite hits_blocked_eq in Hh. apply String.eqb_eq in Hh. eauto.
    - destruct (String.eqb (str path) (str Path_home)) eqn:Eh.
      + split; [intros _|reflexivity]. right. now apply String.eqb_eq.
      + split; [discriminate|]. intros [(b & Hb & Hs)|Hs].
        * assert (existsb (hits_blocked (str path)) BLOCKED_PATHS = true) as Hex.
          { apply List.existsb_exists. exists b. split; [assumption|].
            rewrite hits_blocked_eq. now apply String.eqb_eq. }
          congruence.
        * apply String.eqb_eq in Hs. congruence. }
  split; [exact Hchar|]. split.
  - apply Hchar. now right.
  - intros x Hx.
    assert (E : expand_path ("~/Library/Caches/" +:+ x) =
                mkPath (root Path_home)
                       (tail Path_home ++ "Library" :: "Caches" :: components x)).
    { change ("~/Library/Caches/" +:+ x)
        with (String "~" (String "/" (String "L" ("ibrary/Caches/" +:+ x)))).
      rewrite expand_path_home_rel by (simpl; auto).
      change (String "L" ("ibrary/Caches/" +:+ x))
        with ("Library" +:+ String "/" ("Caches" +:+ String "/" x)).
      now rewrite !components_app. }
    destruct (is_path_safe (expand_path ("~/Library/Caches/" +:+ x))) eqn:S;
      [reflexivity|exfalso].
    apply Hchar in S as [(b & Hb & Hs)|Hs].
    + apply str_inj in Hs; try apply expand_path_wf.
      rewrite E in Hs. symmetry in Hs. revert Hs. now apply blocked_not_under_caches.
    + apply str_inj in Hs; [|apply expand_path_wf|apply Path_home_wf].
      rewrite E in Hs.
      apply (f_equal tail) in Hs. apply (f_equal (@List.length string)) in Hs.
      cbn [tail] in Hs. rewrite List.length_app in Hs. simpl in Hs. lia.
Qed.

End PathSafety.

(** For [ada]: her home directory is refused, a directory of her cache is
    accepted. *)
Lemma is_path_safe_witness :
  str_contains_char "$" "test-app" = false
  /\ @is_path_safe TreeOS (@expand_path TreeOS "~/Library/Caches/test-app") = true.
Proof.
  split; [reflexivity|].
  apply (proj2 (proj2 (@is_path_safe_exact_match_only TreeOS))). reflexivity.
Defined.


(** ** cleaner.py: [validate_cleanup_request] *)

Section Validation.
Variable registry : list (string * Category).
Variable format_gib : Z -> string.

Lemma find_unknown_none (ids : list string) :
  List.find (fun cat_id => negb (dict_mem registry cat_id)) ids = None <->
  Forall (fun cat_id => dict_mem registry cat_id = true) ids.
Proof.
  induction ids as [|x ids IH]; simpl.
  - split; [constructor|reflexivity].
  - destruct (dict_mem registry x) eqn:E; simpl.
    + rewrite IH. split; [now constructor|now inversion 1].
    + split; [discriminate|]. inversion 1; congruence.
Qed.

Lemma validate_accepts_iff (ids : list string) (total_bytes : Z) :
  fst (validate_cleanup_request registry format_gib ids total_bytes) = true <->
  total_bytes <= 100 * 1024 ^ 3
  /\ Forall (fun cat_id => dict_mem registry cat_id = true) ids.
Proof.
  unfold validate_cleanup_request, MAX_CLEANUP_BYTES.
  destruct (Z.gtb_spec total_bytes (100 * 1024 ^ 3)) as [Hgt|Hle]; simpl.
  - split; [discriminate|]. intros [H _]. lia.
  - rewrite <- find_unknown_none.
    destruct (List.find _ ids); simpl; split; try discriminate; intuition congruence.
Qed.

(** C1. The request is refused, with a message, when [total_bytes] is above
    100 * 1024^3 or when some id is not in the registry; it is accepted, with
    no message, when [total_bytes] is at most 100 * 1024^3 and every id is
    known; reordering the ids does not change the verdict. *)
Theorem validate_cleanup_request_verdict :
  (forall ids total_bytes,
     total_bytes > 100 * 1024 ^ 3 ->
     exists msg,
       validate_cleanup_request registry format_gib ids total_bytes = (false, Some msg))
  /\ (forall ids total_bytes cat_id,
        In cat_id ids -> dict_mem registry cat_id = false ->
        exists msg,
          validate_cleanup_request registry format_gib ids total_bytes = (false, Some msg))
  /\ (forall ids total_bytes,
        total_bytes <= 100 * 1024 ^ 3 ->
        Forall (fun cat_id => dict_mem registry cat_id = true) ids ->
        validate_cleanup_request registry format_gib ids total_bytes = (true, None))
  /\ (forall ids ids' total_bytes,
        Permutation ids ids' ->
        fst (validate_cleanup_request registry format_gib ids total_bytes)
        = fst (validate_cleanup_request registry format_gib ids' total_bytes)).
Proof.
  repeat split.
  - intros ids total_bytes Hgt. unfold validate_cleanup_request, MAX_CLEANUP_BYTES.
    destruct (Z.gtb_spec total_bytes (100 * 1024 ^ 3)); [eauto|lia].
  - intros ids total_bytes cat_id Hin Hunk.
    unfold validate_cleanup_request.
    destruct (total_bytes >? MAX_CLEANUP_BYTES); [eauto|].
    destruct (List.find _ ids) eqn:E; [eauto|].
    apply find_unknown_none in E. rewrite List.Forall_forall in E.
    specialize (E _ Hin). congruence.
  - intros ids total_bytes Hle Hall.
    unfold validate_cleanup_request, MAX_CLEANUP_BYTES.
    destruct (Z.gtb_spec total_bytes (100 * 1024 ^ 3)); [lia|].
    apply find_unknown_none in Hall. now rewrite Hall.
  - intros ids ids' total_bytes Hperm.
    destruct (fst (validate_cleanup_request registry format_gib ids total_bytes)) eqn:E1,
             (fst (validate_cleanup_request registry format_gib ids' total_bytes)) eqn:E2;
      try reflexivity.
    + apply validate_accepts_iff in E1 as [Hle Hall].
      assert (fst (validate_cleanup_request registry format_gib ids' total_bytes) = true);
        [|congruence].
      apply validate_accepts_iff. split; [assumption|].
      rewrite List.Forall_forall in *. intros x Hx. apply Hall.
      now apply (Permutation_in _ (Permutation_sym Hperm)).
    + apply validate_accepts_iff in E2 as [Hle Hall].
      assert (fst (validate_cleanup_request registry format_gib ids total_bytes) = true);
        [|congruence].
      apply validate_accepts_iff. split; [assumption|].
      rewrite List.Forall_forall in *. intros x Hx. apply Hall.
      now apply (Permutation_in _ Hperm).
Qed.

End Validation.

(** A request of exactly 100 * 1000^3 bytes for a known category passes. *)
Lemma validate_cleanup_request_decimal_ceiling :
  100 * 1000 ^ 3 >= 100 * 1000 ^ 3
  /\ validate_cleanup_request CATEGORIES show_gib ["npm_cache"] (100 * 1000 ^ 3)
     = (true, None).
Proof. split; [lia|reflexivity]. Defined.

Lemma validate_cleanup_request_witness :
  (100 * 1024 ^ 3 + 1 > 100 * 1024 ^ 3
   /\ exists msg, validate_cleanup_request CATEGORIES show_gib ["npm_cache"]
                    (100 * 1024 ^ 3 + 1) = (false, Some msg))
  /\ (In "nonexistent_category" ["pip_cache"; "nonexistent_category"]
      /\ dict_mem CATEGORIES "nonexistent_category" = false
      /\ exists msg, validate_cleanup_request CATEGORIES show_gib
                       ["pip_cache"; "nonexistent_category"] 1024 = (false, Some msg))
  /\ (Permutation ["npm_cache"; "nonexistent_category"] ["nonexistent_category"; "npm_cache"]
      /\ fst (validate_cleanup_request CATEGORIES show_gib
                ["npm_cache"; "nonexistent_category"] 1024)
         = fst (validate_cleanup_request CATEGORIES show_gib
                  ["nonexistent_category"; "npm_cache"] 1024)).
Proof.
  pose proof (validate_cleanup_request_verdict CATEGORIES show_gib) as (H1 & H2 & _ & H4).
  split; [|split].
  - split; [lia|]. apply H1. lia.
  - assert (Hin : In "nonexistent_category" ["pip_cache"; "nonexistent_category"])
      by (simpl; auto).
    split; [exact Hin|]. split; [reflexivity|].
    apply (H2 _ _ "nonexistent_category"); [exact Hin|reflexivity].
  - assert (Hp : Permutation ["npm_cache"; "nonexistent_category"]
                             ["nonexistent_category"; "npm_cache"])
      by apply perm_swap.
    split; [exact Hp|]. now apply H4.
Defined.

(** ** scanner.py: [aggregate_category_results] *)

Lemma fold_left_add_shift (l : list Z) (a : Z) :
  fold_left Z.add l a = a + fold_left Z.add l 0.
Proof.
  revert a. induction l as [|x l IH]; intros a; simpl; [lia|].
  rewrite (IH (a + x)), (IH (0 + x)). lia.
Qed.

Lemma sum_Z_cons (x : Z) (l : list Z) : sum_Z (x :: l) = x + sum_Z l.
Proof. unfold sum_Z. simpl. now rewrite fold_left_add_shift. Qed.

Lemma sum_Z_fold_right (l : list Z) : sum_Z l = fold_right Z.add 0 l.
Proof.
  induction l as [|x l IH]; [reflexivity|].
  rewrite sum_Z_cons, IH. reflexivity.
Qed.

Lemma truthy_errors_spec (results : list ScanResult) :
  truthy_errors results =
  List.filter (fun e => negb (String.eqb e "")) (omap sr_error results).
Proof.
  induction results as [|r results IH]; [reflexivity|].
  unfold truthy_errors in *. simpl. rewrite IH.
  destruct (sr_error r) as [e|]; simpl; [|reflexivity].
  destruct (String.eqb e ""); reflexivity.
Qed.

Lemma first_positive_path (results : list ScanResult) (default : string) :
  Forall (fun r => 0 <= sr_size_bytes r) results ->
  match map sr_path (List.filter (fun r => sr_exists r && (sr_size_bytes r >? 0)) results) with
  | p :: _ => p
  | [] => default
  end =
  match List.find (fun r => sr_exists r && negb (sr_size_bytes r =? 0)) results with
  | Some r => sr_path r
  | None => default
  end.
Proof.
  induction 1 as [|r results Hr _ IH]; [reflexivity|]. simpl.
  assert ((sr_size_bytes r >? 0) = negb (sr_size_bytes r =? 0)) as ->.
  { destruct (Z.gtb_spec (sr_size_bytes r) 0), (Z.eqb_spec (sr_size_bytes r) 0);
      simpl; auto; lia. }
  destruct (sr_exists r && negb (sr_size_bytes r =? 0)); [reflexivity|exact IH].
Qed.

(** C7. [aggregate_category_results]: nothing for no results; the totals of
    the single result for one; and for any non-empty list of results the sums
    of the sizes and counts, [exists] exactly when some input exists, the
    non-empty errors joined by ["; "] (no error when there is none) and, sizes
    being non-negative as the data model has them, the path of the first
    input that exists with a non-zero size (else of the first input). *)
Theorem aggregate_category_results_spec :
  aggregate_category_results [] = None
  /\ (forall single,
        exists agg, aggregate_category_results [single] = Some agg
          /\ sr_size_bytes agg = sr_size_bytes single
          /\ sr_file_count agg = sr_file_count single
          /\ sr_dir_count agg = sr_dir_count single)
  /\ (forall first rest,
        exists agg, aggregate_category_results (first :: rest) = Some agg
          /\ sr_size_bytes agg = fold_right Z.add 0 (map sr_size_bytes (first :: rest))
          /\ sr_file_count agg = fold_right Z.add 0 (map sr_file_count (first :: rest))
          /\ sr_dir_count agg = fold_right Z.add 0 (map sr_dir_count (first :: rest))
          /\ (sr_exists agg = true <-> exists r, In r (first :: rest) /\ sr_exists r = true)
          /\ (Forall (fun r => 0 <= sr_size_bytes r) (first :: rest) ->
              sr_path agg =
              match List.find (fun r => sr_exists r && negb (sr_size_bytes r =? 0))
                              (first :: rest) with
              | Some r => sr_path r
              | None => sr_path first
              end)
          /\ sr_error agg =
             match List.filter (fun e => negb (String.eqb e ""))
                               (omap sr_error (first :: rest)) with
             | [] => None
             | errors => Some (str_join "; " errors)
             end).
Proof.
  split; [reflexivity|]. split.
  - intros single. eexists. split; [reflexivity|]. cbn [sr_size_bytes sr_file_count sr_dir_count].
    unfold sum_Z. simpl. auto.
  - intros first rest. eexists. split; [reflexivity|].
    cbn [sr_size_bytes sr_file_count sr_dir_count sr_exists sr_path sr_error].
    rewrite !sum_Z_fold_right, truthy_errors_spec.
    repeat split.
    + intros H. apply List.existsb_exists in H. exact H.
    + intros H. apply List.existsb_exists. exact H.
    + intros Hpos. now apply (first_positive_path (first :: rest)).
    + destruct (List.filter _ _); reflexivity.
Qed.

Lemma aggregate_category_results_witness :
  let a := mkScanResult "pip_cache" "Pip Cache" "/Users/ada/Library/Caches/pip"
             0 0 0 SAFE false None in
  let b := mkScanResult "pip_cache" "Pip Cache" "/Users/ada/.cache/pip"
             2000 3 1 SAFE true (Some "unreadable entry") in
  Forall (fun r => 0 <= sr_size_bytes r) [a; b]
  /\ exists agg, aggregate_category_results [a; b] = Some agg
       /\ sr_size_bytes agg = 2000 /\ sr_path agg = "/Users/ada/.cache/pip"
       /\ sr_exists agg = true /\ sr_error agg = Some "unreadable entry".
Proof.
  intros a b.
  assert (Hpos : Forall (fun r => 0 <= sr_size_bytes r) [a; b])
    by (repeat constructor; simpl; lia).
  split; [exact Hpos|].
  destruct (proj2 (proj2 aggregate_category_results_spec) a [b])
    as (agg & Hagg & Hsize & _ & _ & Hex & Hpath & Herr).
  exists agg. split; [exact Hagg|].
  split; [exact Hsize|]. split; [exact (Hpath Hpos)|].
  split; [|exact Herr].
  apply Hex. exists b. split; [simpl; auto|reflexivity].
Defined.

(** ** cleaner.py: [delete_path] and [clean_category] *)

Section Cleaning.
Context `{os : OS}.
Variable registry : list (string * Category).

Lemma get_directory_size_cached_disk (w : World) (path : Path) (max_depth : Z) :
  disk (snd (get_directory_size_cached w path max_depth)) = disk w.
Proof.
  unfold get_directory_size_cached.
  destruct (time_time (clock w)) as [now clk].
  destruct (get_directory_size_fast (disk w) path max_depth) as [[size files] dirs].
  destruct (_size_cache w !! str path) as [[[[s f] d] t]|]; [|reflexivity].
  destruct (PrimFloat.ltb _ _); reflexivity.
Qed.

Lemma delete_path_dry_run_disk (w : World) (path : Path) :
  disk (snd (delete_path w path true)) = disk w.
Proof.
  unfold delete_path.
  destruct (path_exists (disk w) path); [|reflexivity]. cbn [negb].
  destruct (path_is_file (disk w) path).
  - destruct (path_st_size (disk w) path); reflexivity.
  - pose proof (get_directory_size_cached_disk w path 20) as H.
    unfold get_directory_size.
    destruct (get_directory_size_cached w path 20) as [[[size files] dirs] w1].
    exact H.
Qed.

Lemma clean_path_dry_run_disk (st : clean_state) (path_str : string) :
  disk (snd (clean_path true st path_str)) = disk (snd st).
Proof.
  destruct st as [[[[tb tf] errs] cleaned] w]. unfold clean_path. cbn [snd].
  destruct (path_exists (disk w) (expand_path path_str)); [|reflexivity]. cbn [negb].
  destruct (is_path_safe (expand_path path_str)); [|reflexivity]. cbn [negb].
  pose proof (delete_path_dry_run_disk w (expand_path path_str)) as H.
  destruct (delete_path w (expand_path path_str) true) as [[[b f] e] w'].
  destruct e as [e|]; [destruct (String.eqb e "")|]; exact H.
Qed.

Lemma clean_loop_dry_run_disk (paths : list string) (st : clean_state) :
  disk (snd (fold_left (clean_path true) paths st)) = disk (snd st).
Proof.
  revert st. induction paths as [|p paths IH]; intros st; [reflexivity|].
  simpl. rewrite IH. apply clean_path_dry_run_disk.
Qed.

Lemma clean_path_missing (dry_run : bool) (st : clean_state) (path_str : string) :
  path_exists (disk (snd st)) (expand_path path_str) = false ->
  clean_path dry_run st path_str = st.
Proof.
  destruct st as [[[[tb tf] errs] cleaned] w]. unfold clean_path. cbn [snd].
  now intros ->.
Qed.

Lemma clean_loop_missing (dry_run : bool) (paths : list string) (st : clean_state) :
  Forall (fun p => path_exists (disk (snd st)) (expand_path p) = false) paths ->
  fold_left (clean_path dry_run) paths st = st.
Proof.
  induction 1 as [|p paths Hp _ IH]; [reflexivity|].
  simpl. rewrite clean_path_missing by assumption. exact IH.
Qed.

(** The result [clean_category] builds from the final state of its loop. *)
Lemma clean_category_loop (w : World) (category_id : string) (category : Category)
    (dry_run : bool) :
  get_category registry category_id = Some category ->
  truthy (c_cleanup_command category) && negb dry_run = false ->
  forall r w',
    clean_category registry w category_id dry_run = (Return r, w') ->
    match fold_left (clean_path dry_run) (c_paths category) (0, 0, [], [], w) with
    | (total_bytes, total_files, errors, _, w'') =>
        cr_bytes_freed r = total_bytes /\ cr_files_deleted r = total_files
        /\ (cr_success r = true <-> errors = [])
        /\ (cr_error r = None <-> errors = [])
        /\ cr_dry_run r = dry_run /\ w' = w''
    end.
Proof.
  intros Hcat Hnative r w'. unfold clean_category. rewrite Hcat, Hnative.
  destruct (fold_left (clean_path dry_run) (c_paths category) (0, 0, [], [], w))
    as [[[[tb tf] errs] cleaned] w''].
  destruct (match cleaned with
            | p :: _ => Some p
            | [] => match c_paths category with p :: _ => Some p | [] => None end
            end); [|discriminate].
  intros H. injection H as <- <-. cbn.
  destruct errs; repeat split; try discriminate; auto.
Qed.

Lemma delete_error_truthy (e : oserror) :
  exists msg, delete_error e = (0, 0, Some msg) /\ String.eqb msg "" = false.
Proof. destruct e as [msg|msg]; eexists; split; reflexivity. Qed.

Lemma size_cache_fresh_insert (w : World) (path : Path) (clk : Clock) (now : float) :
  size_cache_fresh w -> wf_path path ->
  size_cache_fresh
    (mkWorld (disk w) clk
       (<[str path := (get_directory_size_fast (disk w) path 20, now)]> (_size_cache w))).
Proof.
  intros Hfresh Hwf q size files dirs cached_at Hq. cbn [_size_cache disk].
  destruct (decide (str path = str q)) as [E|E].
  - rewrite E, lookup_insert_eq. intros H. injection H as H _.
    apply str_inj in E; [|assumption..]. now subst q.
  - rewrite lookup_insert_ne by exact E. now apply Hfresh.
Qed.

(** With nothing stale in the cache, [get_directory_size] gives what a scan
    of the disk gives, and leaves nothing stale. *)
Lemma get_directory_size_fresh (w : World) (path : Path) :
  size_cache_fresh w -> wf_path path ->
  fst (get_directory_size w path) = get_directory_size_fast (disk w) path 20
  /\ size_cache_fresh (snd (get_directory_size w path))
  /\ disk (snd (get_directory_size w path)) = disk w.
Proof.
  intros Hfresh Hwf. unfold get_directory_size, get_directory_size_cached.
  destruct (time_time (clock w)) as [now clk].
  pose proof (size_cache_fresh_insert w path clk now Hfresh Hwf) as Hins.
  destruct (get_directory_size_fast (disk w) path 20) as [[size files] dirs] eqn:Efast.
  destruct (_size_cache w !! str path) as [[[[s f] d] t]|] eqn:Ec.
  - destruct (PrimFloat.ltb _ _).
    + cbn [fst snd disk]. split; [|split; [|reflexivity]].
      * rewrite (Hfresh path s f d t Hwf Ec). exact Efast.
      * intros q s' f' d' t' Hq H. exact (Hfresh q s' f' d' t' Hq H).
    + cbn [fst snd disk]. repeat split. exact Hins.
  - cbn [fst snd disk]. repeat split. exact Hins.
Qed.

(** A dry run of [delete_path] on a path that exists reports what the disk
    holds there, or the error of reading it. *)
Lemma delete_path_dry_run_measures (w : World) (path : Path) :
  size_cache_fresh w -> wf_path path ->
  path_exists (disk w) path = true ->
  size_cache_fresh (snd (delete_path w path true))
  /\ disk (snd (delete_path w path true)) = disk w
  /\ match size_on_disk (disk w) path with
     | Ok (size, files) => fst (delete_path w path true) = (size, files, None)
     | Raise e => fst (delete_path w path true) = delete_error e
     end.
Proof.
  intros Hfresh Hwf Hex. unfold delete_path, size_on_disk. rewrite Hex. cbn [negb].
  destruct (path_is_file (disk w) path).
  - destruct (path_st_size (disk w) path) as [size|e]; cbn [fst snd]; auto.
  - destruct (get_directory_size_fresh w path Hfresh Hwf) as (Hv & Hf & Hd).
    destruct (get_directory_size w path) as [[[size files] dirs] w1].
    cbn [fst snd] in *. rewrite <- Hv. cbn [bytes_of files_of fst snd]. auto.
Qed.

Lemma omap_cons_case {A B : Type} (f : A -> option B) (x : A) (l : list A) :
  omap f (x :: l) = match f x with Some y => y :: omap f l | None => omap f l end.
Proof. reflexivity. Qed.

(** The totals of the loop of a dry run, path by path. *)
Lemma clean_loop_dry_run_measures (paths : list string) :
  forall total_bytes total_files errors paths_cleaned (w : World),
    size_cache_fresh w ->
    match fold_left (clean_path true) paths
            (total_bytes, total_files, errors, paths_cleaned, w) with
    | (total_bytes', total_files', errors', _, _) =>
        let present :=
          List.filter (fun p => path_exists (disk w) (expand_path p)) paths in
        total_bytes' = total_bytes + sum_Z (map fst (omap (counted (disk w)) present))
        /\ total_files' = total_files + sum_Z (map snd (omap (counted (disk w)) present))
        /\ (errors' = [] <->
            errors = []
            /\ Forall (fun p => is_path_safe (expand_path p) = true
                                /\ exists measured,
                                     size_on_disk (disk w) (expand_path p) = Ok measured)
                      present)
    end.
Proof.
  induction paths as [|p paths IH];
    intros total_bytes total_files errors paths_cleaned w Hfresh.
  { cbn. repeat split; try lia; auto. tauto. }
  cbn [fold_left List.filter]. unfold clean_path at 2.
  destruct (path_exists (disk w) (expand_path p)) eqn:Hex; cbn [negb].
  2:{ exact (IH total_bytes total_files errors paths_cleaned w Hfresh). }
  destruct (is_path_safe (expand_path p)) eqn:Hsafe; cbn [negb].
  2:{ assert (Hc : counted (disk w) p = None) by (unfold counted; now rewrite Hsafe).
      specialize (IH total_bytes total_files
                    (errors ++ ["Blocked path: " +:+ str (expand_path p)])
                    paths_cleaned w Hfresh).
      destruct (fold_left (clean_path true) paths _) as [[[[tb tf] errs] cleaned] w'].
      cbv zeta in IH |- *. rewrite omap_cons_case, Hc.
      destruct IH as (Hb & Hf & He).
      split; [exact Hb|]. split; [exact Hf|]. split.
      - intros H. apply He in H as [H _]. now destruct errors.
      - intros [_ H]. apply Forall_cons_1 in H as [[H _] _]. congruence. }
  destruct (delete_path_dry_run_measures w (expand_path p) Hfresh (expand_path_wf p) Hex)
    as (Hfresh' & Hd & Hm).
  destruct (delete_path w (expand_path p) true) as [[[b f] e] w1].
  cbn [fst snd] in Hfresh', Hd, Hm.
  destruct (size_on_disk (disk w) (expand_path p)) as [[size files]|err] eqn:Esize.
  - assert (Hc : counted (disk w) p = Some (size, files))
      by (unfold counted; now rewrite Hsafe, Esize).
    injection Hm as -> -> ->.
    specialize (IH (total_bytes + size) (total_files + files) errors
                  (paths_cleaned ++ [str (expand_path p)]) w1 Hfresh').
    destruct (fold_left (clean_path true) paths _) as [[[[tb tf] errs] cleaned] w'].
    cbv zeta in IH |- *. rewrite Hd in IH. rewrite omap_cons_case, Hc.
    destruct IH as (Hb & Hf & He).
    cbn [map fst snd]. rewrite !sum_Z_cons.
    split; [lia|]. split; [lia|]. rewrite He. split.
    + intros [H1 H2]. split; [exact H1|]. constructor; [|exact H2]. eauto.
    + intros [H1 H2]. apply Forall_cons_1 in H2 as [_ H2]. auto.
  - assert (Hc : counted (disk w) p = None)
      by (unfold counted; now rewrite Hsafe, Esize).
    destruct (delete_error_truthy err) as (msg & Hmsg & Hne).
    rewrite Hmsg in Hm. injection Hm as -> -> ->. rewrite Hne.
    specialize (IH total_bytes total_files
                  (errors ++ [str (expand_path p) +:+ ": " +:+ msg]) paths_cleaned w1
                  Hfresh').
    destruct (fold_left (clean_path true) paths _) as [[[[tb tf] errs] cleaned] w'].
    cbv zeta in IH |- *. rewrite Hd in IH. rewrite omap_cons_case, Hc.
    destruct IH as (Hb & Hf & He).
    split; [exact Hb|]. split; [exact Hf|]. split.
    + intros H. apply He in H as [H _]. now destruct errors.
    + intros [_ H]. apply Forall_cons_1 in H as [[_ [m H]] _]. congruence.
Qed.

(** C2. For a category that declares a native cleanup command, a dry run of
    [clean_category] runs no command and removes nothing.  With nothing
    stale in the size cache, the bytes and files it returns are those the
    disk holds at the declared paths that exist, pass [is_path_safe] and can
    be read, and it succeeds exactly when every declared path that exists
    passes [is_path_safe] and can be read; they are zero, with success, when
    none of the declared paths exists.  A result with zero bytes and files
    whatever is on disk is what [_run_native_cleanup] returns when it is
    itself asked for a dry run. *)
Theorem clean_category_dry_run_native :
  forall (w : World) category_id category command,
    get_category registry category_id = Some category ->
    c_cleanup_command category = Some command ->
    disk (snd (clean_category registry w category_id true)) = disk w
    /\ (size_cache_fresh w ->
        forall r w',
          clean_category registry w category_id true = (Return r, w') ->
          let present :=
            List.filter (fun p => path_exists (disk w) (expand_path p))
                        (c_paths category) in
          cr_bytes_freed r = sum_Z (map fst (omap (counted (disk w)) present))
          /\ cr_files_deleted r = sum_Z (map snd (omap (counted (disk w)) present))
          /\ (cr_success r = true <->
              Forall (fun p => is_path_safe (expand_path p) = true
                               /\ exists measured,
                                    size_on_disk (disk w) (expand_path p) = Ok measured)
                     present))
    /\ (Forall (fun p => path_exists (disk w) (expand_path p) = false) (c_paths category) ->
        forall r w',
          clean_category registry w category_id true = (Return r, w') ->
          cr_success r = true /\ cr_bytes_freed r = 0 /\ cr_files_deleted r = 0 /\ w' = w)
    /\ _run_native_cleanup w category_id command true =
       (mkCleanupResult category_id (native_path command) 0 0 true None true, w).
Proof.
  intros w category_id category command Hcat Hcmd.
  assert (Hnative : truthy (c_cleanup_command category) && negb true = false)
    by apply andb_false_r.
  split; [|split; [|split]].
  - unfold clean_category. rewrite Hcat, Hnative.
    pose proof (clean_loop_dry_run_disk (c_paths category) (0, 0, [], [], w)) as H.
    destruct (fold_left (clean_path true) (c_paths category) (0, 0, [], [], w))
      as [[[[tb tf] errs] cleaned] w''].
    cbn [snd] in H.
    destruct (match cleaned with
              | p :: _ => Some p
              | [] => match c_paths category with p :: _ => Some p | [] => None end
              end); exact H.
  - intros Hfresh r w' Hr.
    pose proof (clean_category_loop w category_id category true Hcat Hnative r w' Hr) as H.
    pose proof (clean_loop_dry_run_measures (c_paths category) 0 0 [] [] w Hfresh) as Hm.
    destruct (fold_left (clean_path true) (c_paths category) (0, 0, [], [], w))
      as [[[[tb tf] errs] cleaned] w''].
    cbv zeta in Hm |- *.
    destruct H as (Hb & Hf & Hs & _). destruct Hm as (Hb' & Hf' & He).
    split; [lia|]. split; [lia|]. rewrite Hs, He. tauto.
  - intros Hmissing r w' Hr.
    pose proof (clean_category_loop w category_id category true Hcat Hnative r w' Hr) as Hl.
    rewrite clean_loop_missing in Hl by assumption.
    destruct Hl as (Hb & Hf & Hs & _ & _ & Hw). repeat split; auto. now apply Hs.
  - reflexivity.
Qed.

(** C9. Whatever branch produced it, a result returned by [clean_category]
    has [success] true exactly when its [error] is absent. *)
Theorem clean_category_success_iff_no_error :
  forall (w w' : World) category_id dry_run r,
    clean_category registry w category_id dry_run = (Return r, w') ->
    (cr_success r = true <-> cr_error r = None).
Proof.
  intros w w' category_id dry_run r.
  destruct (get_category registry category_id) as [category|] eqn:Hcat.
  2:{ unfold clean_category. rewrite Hcat. intros H. injection H as <- <-.
      cbn. split; discriminate. }
  destruct (truthy (c_cleanup_command category) && negb dry_run) eqn:Hnative.
  - unfold clean_category. rewrite Hcat, Hnative.
    unfold _run_native_cleanup.
    apply andb_true_iff in Hnative as [_ Hdry]. apply negb_true_iff in Hdry. subst dry_run.
    destruct (subprocess_run (disk w) _) as [d' out].
    destruct out as [returncode stderr| |msg].
    + destruct (returncode =? 0); intros H; injection H as <- <-; cbn;
        split; try discriminate; reflexivity.
    + intros H; injection H as <- <-; cbn; split; discriminate.
    + intros H; injection H as <- <-; cbn; split; discriminate.
  - intros Hr.
    pose proof (clean_category_loop w category_id category dry_run Hcat Hnative r w' Hr) as H.
    destruct (fold_left (clean_path dry_run) (c_paths category) (0, 0, [], [], w))
      as [[[[tb tf] errs] cleaned] w''].
    destruct H as (_ & _ & Hs & He & _). rewrite Hs, He. reflexivity.
Qed.

End Cleaning.

(** npm's cache holds one 6-byte file: the dry run reports it. *)
Lemma clean_category_dry_run_reports_measured :
  (exists category,
     get_category CATEGORIES "npm_cache" = Some category
     /\ c_cleanup_command category = Some "npm cache clean --force")
  /\ fst (@clean_category TreeOS CATEGORIES (world0 disk_npm) "npm_cache" true)
     = Return (mkCleanupResult "npm_cache" "/Users/ada/.npm/_cacache" 6 1 true None true).
Proof.
  split; [eexists; split; reflexivity|vm_compute; reflexivity].
Defined.

(** Two dry runs.  With the package's registry, npm's cache on [disk_npm]:
    the 6-byte file is measured and [~/.npm/_logs], which does not exist, is
    passed over.  A category that also declares [~/Documents], on
    [disk_documents]: the cache is measured, the folder is refused, and the
    dry run fails. *)
Lemma clean_category_dry_run_native_witness :
  let mixed := mkCategory "mixed" "Caches and documents"
                 ["~/.npm/_cacache"; "~/Documents"; "~/.npm/_logs"]
                 SAFE [] [] false 0 (Some "npm cache clean --force") in
  (exists category,
     get_category CATEGORIES "npm_cache" = Some category
     /\ c_cleanup_command category = Some "npm cache clean --force")
  /\ @size_cache_fresh TreeOS (world0 disk_npm)
  /\ @disk TreeOS (snd (@clean_category TreeOS CATEGORIES (world0 disk_npm) "npm_cache" true))
     = disk_npm
  /\ (exists r,
        fst (@clean_category TreeOS CATEGORIES (world0 disk_npm) "npm_cache" true) = Return r
        /\ cr_bytes_freed r = 6 /\ cr_files_deleted r = 1 /\ cr_success r = true)
  /\ (exists r,
        fst (@clean_category TreeOS [("mixed", mixed)] (world0 disk_documents) "mixed" true)
        = Return r
        /\ cr_bytes_freed r = 6 /\ cr_files_deleted r = 1 /\ cr_success r = false).
Proof.
  intros mixed.
  assert (Hfresh : forall d, @size_cache_fresh TreeOS (world0 d)).
  { intros d path size files dirs cached_at _ H. cbn in H.
    rewrite lookup_empty in H. discriminate. }
  destruct (get_category CATEGORIES "npm_cache") as [category|] eqn:Hcat; [|discriminate].
  assert (Hcmd : c_cleanup_command category = Some "npm cache clean --force")
    by (injection Hcat as <-; reflexivity).
  assert (Hpaths : c_paths category = ["~/.npm/_cacache"; "~/.npm/_logs"])
    by (injection Hcat as <-; reflexivity).
  split; [exists category; split; [reflexivity|exact Hcmd]|].
  split; [apply Hfresh|].
  destruct (@clean_category_dry_run_native TreeOS CATEGORIES (world0 disk_npm)
              "npm_cache" category "npm cache clean --force" Hcat Hcmd)
    as (Hdisk & Hmeasured & _ & _).
  split; [exact Hdisk|]. split.
  - destruct (@clean_category TreeOS CATEGORIES (world0 disk_npm) "npm_cache" true)
      as [[r|] w'] eqn:E; [|vm_compute in E; discriminate].
    exists r. split; [reflexivity|].
    destruct (Hmeasured (Hfresh disk_npm) r w' eq_refl) as (Hb & Hf & Hs).
    rewrite Hpaths in Hb, Hf, Hs.
    split; [rewrite Hb; vm_compute; reflexivity|].
    split; [rewrite Hf; vm_compute; reflexivity|].
    apply Hs. constructor; [|constructor].
    split; [vm_compute; reflexivity|]. eexists. vm_compute. reflexivity.
  - assert (Hcat' : get_category [("mixed", mixed)] "mixed" = Some mixed) by reflexivity.
    assert (Hcmd' : c_cleanup_command mixed = Some "npm cache clean --force")
      by reflexivity.
    destruct (@clean_category_dry_run_native TreeOS [("mixed", mixed)]
                (world0 disk_documents) "mixed" mixed "npm cache clean --force"
                Hcat' Hcmd')
      as (_ & Hmeasured' & _ & _).
    destruct (@clean_category TreeOS [("mixed", mixed)] (world0 disk_documents)
                "mixed" true)
      as [[r|] w'] eqn:E; [|vm_compute in E; discriminate].
    exists r. split; [reflexivity|].
    destruct (Hmeasured' (Hfresh disk_documents) r w' eq_refl) as (Hb & Hf & Hs).
    split; [rewrite Hb; vm_compute; reflexivity|].
    split; [rewrite Hf; vm_compute; reflexivity|].
    destruct (cr_success r); [|reflexivity].
    apply proj1 in Hs. specialize (Hs eq_refl).
    apply Forall_cons_1 in Hs as [_ Hs]. apply Forall_cons_1 in Hs as [[Hs _] _].
    vm_compute in Hs. discriminate.
Defined.

(** npm is not installed: the native command fails, [success] is false and
    the error is present. *)
Lemma clean_category_success_iff_no_error_witness :
  exists r w',
    @clean_category TreeOS CATEGORIES (world0 disk_npm) "npm_cache" false = (Return r, w')
    /\ (cr_success r = true <-> cr_error r = None)
    /\ cr_success r = false.
Proof.
  destruct (@clean_category TreeOS CATEGORIES (world0 disk_npm) "npm_cache" false)
    as [[r|] w'] eqn:E; [|vm_compute in E; discriminate].
  exists r, w'. split; [reflexivity|]. split.
  - exact (@clean_category_success_iff_no_error TreeOS CATEGORIES _ _ _ _ _ E).
  - vm_compute in E. injection E as <- _. reflexivity.
Defined.

Section Deleting.
Context `{os : OS}.

(** C8. [delete_path] on a path that does not exist returns zeros and no
    error and leaves the world as it is; a dry run never changes the disk;
    and the dry run reports the measurement the real call makes on the same
    state: the real call returns the same triple, unless its removal raises,
    in which case it returns zeros with the error. *)
Theorem delete_path_dry_run_agrees :
  (forall (w : World) path dry_run,
     path_exists (disk w) path = false ->
     delete_path w path dry_run = ((0, 0, None), w))
  /\ (forall (w : World) path, disk (snd (delete_path w path true)) = disk w)
  /\ (forall (w : World) path bytes_freed files_deleted,
        fst (delete_path w path false) = (bytes_freed, files_deleted, None) ->
        fst (delete_path w path true) = (bytes_freed, files_deleted, None))
  /\ (forall (w : World) path,
        fst (delete_path w path false) = fst (delete_path w path true)
        \/ exists msg, fst (delete_path w path false) = (0, 0, Some msg)).
Proof.
  split; [|split; [|split]].
  - intros w path dry_run H. unfold delete_path. now rewrite H.
  - intros w path. unfold delete_path.
    destruct (path_exists (disk w) path); [|reflexivity]. cbn [negb].
    destruct (path_is_file (disk w) path).
    + destruct (path_st_size (disk w) path); reflexivity.
    + unfold get_directory_size.
      pose proof (get_directory_size_cached_disk w path 20) as H.
      destruct (get_directory_size_cached w path 20) as [[[size files] dirs] w1].
      exact H.
  - intros w path bytes_freed files_deleted. unfold delete_path.
    destruct (path_exists (disk w) path); [|auto]. cbn [negb].
    destruct (if path_is_file (disk w) path then _ else _)
      as [[[size files]|e] w1]; [|auto].
    destruct (if path_is_file (disk w1) path then path_unlink (disk w1) path
              else shutil_rmtree (disk w1) path) as [d2 [e|]]; [|auto].
    destruct e; cbn; discriminate.
  - intros w path. unfold delete_path.
    destruct (path_exists (disk w) path); [|auto]. cbn [negb].
    destruct (if path_is_file (disk w) path then _ else _) as [[[size files]|e] w1].
    + destruct (if path_is_file (disk w1) path then path_unlink (disk w1) path
                else shutil_rmtree (disk w1) path) as [d2 [e|]].
      * right. destruct e; cbn; eauto.
      * auto.
    + auto.
Qed.

End Deleting.

(** A file in a directory that cannot be written: the dry run measures its
    6 bytes, the real call removes nothing and reports zeros. *)
Lemma delete_path_removal_denied :
  @path_exists TreeOS disk_readonly (Path_of_str "/srv/data.bin") = true
  /\ fst (@delete_path TreeOS (world0 disk_readonly) (Path_of_str "/srv/data.bin") true)
     = (6, 1, None)
  /\ fst (@delete_path TreeOS (world0 disk_readonly) (Path_of_str "/srv/data.bin") false)
     = (0, 0, Some "Permission denied: [Errno 13] Permission denied").
Proof. repeat split. Defined.

(** npm's cache directory: removed by the real call, which reports the 6
    bytes and 1 file that the dry run reports. *)
Lemma delete_path_dry_run_agrees_witness :
  fst (@delete_path TreeOS (world0 disk_npm) (Path_of_str "/Users/ada/.npm/_cacache") false)
  = (6, 1, None)
  /\ fst (@delete_path TreeOS (world0 disk_npm) (Path_of_str "/Users/ada/.npm/_cacache") true)
     = (6, 1, None)
  /\ @path_exists TreeOS
       (@disk TreeOS (snd (@delete_path TreeOS (world0 disk_npm)
                             (Path_of_str "/Users/ada/.npm/_cacache") false)))
       (Path_of_str "/Users/ada/.npm/_cacache") = false.
Proof.
  assert (H : fst (@delete_path TreeOS (world0 disk_npm)
                     (Path_of_str "/Users/ada/.npm/_cacache") false) = (6, 1, None))
    by (vm_compute; reflexivity).
  split; [exact H|]. split; [|vm_compute; reflexivity].
  exact (proj1 (proj2 (proj2 (@delete_path_dry_run_agrees TreeOS))) _ _ _ _ H).
Defined.

(** ** recursive_scanner.py: [scan_recursive_category] *)

(** C10. For a category that is not recursive [scan_recursive_category]
    returns the empty list whatever the disk holds and whatever paths,
    patterns and roots the category declares, and the world is untouched. *)
Theorem scan_recursive_category_not_recursive `{os : OS} :
  forall (w : World) category,
    c_is_recursive category = false ->
    scan_recursive_category w category = ([], w).
Proof. intros w category H. unfold scan_recursive_category. now rewrite H. Qed.

Lemma scan_recursive_category_not_recursive_witness :
  c_is_recursive (mkCategory "trash" "Trash" ["~/.Trash"] REVIEW
                    ["**/node_modules"] ["~/Code"] false 0 None) = false
  /\ @scan_recursive_category TreeOS (world0 disk_projects)
       (mkCategory "trash" "Trash" ["~/.Trash"] REVIEW
          ["**/node_modules"] ["~/Code"] false 0 None)
     = ([], world0 disk_projects).
Proof.
  split; [reflexivity|].
  now apply (@scan_recursive_category_not_recursive TreeOS).
Defined.

(** ** scanner.py: the size cache *)

Section Cache.
Context `{os : OS}.

(** C6. [get_directory_size_cached] and the age of the cache entry, the age
    being [now - cached_at] as the code computes it.  An entry younger than
    300 seconds is returned as it is, and the cache is not written; a call
    leaves an entry holding the triple it returned, and any later call for
    the same path that still finds this entry, younger than 300 seconds,
    returns the same triple, whatever the disk has become; an entry whose age
    has reached 300 seconds is not used: the size is computed afresh and the
    entry replaced, stamped with the time of the call. *)
Theorem get_directory_size_cached_ttl :
  (forall (w : World) path max_depth size files dirs cached_at,
     _size_cache w !! str path = Some (size, files, dirs, cached_at) ->
     PrimFloat.ltb (PrimFloat.sub (fst (time_time (clock w))) cached_at)
                   (float_of_int 300) = true ->
     get_directory_size_cached w path max_depth =
     ((size, files, dirs), mkWorld (disk w) (snd (time_time (clock w))) (_size_cache w)))
  /\ (forall (w : World) path max_depth,
        exists cached_at,
          _size_cache (snd (get_directory_size_cached w path max_depth)) !! str path
          = Some (fst (get_directory_size_cached w path max_depth), cached_at)
          /\ forall (w2 : World) max_depth2,
               _size_cache w2 !! str path
               = _size_cache (snd (get_directory_size_cached w path max_depth)) !! str path ->
               PrimFloat.ltb (PrimFloat.sub (fst (time_time (clock w2))) cached_at)
                             (float_of_int 300) = true ->
               fst (get_directory_size_cached w2 path max_depth2)
               = fst (get_directory_size_cached w path max_depth))
  /\ (forall (w : World) path max_depth size files dirs cached_at,
        _size_cache w !! str path = Some (size, files, dirs, cached_at) ->
        PrimFloat.ltb (PrimFloat.sub (fst (time_time (clock w))) cached_at)
                      (float_of_int 300) = false ->
        get_directory_size_cached w path max_depth =
        (get_directory_size_fast (disk w) path max_depth,
         mkWorld (disk w) (snd (time_time (clock w)))
                 (<[str path := (get_directory_size_fast (disk w) path max_depth,
                                 fst (time_time (clock w)))]> (_size_cache w)))).
Proof.
  assert (Hhit : forall (w : World) path max_depth size files dirs cached_at,
     _size_cache w !! str path = Some (size, files, dirs, cached_at) ->
     PrimFloat.ltb (PrimFloat.sub (fst (time_time (clock w))) cached_at)
                   (float_of_int 300) = true ->
     get_directory_size_cached w path max_depth =
     ((size, files, dirs), mkWorld (disk w) (snd (time_time (clock w))) (_size_cache w))).
  { intros w path max_depth size files dirs cached_at Hc Hfresh.
    unfold get_directory_size_cached.
    destruct (time_time (clock w)) as [now clk]. cbn [fst snd] in *.
    destruct (get_directory_size_fast (disk w) path max_depth) as [[s f] d].
    rewrite Hc. unfold CACHE_TTL. now rewrite Hfresh. }
  split; [exact Hhit|]. split.
  - intros w path max_depth.
    assert (Hentry : exists cached_at,
      _size_cache (snd (get_directory_size_cached w path max_depth)) !! str path
      = Some (fst (get_directory_size_cached w path max_depth), cached_at)).
    { unfold get_directory_size_cached.
      destruct (time_time (clock w)) as [now clk].
      destruct (get_directory_size_fast (disk w) path max_depth) as [[s f] d].
      destruct (_size_cache w !! str path) as [[[[s0 f0] d0] t0]|] eqn:Hc.
      - destruct (PrimFloat.ltb _ _).
        + exists t0. exact Hc.
        + exists now. cbn [fst snd _size_cache]. apply lookup_insert_eq.
      - exists now. cbn [fst snd _size_cache]. apply lookup_insert_eq. }
    destruct Hentry as [cached_at Hentry]. exists cached_at. split; [exact Hentry|].
    intros w2 max_depth2 Hsame Hfresh.
    rewrite Hentry in Hsame.
    destruct (fst (get_directory_size_cached w path max_depth)) as [[s f] d].
    now rewrite (Hhit w2 path max_depth2 s f d cached_at Hsame Hfresh).
  - intros w path max_depth size files dirs cached_at Hc Hstale.
    unfold get_directory_size_cached.
    destruct (time_time (clock w)) as [now clk]. cbn [fst snd] in *.
    destruct (get_directory_size_fast (disk w) path max_depth) as [[s f] d].
    rewrite Hc. unfold CACHE_TTL. now rewrite Hstale.
Qed.

End Cache.

(** Two calls one second apart on ada's npm directory, the cache directory
    having been emptied in between: the second call repeats the first. *)
Lemma get_directory_size_cached_ttl_witness :
  let p := Path_of_str "/Users/ada/.npm" in
  let first := @get_directory_size_cached TreeOS (world0 disk_npm) p 20 in
  let w2 := @mkWorld TreeOS (nest ["Users"; "ada"; ".npm"; "_cacache"] (Dir true true []))
              (@clock TreeOS (snd first)) (@_size_cache TreeOS (snd first)) in
  fst first = (6, 1, 1)
  /\ @get_directory_size_fast TreeOS (@disk TreeOS w2) p 20 = (0, 0, 1)
  /\ fst (@get_directory_size_cached TreeOS w2 p 20) = (6, 1, 1).
Proof.
  intros p first w2.
  split; [vm_compute; reflexivity|]. split; [vm_compute; reflexivity|].
  destruct (proj1 (proj2 (@get_directory_size_cached_ttl TreeOS)) (world0 disk_npm) p 20)
    as (cached_at & Hentry & Hagain).
  assert (Hat : cached_at = float_of_int 1000).
  { vm_compute in Hentry. now injection Hentry as <-. }
  subst cached_at.
  rewrite (Hagain w2 20); [vm_compute; reflexivity|reflexivity|vm_compute; reflexivity].
Defined.

(** ** recursive_scanner.py: [find_matching_directories] *)

Section Discovery.
Context `{os : OS}.

(** Every path yielded below [top] ends in [pattern], and none of the
    directories between [top] and it is called [pattern]. *)
Lemma find_matching_fuel_shape (pattern : string) (d : Disk) (fuel : nat) :
  forall top max_depth found,
    In found (find_matching_fuel fuel d top pattern max_depth true) ->
    root found = root top
    /\ exists between,
         tail found = tail top ++ between ++ [pattern]
         /\ Forall (fun name => name <> pattern) between.
Proof.
  induction fuel as [|fuel IH]; intros top max_depth found; simpl.
  - destruct (max_depth <=? 0); contradiction.
  - destruct (max_depth <=? 0); [contradiction|].
    destruct (scandir d top) as [entries|]; [|contradiction].
    rewrite in_flat_map. intros (entry & _ & Hin).
    unfold find_entry in Hin.
    destruct (de_is_dir entry) as [[|]|]; try contradiction.
    destruct (_ && _ && _); [contradiction|].
    destruct (_ && _); [contradiction|].
    destruct (String.eqb_spec (de_name entry) pattern) as [Heq|Hne]; simpl in Hin.
    + destruct Hin as [<-|[]]. split; [reflexivity|].
      exists []. simpl. rewrite Heq. split; [reflexivity|constructor].
    + apply IH in Hin as (Hroot & between & Htail & Hbetween).
      split; [exact Hroot|].
      exists (de_name entry :: between). split.
      * rewrite Htail. simpl. now rewrite <- List.app_assoc.
      * now constructor.
Qed.

(** C4. No path yielded by [find_matching_directories] (which, as called by
    default, does not enter a directory it has yielded) lies inside another
    path it yields. *)
Theorem find_matching_directories_not_nested :
  forall (d : Disk) root pattern max_depth a b,
    In a (find_matching_directories d root pattern max_depth true) ->
    In b (find_matching_directories d root pattern max_depth true) ->
    ~ is_ancestor a b.
Proof.
  intros d root pattern max_depth a b Ha Hb (Hroot & ext & Hext & Htail).
  unfold find_matching_directories in *.
  apply find_matching_fuel_shape in Ha as (_ & ma & Hta & Hma).
  apply find_matching_fuel_shape in Hb as (_ & mb & Htb & Hmb).
  rewrite Hta, Htb in Htail.
  rewrite <- !List.app_assoc in Htail. apply app_inv_head in Htail.
  (* mb ++ [pattern] = ma ++ [pattern] ++ ext, with ext non-empty:
     pattern occurs in mb *)
  destruct (List.exists_last Hext) as (ext' & x & ->).
  rewrite !List.app_assoc in Htail. apply List.app_inj_tail in Htail as [Hmb' _].
  rewrite List.Forall_forall in Hmb. apply (Hmb pattern); [|reflexivity].
  rewrite Hmb'. rewrite List.in_app_iff. left. rewrite List.in_app_iff. right. now left.
Qed.

End Discovery.

(** The two [node_modules] found under ada's [Code]; the one vendored inside
    [app/node_modules] is not among them. *)
Lemma find_matching_directories_not_nested_witness :
  let found := @find_matching_directories TreeOS disk_projects
                 (Path_of_str "/Users/ada/Code") "node_modules" 15 true in
  let a := Path_of_str "/Users/ada/Code/app/node_modules" in
  let b := Path_of_str "/Users/ada/Code/lib/node_modules" in
  found = [a; b]
  /\ (is_ancestor a b -> False) /\ (is_ancestor b a -> False).
Proof.
  intros found a b.
  assert (Hf : found = [a; b]) by (vm_compute; reflexivity).
  assert (Ha : In a found) by (rewrite Hf; simpl; auto).
  assert (Hb : In b found) by (rewrite Hf; simpl; auto).
  split; [exact Hf|]. split.
  - exact (@find_matching_directories_not_nested TreeOS _ _ _ _ a b Ha Hb).
  - exact (@find_matching_directories_not_nested TreeOS _ _ _ _ b a Hb Ha).
Defined.

(** ** scanner.py: the recursion law of [get_directory_size_fast] *)

Lemma triple_eq (a a' b b' c c' : Z) :
  a = a' -> b = b' -> c = c' -> (a, b, c) = (a', b', c').
Proof. now intros -> -> ->. Qed.

Section SizeLaw.
Context `{os : OS}.

Lemma counts_add_0_r (a : Z * Z * Z) : counts_add a (0, 0, 0) = a.
Proof. destruct a as [[x y] z]. counts. Qed.

Lemma counts_add_assoc (a b c : Z * Z * Z) :
  counts_add (counts_add a b) c = counts_add a (counts_add b c).
Proof. destruct a as [[? ?] ?], b as [[? ?] ?], c as [[? ?] ?]. counts. Qed.

Lemma fold_left_pointwise {A B : Type} (f g : A -> B -> A) (l : list B) (a : A) :
  (forall x y, f x y = g x y) -> fold_left f l a = fold_left g l a.
Proof.
  intros E. revert a. induction l as [|y l IH]; intros a; simpl; [reflexivity|].
  now rewrite E, IH.
Qed.

Lemma _scan_entry_additive rec (p : Path) (depth : Z) (acc : Z * Z * Z) (e : DirEntry) :
  additive rec ->
  _scan_entry rec p depth acc e = counts_add acc (_scan_entry rec p depth (0, 0, 0) e).
Proof.
  intros Hrec. destruct acc as [[ts fc] dc]. unfold _scan_entry.
  destruct (de_is_file e) as [[|]|].
  - destruct (de_st_size e); counts.
  - destruct (de_is_dir e) as [[|]|]; try counts.
    rewrite (Hrec _ _ (ts, fc, dc + 1)), (Hrec _ _ (0, 0, 0 + 1)).
    rewrite <- counts_add_assoc. f_equal. counts.
  - counts.
Qed.

Lemma fold_scan_entry_additive rec (p : Path) (depth : Z) (entries : list DirEntry) :
  additive rec ->
  forall acc,
    fold_left (_scan_entry rec p depth) entries acc =
    counts_add acc (fold_left (_scan_entry rec p depth) entries (0, 0, 0)).
Proof.
  intros Hrec. induction entries as [|e entries IH]; intros acc; cbn [fold_left].
  - now rewrite counts_add_0_r.
  - rewrite IH, (IH (_scan_entry rec p depth (0, 0, 0) e)).
    rewrite (_scan_entry_additive rec p depth acc e Hrec).
    apply counts_add_assoc.
Qed.

Lemma _scan_additive (fuel : nat) (d : Disk) (max_depth : Z) :
  additive (_scan fuel d max_depth).
Proof.
  induction fuel as [|fuel IH]; intros q k acc; simpl.
  - destruct (k >? max_depth); now rewrite counts_add_0_r.
  - destruct (k >? max_depth); [now rewrite counts_add_0_r|].
    destruct (scandir d q) as [entries|]; [|now rewrite counts_add_0_r].
    now apply fold_scan_entry_additive.
Qed.

(** Scanning one level further down with one more level allowed is the same
    scan. *)
Lemma _scan_shift (fuel : nat) (d : Disk) (max_depth : Z) :
  forall q depth acc,
    _scan fuel d (max_depth + 1) q (depth + 1) acc = _scan fuel d max_depth q depth acc.
Proof.
  induction fuel as [|fuel IH]; intros q depth acc; simpl;
    replace (depth + 1 >? max_depth + 1) with (depth >? max_depth)
      by (destruct (Z.gtb_spec depth max_depth), (Z.gtb_spec (depth + 1) (max_depth + 1));
          auto; lia);
    destruct (depth >? max_depth); try reflexivity.
  destruct (scandir d q) as [entries|]; [|reflexivity].
  apply fold_left_pointwise. intros [[ts fc] dc] e. unfold _scan_entry.
  destruct (de_is_file e) as [[|]|]; try reflexivity.
  destruct (de_is_dir e) as [[|]|]; try reflexivity.
  apply IH.
Qed.

(** An entry is a measured file, a subdirectory, or adds nothing. *)
Lemma _scan_entry_cases rec (p : Path) (e : DirEntry) :
  (is_direct_file e = true /\ is_subdirectory e = false
   /\ _scan_entry rec p 0 (0, 0, 0) e = (direct_file_size e, 1, 0))
  \/ (is_direct_file e = false /\ is_subdirectory e = true
      /\ _scan_entry rec p 0 (0, 0, 0) e = rec (p // de_name e) (0 + 1) (0, 0, 0 + 1))
  \/ (is_direct_file e = false /\ is_subdirectory e = false
      /\ _scan_entry rec p 0 (0, 0, 0) e = (0, 0, 0)).
Proof.
  unfold is_direct_file, is_subdirectory, direct_file_size, _scan_entry.
  destruct (de_is_file e) as [[|]|].
  - destruct (de_st_size e); auto.
  - destruct (de_is_dir e) as [[|]|]; auto.
  - auto.
Qed.

(** What the loop over one listing adds up to, the subdirectories being
    measured by [sub]. *)
Lemma fold_scan_entry_totals rec (sub : Path -> Z * Z * Z) (p : Path)
    (entries : list DirEntry) :
  (forall q, rec q (0 + 1) (0, 0, 0 + 1) = counts_add (0, 0, 1) (sub q)) ->
  additive rec ->
  fold_left (_scan_entry rec p 0) entries (0, 0, 0) =
  (total (map direct_file_size (List.filter is_direct_file entries))
   + total (map (fun e => bytes_of (sub (p // de_name e)))
                (List.filter is_subdirectory entries)),
   Z.of_nat (List.length (List.filter is_direct_file entries))
   + total (map (fun e => files_of (sub (p // de_name e)))
                (List.filter is_subdirectory entries)),
   Z.of_nat (List.length (List.filter is_subdirectory entries))
   + total (map (fun e => dirs_of (sub (p // de_name e)))
                (List.filter is_subdirectory entries))).
Proof.
  intros Hsub Hrec. induction entries as [|e entries IH]; [reflexivity|].
  cbn [fold_left]. rewrite fold_scan_entry_additive by assumption. rewrite IH.
  cbn [List.filter].
  destruct (_scan_entry_cases rec p e)
    as [(Hf & Hs & ->)|[(Hf & Hs & ->)|(Hf & Hs & ->)]]; rewrite Hf, Hs.
  - counts.
  - rewrite Hsub. cbn [map]. destruct (sub (p // de_name e)) as [[sb sf] sd]. counts.
  - counts.
Qed.

(** One level of [get_directory_size_fast]: the subdirectories are measured
    with one level less. *)
Lemma get_directory_size_fast_unfold (d : Disk) (p : Path) (max_depth : Z) :
  0 <= max_depth ->
  get_directory_size_fast d p max_depth =
  (total (map direct_file_size (direct_files d p))
   + total (map (fun q => bytes_of (get_directory_size_fast d q (max_depth - 1)))
                (subdirectories d p)),
   Z.of_nat (List.length (direct_files d p))
   + total (map (fun q => files_of (get_directory_size_fast d q (max_depth - 1)))
                (subdirectories d p)),
   Z.of_nat (List.length (subdirectories d p))
   + total (map (fun q => dirs_of (get_directory_size_fast d q (max_depth - 1)))
                (subdirectories d p))).
Proof.
  intros Hm. unfold get_directory_size_fast at 1.
  replace (Z.to_nat (max_depth + 1)) with (S (Z.to_nat max_depth)) by lia.
  cbn [_scan].
  replace (0 >? max_depth) with false
    by (destruct (Z.gtb_spec 0 max_depth); [lia|reflexivity]).
  unfold direct_files, subdirectories, listing.
  destruct (scandir d p) as [entries|]; [|reflexivity].
  rewrite (fold_scan_entry_totals _ (fun q => get_directory_size_fast d q (max_depth - 1))).
  - rewrite !List.length_map, !List.map_map. reflexivity.
  - intros q. rewrite _scan_additive. f_equal.
    unfold get_directory_size_fast.
    replace (max_depth - 1 + 1) with max_depth by lia.
    replace max_depth with (max_depth - 1 + 1) at 2 by lia.
    apply _scan_shift.
  - apply _scan_additive.
Qed.

Lemma nests_at_most_sub (n : nat) (d : Disk) (p q : Path) :
  nests_at_most n d p = true -> In q (subdirectories d p) ->
  exists n', n = S n' /\ nests_at_most n' d q = true.
Proof.
  destruct n as [|n']; simpl.
  - destruct (subdirectories d p); [contradiction|discriminate].
  - intros H Hq. exists n'. split; [reflexivity|].
    rewrite List.forallb_forall in H. now apply H.
Qed.

(** Below a directory nested at most [n] levels deep, any bound from [n] on
    gives the same triple. *)
Lemma get_directory_size_fast_enough (d : Disk) (n : nat) :
  forall p max_depth,
    nests_at_most n d p = true -> Z.of_nat n <= max_depth ->
    get_directory_size_fast d p max_depth = get_directory_size_fast d p (Z.of_nat n).
Proof.
  induction n as [|n IH]; intros p max_depth Hn Hm;
    rewrite (get_directory_size_fast_unfold d p max_depth),
            (get_directory_size_fast_unfold d p (Z.of_nat _)) by lia.
  - simpl in Hn. destruct (subdirectories d p); [reflexivity|discriminate].
  - assert (Hsub : forall q, In q (subdirectories d p) ->
              get_directory_size_fast d q (max_depth - 1)
              = get_directory_size_fast d q (Z.of_nat (S n) - 1)).
    { intros q Hq. destruct (nests_at_most_sub _ _ _ _ Hn Hq) as (n' & Hn' & Hq').
      injection Hn' as <-.
      replace (Z.of_nat (S n) - 1) with (Z.of_nat n) by lia.
      apply IH; [assumption|lia]. }
    apply triple_eq; f_equal; f_equal; apply List.map_ext_in; intros q Hq;
      now rewrite (Hsub q Hq).
Qed.

(** C5. The size of a directory is the size of its regular files plus the
    sizes of its subdirectories, each measured with one level less of the
    depth bound; measured with the same bound when the directory is nested
    no deeper than the bound.  The file and directory counts follow the
    same recursion. *)
Theorem get_directory_size_fast_recursion :
  (forall (d : Disk) D max_depth,
     0 <= max_depth ->
     get_directory_size_fast d D max_depth =
     (total (map direct_file_size (direct_files d D))
      + total (map (fun S => bytes_of (get_directory_size_fast d S (max_depth - 1)))
                   (subdirectories d D)),
      Z.of_nat (List.length (direct_files d D))
      + total (map (fun S => files_of (get_directory_size_fast d S (max_depth - 1)))
                   (subdirectories d D)),
      Z.of_nat (List.length (subdirectories d D))
      + total (map (fun S => dirs_of (get_directory_size_fast d S (max_depth - 1)))
                   (subdirectories d D))))
  /\ (forall (d : Disk) D max_depth n,
        nests_at_most n d D = true -> Z.of_nat n <= max_depth ->
        get_directory_size_fast d D max_depth =
        (total (map direct_file_size (direct_files d D))
         + total (map (fun S => bytes_of (get_directory_size_fast d S max_depth))
                      (subdirectories d D)),
         Z.of_nat (List.length (direct_files d D))
         + total (map (fun S => files_of (get_directory_size_fast d S max_depth))
                      (subdirectories d D)),
         Z.of_nat (List.length (subdirectories d D))
         + total (map (fun S => dirs_of (get_directory_size_fast d S max_depth))
                      (subdirectories d D)))).
Proof.
  split; [exact get_directory_size_fast_unfold|].
  intros d D max_depth n Hn Hm.
  rewrite (get_directory_size_fast_unfold d D max_depth) by lia.
  assert (Hsub : forall q, In q (subdirectories d D) ->
            get_directory_size_fast d q (max_depth - 1)
            = get_directory_size_fast d q max_depth).
  { intros q Hq. destruct (nests_at_most_sub _ _ _ _ Hn Hq) as (n' & -> & Hq').
    rewrite (get_directory_size_fast_enough d n' q (max_depth - 1)) by (auto; lia).
    rewrite (get_directory_size_fast_enough d n' q max_depth) by (auto; lia).
    reflexivity. }
  apply triple_eq; f_equal; f_equal; apply List.map_ext_in; intros q Hq;
    now rewrite (Hsub q Hq).
Qed.

End SizeLaw.

(** [/d] holds one directory and no file; with the default bound of 20 the
    5-byte file twenty-one levels down is seen from [/d/n] and not from
    [/d]. *)
Lemma get_directory_size_fast_beyond_depth :
  @subdirectories TreeOS disk_deep (Path_of_str "/d") = [Path_of_str "/d/n"]
  /\ @direct_files TreeOS disk_deep (Path_of_str "/d") = []
  /\ @get_directory_size_fast TreeOS disk_deep (Path_of_str "/d") 20 = (0, 0, 21)
  /\ @get_directory_size_fast TreeOS disk_deep (Path_of_str "/d/n") 20 = (5, 1, 20).
Proof. repeat split; vm_compute; reflexivity. Defined.

(** ada's [.npm]: one subdirectory, measured with the same bound. *)
Lemma get_directory_size_fast_recursion_witness :
  let D := Path_of_str "/Users/ada/.npm" in
  @nests_at_most TreeOS 1 disk_npm D = true
  /\ @get_directory_size_fast TreeOS disk_npm D 20 =
     (0 + (bytes_of (@get_directory_size_fast TreeOS disk_npm (D // "_cacache") 20) + 0),
      0 + (files_of (@get_directory_size_fast TreeOS disk_npm (D // "_cacache") 20) + 0),
      1 + (dirs_of (@get_directory_size_fast TreeOS disk_npm (D // "_cacache") 20) + 0)).
Proof.
  intros D.
  assert (Hn : @nests_at_most TreeOS 1 disk_npm D = true) by (vm_compute; reflexivity).
  split; [exact Hn|].
  rewrite (proj2 (@get_directory_size_fast_recursion TreeOS) disk_npm D 20 1%nat Hn)
    by (simpl; lia).
  vm_compute. reflexivity.
Defined.


(** ** The fuel of the two directory walks is never exhausted *)

Section Fuel.
Context `{os : OS}.

(** [_scan] at [depth] needs [max_depth + 1 - depth] nested calls at most:
    with that much fuel or more the result does not depend on the fuel. *)
Lemma _scan_fuel_enough (d : Disk) (max_depth : Z) (fuel1 : nat) :
  forall fuel2 p depth acc,
    (Z.to_nat (max_depth + 1 - depth) <= fuel1)%nat ->
    (Z.to_nat (max_depth + 1 - depth) <= fuel2)%nat ->
    _scan fuel1 d max_depth p depth acc = _scan fuel2 d max_depth p depth acc.
Proof.
  induction fuel1 as [|fuel1 IH]; intros fuel2 p depth acc H1 H2.
  - destruct fuel2; simpl; destruct (Z.gtb_spec depth max_depth); try reflexivity; lia.
  - destruct fuel2 as [|fuel2]; simpl; destruct (Z.gtb_spec depth max_depth);
      try reflexivity; try lia.
    destruct (scandir d p) as [entries|]; [|reflexivity].
    apply fold_left_pointwise. intros [[ts fc] dc] e. unfold _scan_entry.
    destruct (de_is_file e) as [[|]|]; try reflexivity.
    destruct (de_is_dir e) as [[|]|]; try reflexivity.
    apply IH; lia.
Qed.

Lemma flat_map_pointwise {A B : Type} (f g : A -> list B) (l : list A) :
  (forall x, f x = g x) -> flat_map f l = flat_map g l.
Proof. intros E. induction l as [|x l IH]; simpl; [reflexivity|]. now rewrite E, IH. Qed.

(** [find_matching_directories] with [max_depth] needs [max_depth] nested
    calls at most. *)
Lemma find_matching_fuel_enough (d : Disk) (pattern : string) (skip : bool) (fuel1 : nat) :
  forall fuel2 top max_depth,
    (Z.to_nat max_depth <= fuel1)%nat ->
    (Z.to_nat max_depth <= fuel2)%nat ->
    find_matching_fuel fuel1 d top pattern max_depth skip
    = find_matching_fuel fuel2 d top pattern max_depth skip.
Proof.
  induction fuel1 as [|fuel1 IH]; intros fuel2 top max_depth H1 H2.
  - destruct fuel2; simpl; destruct (Z.leb_spec max_depth 0); try reflexivity; lia.
  - destruct fuel2 as [|fuel2]; simpl; destruct (Z.leb_spec max_depth 0);
      try reflexivity; try lia.
    destruct (scandir d top) as [entries|]; [|reflexivity].
    apply flat_map_pointwise. intros e. unfold find_entry.
    destruct (de_is_dir e) as [[|]|]; try reflexivity.
    destruct (_ && _ && _); [reflexivity|].
    destruct (_ && _); [reflexivity|].
    f_equal. destruct (_ && skip); [reflexivity|].
    apply IH; lia.
Qed.

End Fuel.

(** ** [Path(entry.path)] is [path / entry.name] *)

Lemma rstrip_sep_plain (x : string) :
  str_contains_char "/" x = false -> rstrip_sep x = x.
Proof.
  induction x as [|c x IH]; simpl; [reflexivity|].
  intros H. apply orb_false_iff in H as [Hc Hx]. unfold is_sep. rewrite Hc. simpl.
  now rewrite IH.
Qed.

Lemma rstrip_sep_app (a : string) (c : ascii) (b : string) :
  rstrip_sep (String c b) = String c b ->
  rstrip_sep (a +:+ String c b) = a +:+ String c b.
Proof.
  intros Hb. induction a as [|c' a IH]; [exact Hb|].
  change (String c' a +:+ String c b) with (String c' (a +:+ String c b)).
  simpl. rewrite IH. rewrite append_nonempty. now rewrite andb_false_r.
Qed.

Lemma str_endswith_sep_rstrip (s : string) :
  rstrip_sep s = s -> str_endswith_sep s = false.
Proof.
  induction s as [|c s IH]; [reflexivity|]. simpl.
  destruct (is_sep c && String.eqb (rstrip_sep s) "") eqn:E; [discriminate|].
  intros H. injection H as H.
  destruct s as [|c' s']; [|now apply IH].
  simpl in E. now rewrite andb_true_r in E.
Qed.

Lemma str_join_rstrip (x : string) (l : list string) :
  Forall wf_component (x :: l) ->
  exists c s, str_join "/" (x :: l) = String c s /\ rstrip_sep (String c s) = String c s.
Proof.
  revert x. induction l as [|y l IH]; intros x H; inversion H as [|? ? Hx Hl]; subst.
  - destruct (wf_component_head x Hx) as (c & x' & -> & _).
    exists c, x'. split; [reflexivity|]. apply rstrip_sep_plain. apply Hx.
  - destruct (IH y Hl) as (c & s & Hj & Hr).
    destruct (wf_component_head x Hx) as (cx & x' & -> & _).
    exists cx, (x' +:+ String "/" (str_join "/" (y :: l))). split; [reflexivity|].
    rewrite Hj.
    change (String cx (x' +:+ String "/" (String c s)))
      with (String cx x' +:+ String "/" (String c s)).
    apply rstrip_sep_app.
    change (rstrip_sep (String "/" (String c s)))
      with (if true && String.eqb (rstrip_sep (String c s)) "" then ""
            else String "/" (rstrip_sep (String c s))).
    now rewrite Hr.
Qed.

Lemma startswith_sep_head (c : ascii) (y : string) :
  startswith "/" (String c y) = is_sep c.
Proof.
  unfold startswith, is_sep. cbn [String.prefix].
  destruct (ascii_dec "/" c) as [<-|Hne].
  - destruct y; reflexivity.
  - symmetry. apply Ascii.eqb_neq. congruence.
Qed.

(** Parsing the [path] of a directory entry gives the directory's path
    extended by the entry's name. *)
Lemma Path_of_entry_path (p : Path) (name : string) :
  wf_path p -> wf_component name ->
  Path_of_str (os_path_join (str p) name) = p // name.
Proof.
  intros Hp Hname.
  destruct (wf_component_head name Hname) as (c & y & -> & Hc).
  pose proof (components_plain _ Hname) as Hcomp.
  unfold os_path_join.
  rewrite startswith_sep_head, Hc.
  destruct p as [r tl]. destruct Hp as [Hr Htl]. simpl in Hr, Htl.
  destruct tl as [|x tl].
  - unfold joinpath, str; simpl.
    destruct Hr as [->|[->| ->]]; simpl; unfold Path_of_str; simpl; rewrite ?Hc; simpl.
    + change ("." +:+ "/" +:+ String c y) with ("." +:+ String "/" (String c y)).
      rewrite components_app, Hcomp. reflexivity.
    + change (("" +:+ "") +:+ String c y) with (String c y). now rewrite Hcomp.
    + change (("" +:+ "") +:+ String c y) with (String c y). now rewrite Hcomp.
  - destruct (str_join_rstrip x tl Htl) as (cj & sj & Hj & Hrs).
    assert (Hstr : str (mkPath r (x :: tl)) = r +:+ String cj sj).
    { unfold str. cbn [root tail]. rewrite Hj. now rewrite append_nonempty. }
    assert (Hrstrip : rstrip_sep (r +:+ String cj sj) = r +:+ String cj sj)
      by now apply rstrip_sep_app.
    pose proof (Path_of_str_str (mkPath r (x :: tl)) (conj Hr Htl)) as Hround.
    rewrite Hstr in *.
    rewrite append_nonempty, (str_endswith_sep_rstrip _ Hrstrip). cbn [orb].
    change ((r +:+ String cj sj) +:+ "/" +:+ String c y)
      with ((r +:+ String cj sj) +:+ String "/" (String c y)).
    rewrite Path_of_str_below by assumption.
    rewrite append_nonempty. cbv zeta. rewrite Hround, Hcomp. reflexivity.
Qed.

(** ** The package's tests, run on the tree *)

Example test_blocks_protected_paths :
  @is_path_safe TreeOS (@Path_home TreeOS) = false
  /\ @is_path_safe TreeOS (@expand_path TreeOS "~/Documents") = false
  /\ @is_path_safe TreeOS (@expand_path TreeOS "~/Desktop") = false
  /\ @is_path_safe TreeOS (Path_of_str "/System") = false
  /\ @is_path_safe TreeOS (Path_of_str "/Library") = false
  /\ @is_path_safe TreeOS (Path_of_str "/Applications") = false.
Proof. repeat split. Qed.

Example test_allows_cache_directory :
  @is_path_safe TreeOS (@expand_path TreeOS "~/Library/Caches/test-app") = true.
Proof. reflexivity. Qed.

Example test_handles_absolute_path :
  str (@expand_path TreeOS "/absolute/path") = "/absolute/path".
Proof. reflexivity. Qed.

Example test_delete_nonexistent_path :
  fst (@delete_path TreeOS (world0 disk_npm) (Path_of_str "/nonexistent/path") false)
  = (0, 0, None).
Proof. reflexivity. Qed.

Example test_valid_request :
  validate_cleanup_request CATEGORIES show_gib ["npm_cache"; "pip_cache"] (1024 * 1024)
  = (true, None).
Proof. reflexivity. Qed.

Example test_invalid_category :
  validate_cleanup_request CATEGORIES show_gib ["nonexistent_category"] 1024
  = (false, Some "Unknown category: nonexistent_category").
Proof. reflexivity. Qed.

Example test_exceeds_size_limit :
  fst (validate_cleanup_request CATEGORIES show_gib ["npm_cache"] (200 * 1024 ^ 3)) = false.
Proof. reflexivity. Qed.

Example test_unknown_category :
  fst (@clean_category TreeOS CATEGORIES (world0 disk_npm) "nonexistent_category" false)
  = Return (mkCleanupResult "nonexistent_category" "" 0 0 false
              (Some "Unknown category: nonexistent_category") false).
Proof. reflexivity. Qed.

Example test_skips_nested_node_modules :
  @find_matching_directories TreeOS disk_projects (Path_of_str "/Users/ada/Code/app")
    "node_modules" 15 true
  = [Path_of_str "/Users/ada/Code/app/node_modules"].
Proof. vm_compute. reflexivity. Qed.

Example test_respects_max_depth :
  @find_matching_directories TreeOS disk_levels (Path_of_str "/tmp") "node_modules" 5 true = []
  /\ List.length (@find_matching_directories TreeOS disk_levels (Path_of_str "/tmp")
                    "node_modules" 25 true) = 1%nat.
Proof. split; vm_compute; reflexivity. Qed.

Example test_respects_min_size :
  fst (@scan_recursive_category TreeOS (world0 disk_projects)
         (mkCategory "node_modules" "Node Modules" [] SAFE ["**/node_modules"]
            ["/Users/ada/Code"] true (1024 * 1024) None)) = [].
Proof. vm_compute. reflexivity. Qed.

Example test_scans_recursive_category :
  map sr_path
    (fst (@scan_recursive_category TreeOS (world0 disk_projects)
            (mkCategory "node_modules" "Node Modules" [] SAFE ["**/node_modules"]
               ["/Users/ada/Code"; "/Users/ada/Code/lib"] true 0 None)))
  = ["/Users/ada/Code/lib/node_modules"; "/Users/ada/Code/app/node_modules"].
Proof. vm_compute. reflexivity. Qed.

Example test_multiple_results :
  let a := mkScanResult "test" "Test" "/test1" 1000 5 2 SAFE true None in
  let b := mkScanResult "test" "Test" "/test2" 2000 10 3 SAFE true None in
  aggregate_category_results [a; b]
  = Some (mkScanResult "test" "Test" "/test1" 3000 15 5 SAFE true None).
Proof. reflexivity. Qed.

(* ===================================================================== *)
(** * Further properties of the package *)
(* ===================================================================== *)

(** ** Sorting by size, largest first *)

Lemma insert_desc_perm (r : ScanResult) (l : list ScanResult) :
  Permutation (insert_desc r l) (r :: l).
Proof.
  induction l as [|y l IH]; simpl; [reflexivity|].
  destruct (sr_size_bytes y >? sr_size_bytes r); [|reflexivity].
  rewrite IH. apply perm_swap.
Qed.

Lemma sort_desc_perm (l : list ScanResult) : Permutation (sort_desc l) l.
Proof.
  induction l as [|r l IH]; simpl; [reflexivity|].
  unfold sort_desc in *. simpl. rewrite insert_desc_perm. now constructor.
Qed.

Lemma insert_desc_sorted (r : ScanResult) (l : list ScanResult) :
  StronglySorted (fun a b => sr_size_bytes b <= sr_size_bytes a) l ->
  StronglySorted (fun a b => sr_size_bytes b <= sr_size_bytes a) (insert_desc r l).
Proof.
  induction 1 as [|y l Hl IH Hy]; simpl.
  - repeat constructor.
  - destruct (Z.gtb_spec (sr_size_bytes y) (sr_size_bytes r)) as [Hgt|Hle].
    + constructor; [exact IH|].
      rewrite List.Forall_forall. intros x Hx.
      apply (Permutation_in _ (insert_desc_perm r l)) in Hx as [<-|Hx]; [lia|].
      rewrite List.Forall_forall in Hy. now apply Hy.
    + constructor; [now constructor|].
      constructor; [exact Hle|].
      rewrite List.Forall_forall in *. intros x Hx. specialize (Hy x Hx). lia.
Qed.

Lemma sort_desc_sorted (l : list ScanResult) :
  StronglySorted (fun a b => sr_size_bytes b <= sr_size_bytes a) (sort_desc l).
Proof.
  induction l as [|r l IH]; [constructor|].
  unfold sort_desc in *. simpl. now apply insert_desc_sorted.
Qed.

Lemma sum_Z_app (l1 l2 : list Z) : sum_Z (l1 ++ l2) = sum_Z l1 + sum_Z l2.
Proof.
  induction l1 as [|x l1 IH]; [reflexivity|].
  change ((x :: l1) ++ l2) with (x :: (l1 ++ l2)). rewrite !sum_Z_cons, IH. lia.
Qed.

Lemma sum_Z_nonneg (l : list Z) : Forall (fun x => 0 <= x) l -> 0 <= sum_Z l.
Proof.
  induction 1 as [|x l Hx _ IH]; [reflexivity|]. rewrite sum_Z_cons. lia.
Qed.

(** ** models.py and analyzer.py *)

Lemma positive_sizes_nonneg (f : ScanResult -> bool) (l : list ScanResult) :
  (forall r, f r = true -> 0 < sr_size_bytes r) ->
  Forall (fun x => 0 <= x) (map sr_size_bytes (List.filter f l)).
Proof.
  intros Hf. rewrite List.Forall_forall. intros x Hx.
  apply List.in_map_iff in Hx as (r & <- & Hr).
  apply List.filter_In in Hr as [_ Hr]. apply Hf in Hr. lia.
Qed.

Lemma level_positive (level : RiskLevel) (r : ScanResult) :
  RiskLevel_eqb (sr_risk_level r) level && (sr_size_bytes r >? 0) = true ->
  0 < sr_size_bytes r.
Proof.
  intros H. apply andb_true_iff in H as [_ H].
  destruct (Z.gtb_spec (sr_size_bytes r) 0); [lia|discriminate].
Qed.

Lemma sizes_by_risk (results : list ScanResult) :
  sum_Z (map sr_size_bytes (List.filter (fun r => sr_size_bytes r >? 0) results))
  = sum_Z (map sr_size_bytes
             (List.filter (fun r => RiskLevel_eqb (sr_risk_level r) SAFE
                                    && (sr_size_bytes r >? 0)) results))
    + sum_Z (map sr_size_bytes
               (List.filter (fun r => RiskLevel_eqb (sr_risk_level r) REVIEW
                                      && (sr_size_bytes r >? 0)) results))
    + sum_Z (map sr_size_bytes
               (List.filter (fun r => RiskLevel_eqb (sr_risk_level r) RISKY
                                      && (sr_size_bytes r >? 0)) results)).
Proof.
  induction results as [|r results IH]; [reflexivity|].
  cbn [List.filter].
  destruct (sr_size_bytes r >? 0); [|rewrite !andb_false_r; exact IH].
  rewrite !andb_true_r.
  destruct (sr_risk_level r); cbn [RiskLevel_eqb map]; rewrite !sum_Z_cons; lia.
Qed.

(** X1. The three risk levels split what can be cleaned: the bytes of all
    results of positive size are the safe bytes, the review bytes and the
    bytes of the risky items together. *)
Theorem total_cleanable_bytes_split :
  forall analysis,
    total_cleanable_bytes analysis =
    total_safe_bytes analysis + total_review_bytes analysis
    + sum_Z (map sr_size_bytes (risky_items analysis)).
Proof.
  intros analysis.
  unfold total_cleanable_bytes, total_safe_bytes, total_review_bytes,
    safe_items, review_items, risky_items.
  apply sizes_by_risk.
Qed.

(** X2. [estimate_cleanup_savings] is never negative, grows when review
    items are included and never exceeds [total_cleanable_bytes]. *)
Theorem estimate_cleanup_savings_bounds :
  forall analysis,
    0 <= estimate_cleanup_savings analysis false
    /\ estimate_cleanup_savings analysis false <= estimate_cleanup_savings analysis true
    /\ estimate_cleanup_savings analysis true <= total_cleanable_bytes analysis.
Proof.
  intros analysis. unfold estimate_cleanup_savings.
  assert (Hsplit : total_cleanable_bytes analysis
                   = total_safe_bytes analysis + total_review_bytes analysis
                     + sum_Z (map sr_size_bytes (risky_items analysis)))
    by apply sizes_by_risk.
  rewrite Hsplit.
  assert (0 <= total_safe_bytes analysis)
    by (apply sum_Z_nonneg, positive_sizes_nonneg, level_positive).
  assert (0 <= total_review_bytes analysis)
    by (apply sum_Z_nonneg, positive_sizes_nonneg, level_positive).
  assert (0 <= sum_Z (map sr_size_bytes (risky_items analysis)))
    by (apply sum_Z_nonneg, positive_sizes_nonneg, level_positive).
  lia.
Qed.

Lemma StronglySorted_app_inv {A : Type} (R : A -> A -> Prop) (l1 l2 : list A) :
  StronglySorted R (l1 ++ l2) ->
  StronglySorted R l1 /\ (forall x y, In x l1 -> In y l2 -> R x y).
Proof.
  induction l1 as [|a l1 IH]; simpl; intros H.
  - split; [constructor|contradiction].
  - inversion H as [|? ? Hs Ha]; subst. destruct (IH Hs) as [Hs1 Hcross].
    rewrite List.Forall_forall in Ha. split.
    + constructor; [exact Hs1|]. rewrite List.Forall_forall. intros x Hx.
      apply Ha. apply List.in_or_app. now left.
    + intros x y [<-|Hx] Hy; [|now apply Hcross].
      apply Ha. apply List.in_or_app. now right.
Qed.

(** X3. For a non-negative [top_n], [get_category_by_size] returns the
    [top_n] largest results of positive size (all of them when there are
    fewer), largest first: what it leaves out is no larger than anything it
    returns. *)
Theorem get_category_by_size_largest :
  forall analysis top_n,
    0 <= top_n ->
    let positive := List.filter (fun r => sr_size_bytes r >? 0) (an_scan_results analysis) in
    let top := get_category_by_size analysis top_n in
    exists rest,
      Permutation (top ++ rest) positive
      /\ List.length top = Nat.min (Z.to_nat top_n) (List.length positive)
      /\ StronglySorted (fun a b => sr_size_bytes b <= sr_size_bytes a) top
      /\ (forall x y, In x top -> In y rest -> sr_size_bytes y <= sr_size_bytes x).
Proof.
  intros analysis top_n Hn positive top.
  unfold top, get_category_by_size, slice_to. fold positive.
  destruct (Z.leb_spec 0 top_n); [|lia].
  exists (skipn (Z.to_nat top_n) (sort_desc positive)).
  pose proof (sort_desc_sorted positive) as Hs.
  rewrite <- (List.firstn_skipn (Z.to_nat top_n) (sort_desc positive)) in Hs.
  apply StronglySorted_app_inv in Hs as [Hs Hcross].
  split; [rewrite List.firstn_skipn; apply sort_desc_perm|].
  split; [|split; assumption].
  rewrite List.length_firstn. now rewrite (Permutation_length (sort_desc_perm positive)).
Qed.

Lemma get_category_by_size_largest_witness :
  let a := mkScanResult "a" "A" "/a" 100 0 0 SAFE true None in
  let b := mkScanResult "b" "B" "/b" 300 0 0 REVIEW true None in
  let c := mkScanResult "c" "C" "/c" 0 0 0 SAFE true None in
  let d := mkScanResult "d" "D" "/d" 200 0 0 SAFE true None in
  let analysis := mkAnalysis 0%float (mkDiskUsage 1000 600 400 "/") [a; b; c; d] in
  0 <= 2
  /\ get_category_by_size analysis 2 = [b; d]
  /\ exists rest, Permutation (get_category_by_size analysis 2 ++ rest) [a; b; d].
Proof.
  intros a b c d analysis.
  assert (H : 0 <= 2) by lia.
  split; [exact H|]. split; [reflexivity|].
  destruct (get_category_by_size_largest analysis 2 H) as (rest & Hperm & _).
  exists rest. exact Hperm.
Defined.

(** X4. [get_safe_cleanup_targets] rearranges the safe items, and nothing
    else, largest first: every target is [SAFE] with a positive size. *)
Theorem get_safe_cleanup_targets_sorted_safe :
  forall analysis,
    Permutation (get_safe_cleanup_targets analysis) (safe_items analysis)
    /\ StronglySorted (fun a b => sr_size_bytes b <= sr_size_bytes a)
         (get_safe_cleanup_targets analysis)
    /\ Forall (fun r => sr_risk_level r = SAFE /\ 0 < sr_size_bytes r
                        /\ In r (an_scan_results analysis))
         (get_safe_cleanup_targets analysis).
Proof.
  intros analysis. unfold get_safe_cleanup_targets.
  split; [apply sort_desc_perm|]. split; [apply sort_desc_sorted|].
  rewrite List.Forall_forall. intros r Hr.
  apply (Permutation_in _ (sort_desc_perm _)) in Hr.
  unfold safe_items in Hr. apply List.filter_In in Hr as [Hin Hr].
  pose proof (level_positive _ _ Hr) as Hpos.
  apply andb_true_iff in Hr as [Hl _].
  repeat split; try assumption. now destruct (sr_risk_level r).
Qed.

(** X5. Filtering by a minimum size twice is filtering once by the larger
    minimum. *)
Theorem filter_by_minimum_size_twice :
  forall results a b,
    filter_by_minimum_size (filter_by_minimum_size results a) b
    = filter_by_minimum_size results (Z.max a b).
Proof.
  intros results a b. unfold filter_by_minimum_size.
  induction results as [|r results IH]; [reflexivity|]. cbn [List.filter].
  destruct (Z.geb_spec (sr_size_bytes r) a) as [Ha|Ha]; cbn [List.filter];
    destruct (Z.geb_spec (sr_size_bytes r) b) as [Hb|Hb];
    destruct (Z.geb_spec (sr_size_bytes r) (Z.max a b)) as [Hm|Hm];
    try lia; now rewrite IH.
Qed.

Lemma count_ones (A : Type) (l : list A) :
  sum_Z (map (fun _ => 1) l) = Z.of_nat (List.length l).
Proof.
  induction l as [|x l IH]; [reflexivity|].
  cbn [map List.length]. rewrite sum_Z_cons, IH. lia.
Qed.

(** X6. In a [CleanupSession] every result is counted once, as a success or
    as a failure, and the bytes of failed results are not counted as
    freed. *)
Theorem cleanup_session_counts :
  forall session,
    success_count session + failure_count session
    = Z.of_nat (List.length (cs_results session))
    /\ (Forall (fun r => cr_success r = false) (cs_results session) ->
        total_bytes_freed session = 0).
Proof.
  intros [id ts results before after].
  unfold success_count, failure_count, total_bytes_freed. cbn [cs_results].
  rewrite !count_ones. split.
  - induction results as [|r results IH]; [reflexivity|].
    cbn [List.filter List.length]. destruct (cr_success r); cbn [negb List.length]; lia.
  - induction 1 as [|r results Hr _ IH]; [reflexivity|].
    cbn [List.filter]. now rewrite Hr.
Qed.

(** ** recursive_scanner.py: what [find_matching_directories] yields *)

Section DiscoveryMore.
Context `{os : OS}.

Lemma str_in_In (x : string) (l : list string) : str_in x l = true <-> In x l.
Proof.
  unfold str_in. rewrite List.existsb_exists. split.
  - intros (y & Hy & E). apply String.eqb_eq in E. now subst.
  - intros H. exists x. split; [assumption|apply String.eqb_refl].
Qed.

Lemma find_entry_passable (pattern name : string) (skip : bool) :
  startswith "." name && negb (String.eqb name pattern)
  && (negb (str_in name [".venv"; ".virtualenv"])
      || negb (str_in pattern [".venv"; ".virtualenv"])) = false ->
  str_in name SKIP_DIRECTORIES && negb (String.eqb name pattern) = false ->
  String.eqb name pattern && skip = false ->
  passable pattern skip name.
Proof.
  intros HA HB HC. unfold passable.
  destruct (String.eqb_spec name pattern) as [Heq|Hne].
  - left. split; [assumption|]. exact HC.
  - right. split; [assumption|]. cbn [negb] in HA, HB.
    rewrite andb_true_r in HA, HB. split; [exact HB|].
    destruct (startswith "." name); [right|now left]. cbn [andb] in HA.
    apply orb_false_iff in HA as [Hn Hp].
    apply negb_false_iff in Hn, Hp. apply str_in_In in Hn, Hp.
    destruct Hn as [<-|[<-|[]]]; [discriminate HB|].
    destruct Hp as [<-|[<-|[]]]; [auto|contradiction].
Qed.

Lemma find_matching_fuel_path (pattern : string) (skip : bool) (d : Disk) (fuel : nat) :
  forall top max_depth found,
    In found (find_matching_fuel fuel d top pattern max_depth skip) ->
    root found = root top
    /\ exists between,
         tail found = tail top ++ between ++ [pattern]
         /\ Z.of_nat (List.length between) < max_depth
         /\ Forall (passable pattern skip) between.
Proof.
  induction fuel as [|fuel IH]; intros top max_depth found; simpl.
  - destruct (max_depth <=? 0); contradiction.
  - destruct (Z.leb_spec max_depth 0) as [|Hpos]; [contradiction|].
    destruct (scandir d top) as [entries|]; [|contradiction].
    rewrite in_flat_map. intros (entry & _ & Hin).
    unfold find_entry in Hin.
    destruct (de_is_dir entry) as [[|]|]; try contradiction.
    destruct (_ && _ && _) eqn:HA; [contradiction|].
    destruct (str_in (de_name entry) SKIP_DIRECTORIES && _) eqn:HB; [contradiction|].
    apply List.in_app_or in Hin as [Hhere|Hbelow].
    + destruct (String.eqb_spec (de_name entry) pattern) as [Heq|]; [|contradiction].
      destruct Hhere as [<-|[]]. split; [reflexivity|].
      exists []. simpl. rewrite Heq. repeat split; [lia|constructor].
    + destruct (String.eqb (de_name entry) pattern && skip) eqn:HC; [contradiction|].
      apply IH in Hbelow as (Hroot & between & Htail & Hlen & Hpass).
      split; [exact Hroot|].
      exists (de_name entry :: between). split; [|split].
      * rewrite Htail. simpl. now rewrite <- List.app_assoc.
      * simpl List.length. lia.
      * constructor; [|exact Hpass]. now apply find_entry_passable.
Qed.

(** X7. Whatever [skip_inside_match] is, a path yielded by
    [find_matching_directories] lies below the root, its last component is
    the pattern, and it is at most [max_depth] levels below the root; a
    [max_depth] of zero or less yields nothing. *)
Theorem find_matching_directories_depth :
  forall (d : Disk) top pattern max_depth skip,
    (max_depth <= 0 -> find_matching_directories d top pattern max_depth skip = [])
    /\ (forall found,
          In found (find_matching_directories d top pattern max_depth skip) ->
          root found = root top
          /\ exists between,
               tail found = tail top ++ between ++ [pattern]
               /\ Z.of_nat (List.length between) < max_depth).
Proof.
  intros d top pattern max_depth skip. split.
  - intros H. unfold find_matching_directories.
    destruct (Z.to_nat max_depth); simpl; destruct (Z.leb_spec max_depth 0);
      try reflexivity; lia.
  - intros found H. apply find_matching_fuel_path in H as (Hr & between & Ht & Hl & _).
    eauto.
Qed.

(** X8. With [skip_inside_match] on, the walk reaches a match only through
    directories that are not called like the pattern, are not on
    [SKIP_DIRECTORIES] and are not hidden (a [.virtualenv] is entered when
    [.venv] is searched): nothing is ever found inside [.git], [Library],
    [node_modules] and the like. *)
Theorem find_matching_directories_pruned :
  forall (d : Disk) top pattern max_depth found,
    In found (find_matching_directories d top pattern max_depth true) ->
    exists between,
      tail found = tail top ++ between ++ [pattern]
      /\ Forall (fun name =>
                   name <> pattern
                   /\ ~ In name SKIP_DIRECTORIES
                   /\ (startswith "." name = false
                       \/ (name = ".virtualenv" /\ pattern = ".venv")))
                between.
Proof.
  intros d top pattern max_depth found H.
  apply find_matching_fuel_path in H as (_ & between & Ht & _ & Hp).
  exists between. split; [exact Ht|].
  rewrite List.Forall_forall in *. intros name Hn.
  destruct (Hp name Hn) as [[_ Hf]|(Hne & Hs & Hh)]; [discriminate|].
  repeat split; try assumption.
  intros Hin. apply str_in_In in Hin. congruence.
Qed.

Lemma find_matching_fuel_mono (pattern : string) (skip : bool) (d : Disk) (fuel : nat) :
  forall top m m' found,
    (Z.to_nat m <= fuel)%nat -> m <= m' ->
    In found (find_matching_fuel fuel d top pattern m skip) ->
    In found (find_matching_fuel (Z.to_nat m') d top pattern m' skip).
Proof.
  induction fuel as [|fuel IH]; intros top m m' found Hfuel Hm; simpl.
  - destruct (m <=? 0); contradiction.
  - destruct (Z.leb_spec m 0) as [|Hpos]; [contradiction|].
    replace (Z.to_nat m') with (S (Z.to_nat (m' - 1))) by lia. simpl.
    destruct (Z.leb_spec m' 0); [lia|].
    destruct (scandir d top) as [entries|]; [|contradiction].
    rewrite !in_flat_map. intros (entry & Hentry & Hin). exists entry.
    split; [exact Hentry|].
    unfold find_entry in *.
    destruct (de_is_dir entry) as [[|]|]; try contradiction.
    destruct (_ && _ && _); [contradiction|].
    destruct (str_in (de_name entry) SKIP_DIRECTORIES && _); [contradiction|].
    apply List.in_app_or in Hin as [Hhere|Hbelow]; apply List.in_or_app;
      [now left|right].
    destruct (String.eqb (de_name entry) pattern && skip); [contradiction|].
    apply (IH _ (m - 1) (m' - 1)); [lia|lia|exact Hbelow].
Qed.

(** X9. Raising [max_depth] never loses a match. *)
Theorem find_matching_directories_monotone :
  forall (d : Disk) top pattern m m' skip found,
    m <= m' ->
    In found (find_matching_directories d top pattern m skip) ->
    In found (find_matching_directories d top pattern m' skip).
Proof.
  intros d top pattern m m' skip found Hm H. unfold find_matching_directories in *.
  now apply (find_matching_fuel_mono pattern skip d (Z.to_nat m) top m m').
Qed.

End DiscoveryMore.

(** The match under ada's [lib]: one level below [Code]. *)
Lemma find_matching_directories_depth_witness :
  let found := Path_of_str "/Users/ada/Code/lib/node_modules" in
  let top := Path_of_str "/Users/ada/Code" in
  @find_matching_directories TreeOS disk_projects top "node_modules" 0 true = []
  /\ In found (@find_matching_directories TreeOS disk_projects top "node_modules" 2 true)
  /\ exists between,
       tail found = tail top ++ between ++ ["node_modules"]
       /\ Z.of_nat (List.length between) < 2.
Proof.
  intros found top.
  assert (H2 : In found (@find_matching_directories TreeOS disk_projects top
                           "node_modules" 2 true))
    by (vm_compute; auto).
  split; [|split; [exact H2|]].
  - apply (proj1 (@find_matching_directories_depth TreeOS disk_projects top
                    "node_modules" 0 true)). lia.
  - destruct (proj2 (@find_matching_directories_depth TreeOS disk_projects top
                       "node_modules" 2 true) found H2) as (_ & between & Ht & Hl).
    eauto.
Defined.

Lemma find_matching_directories_pruned_witness :
  let found := Path_of_str "/Users/ada/Code/app/node_modules" in
  let top := Path_of_str "/Users/ada" in
  In found (@find_matching_directories TreeOS disk_projects top "node_modules" 15 true)
  /\ exists between,
       tail found = tail top ++ between ++ ["node_modules"]
       /\ Forall (fun name => name <> "node_modules"
                              /\ ~ In name SKIP_DIRECTORIES
                              /\ (startswith "." name = false
                                  \/ (name = ".virtualenv" /\ "node_modules" = ".venv")))
                 between.
Proof.
  intros found top.
  assert (H : In found (@find_matching_directories TreeOS disk_projects top
                          "node_modules" 15 true))
    by (vm_compute; auto).
  split; [exact H|].
  exact (@find_matching_directories_pruned TreeOS disk_projects top "node_modules" 15
           found H).
Defined.

(** Found with a bound of 2, and so with the default bound of 15. *)
Lemma find_matching_directories_monotone_witness :
  let found := Path_of_str "/Users/ada/Code/lib/node_modules" in
  let top := Path_of_str "/Users/ada/Code" in
  2 <= 15
  /\ In found (@find_matching_directories TreeOS disk_projects top "node_modules" 2 true)
  /\ In found (@find_matching_directories TreeOS disk_projects top "node_modules" 15 true).
Proof.
  intros found top.
  assert (H2 : In found (@find_matching_directories TreeOS disk_projects top
                           "node_modules" 2 true))
    by (vm_compute; auto).
  assert (Hm : 2 <= 15) by lia.
  split; [exact Hm|]. split; [exact H2|].
  exact (@find_matching_directories_monotone TreeOS disk_projects top "node_modules"
           2 15 true found Hm H2).
Defined.

(** ** recursive_scanner.py: [scan_recursive_category] *)

Section RecursiveScan.
Context `{os : OS}.

Lemma fold_left_invariant {A B : Type} (P : A -> Prop) (f : A -> B -> A) (l : list B) :
  (forall a b, P a -> P (f a b)) -> forall a, P a -> P (fold_left f l a).
Proof.
  intros Hf. induction l as [|b l IH]; intros a Ha; simpl; [exact Ha|].
  apply IH. now apply Hf.
Qed.

Lemma scan_found_invariant (category : Category) (d0 : Disk) st (found_dir : Path) :
  scan_invariant category d0 st -> scan_invariant category d0 (scan_found category st found_dir).
Proof.
  destruct st as [[results seen] w]. intros (Hd & Hgood & Hnd & Hseen).
  cbn [fst snd] in *. unfold scan_found.
  destruct (bool_decide (str found_dir ∈ seen)) eqn:Hin.
  { repeat split; assumption. }
  apply bool_decide_eq_false in Hin.
  pose proof (get_directory_size_cached_disk w found_dir 20) as Hdisk.
  unfold get_directory_size.
  destruct (get_directory_size_cached w found_dir 20) as [[[size fc] dc] w'].
  cbn [snd] in Hdisk.
  destruct (Z.ltb_spec size (c_min_size_bytes category)) as [Hlt|Hge];
    unfold scan_invariant; cbn [fst snd].
  - repeat split; try assumption; [congruence|].
    intros r Hr. specialize (Hseen r Hr). set_solver.
  - split; [congruence|]. split; [|split].
    + apply List.Forall_app. split; [assumption|].
      constructor; [|constructor]. unfold found_for. cbn. repeat split; auto.
    + rewrite List.map_app. cbn [map sr_path].
      apply NoDup_app. split; [assumption|]. split.
      * intros p Hp Hp'. apply list_elem_of_In in Hp, Hp'.
        destruct Hp' as [<-|[]].
        apply List.in_map_iff in Hp as (r & Hr & Hrin).
        specialize (Hseen r Hrin). rewrite Hr in Hseen. contradiction.
      * apply NoDup_singleton.
    + intros r Hr. apply List.in_app_or in Hr as [Hr|[<-|[]]].
      * specialize (Hseen r Hr). set_solver.
      * cbn. set_solver.
Qed.

Lemma scan_pattern_invariant (category : Category) (d0 : Disk) (root_path : Path) st
    (pattern : string) :
  scan_invariant category d0 st ->
  scan_invariant category d0 (scan_pattern category root_path st pattern).
Proof.
  intros H. unfold scan_pattern. apply fold_left_invariant; [|exact H].
  intros a b. apply scan_found_invariant.
Qed.

Lemma scan_root_invariant (category : Category) (d0 : Disk) st (search_root : string) :
  scan_invariant category d0 st ->
  scan_invariant category d0 (scan_root category st search_root).
Proof.
  intros H. unfold scan_root.
  destruct (_ || _); [exact H|].
  apply fold_left_invariant; [|exact H].
  intros a b. apply scan_pattern_invariant.
Qed.

Lemma scan_recursive_category_invariant (w : World) (category : Category) :
  disk (snd (scan_recursive_category w category)) = disk w
  /\ Forall (found_for category) (fst (scan_recursive_category w category))
  /\ NoDup (map sr_path (fst (scan_recursive_category w category))).
Proof.
  unfold scan_recursive_category.
  destruct (c_is_recursive category); cbn [negb].
  2:{ repeat split; constructor. }
  assert (H : scan_invariant category (disk w)
                (fold_left (scan_root category) (c_search_roots category) ([], ∅, w))).
  { apply fold_left_invariant; [intros a b; apply scan_root_invariant|].
    unfold scan_invariant; cbn. repeat split; try constructor. intros r []. }
  destruct (fold_left (scan_root category) (c_search_roots category) ([], ∅, w))
    as [[results seen] w'].
  destruct H as (Hd & Hgood & Hnd & _). cbn [fst snd] in *.
  split; [exact Hd|]. split.
  - rewrite List.Forall_forall in *. intros r Hr. apply Hgood.
    now apply (Permutation_in _ (sort_desc_perm results)).
  - apply NoDup_ListNoDup.
    apply (Permutation_NoDup (Permutation_sym (Permutation_map sr_path (sort_desc_perm results)))).
    now apply NoDup_ListNoDup.
Qed.

(** X10. [scan_recursive_category] leaves the disk as it is and returns its
    results by size, largest first; each carries the category's id, name and
    risk level, exists, has no error and is at least [min_size_bytes]
    large. *)
Theorem scan_recursive_category_results :
  forall (w : World) category,
    disk (snd (scan_recursive_category w category)) = disk w
    /\ StronglySorted (fun a b => sr_size_bytes b <= sr_size_bytes a)
         (fst (scan_recursive_category w category))
    /\ Forall (fun r =>
                 sr_category_id r = c_id category
                 /\ sr_category_name r = c_name category
                 /\ sr_risk_level r = c_risk_level category
                 /\ sr_exists r = true
                 /\ sr_error r = None
                 /\ c_min_size_bytes category <= sr_size_bytes r)
         (fst (scan_recursive_category w category)).
Proof.
  intros w category.
  destruct (scan_recursive_category_invariant w category) as (Hd & Hgood & _).
  split; [exact Hd|]. split; [|exact Hgood].
  unfold scan_recursive_category.
  destruct (c_is_recursive category); cbn [negb fst]; [|constructor].
  destruct (fold_left _ _ _) as [[results seen] w']. cbn [fst].
  apply sort_desc_sorted.
Qed.

(** X11. No directory is reported twice by [scan_recursive_category], also
    when search roots overlap or several patterns match it. *)
Theorem scan_recursive_category_no_duplicates :
  forall (w : World) category,
    List.NoDup (map sr_path (fst (scan_recursive_category w category))).
Proof.
  intros w category. apply NoDup_ListNoDup.
  apply (scan_recursive_category_invariant w category).
Qed.

End RecursiveScan.

(** ** recursive_scanner.py: [aggregate_recursive_results] *)

Lemma max_by_size_spec (first : ScanResult) (rest : list ScanResult) :
  In (max_by_size first rest) (first :: rest)
  /\ forall r, In r (first :: rest) ->
               sr_size_bytes r <= sr_size_bytes (max_by_size first rest).
Proof.
  revert first. induction rest as [|x rest IH]; intros first; simpl.
  - split; [auto|]. intros r [<-|[]]. lia.
  - destruct (Z.gtb_spec (sr_size_bytes x) (sr_size_bytes first)) as [Hgt|Hle];
      [destruct (IH x) as [Hin Hmax]|destruct (IH first) as [Hin Hmax]];
      simpl in Hin, Hmax.
    + split; [tauto|]. intros r [<-|[<-|Hr]]; auto.
      specialize (Hmax x (or_introl eq_refl)). lia.
    + split; [tauto|]. intros r [<-|[<-|Hr]]; auto.
      specialize (Hmax first (or_introl eq_refl)). lia.
Qed.

Lemma max_by_size_sorted (first : ScanResult) (rest : list ScanResult) :
  StronglySorted (fun a b => sr_size_bytes b <= sr_size_bytes a) (first :: rest) ->
  max_by_size first rest = first.
Proof.
  revert first. induction rest as [|x rest IH]; intros first H; [reflexivity|].
  simpl. inversion H as [|? ? Hs Hall]; subst.
  inversion Hall as [|? ? Hx Hrest]; subst.
  destruct (Z.gtb_spec (sr_size_bytes x) (sr_size_bytes first)); [lia|].
  apply IH. constructor; [|exact Hrest]. now inversion Hs.
Qed.

(** X12. [aggregate_recursive_results] gives nothing for no results, and
    otherwise one result that exists, whose size and counts are the sums and
    whose path is the path of a largest result, followed by the number of
    the others when there are any; for results sorted by size, as
    [scan_recursive_category] returns them, that is the path of the first. *)
Theorem aggregate_recursive_results_summary :
  forall results category,
    (aggregate_recursive_results results category = None <-> results = [])
    /\ (forall agg,
          aggregate_recursive_results results category = Some agg ->
          sr_exists agg = true
          /\ sr_size_bytes agg = total (map sr_size_bytes results)
          /\ sr_file_count agg = total (map sr_file_count results)
          /\ sr_dir_count agg = total (map sr_dir_count results)
          /\ exists largest,
               In largest results
               /\ (forall r, In r results -> sr_size_bytes r <= sr_size_bytes largest)
               /\ (StronglySorted (fun a b => sr_size_bytes b <= sr_size_bytes a) results ->
                   List.head results = Some largest)
               /\ sr_path agg =
                  match results with
                  | [_] => sr_path largest
                  | _ => sr_path largest +:+ " (+"
                         +:+ str_of_int (Z.of_nat (List.length results) - 1) +:+ " more)"
                  end).
Proof.
  intros results category. destruct results as [|first rest].
  - split; [split; reflexivity|]. discriminate.
  - split; [split; discriminate|]. intros agg H.
    unfold aggregate_recursive_results in H. injection H as <-.
    cbn [sr_exists sr_size_bytes sr_file_count sr_dir_count sr_path].
    rewrite !sum_Z_fold_right. repeat split.
    destruct (max_by_size_spec first rest) as [Hin Hmax].
    exists (max_by_size first rest). repeat split; try assumption.
    + intros Hs. now rewrite (max_by_size_sorted first rest Hs).
    + destruct rest as [|x rest]; [reflexivity|].
      match goal with
      | |- context [?n >? 1] => destruct (Z.gtb_spec n 1) as [_|Hle]
      end; [reflexivity|cbn [List.length] in Hle; lia].
Qed.

Lemma aggregate_recursive_results_summary_witness :
  let a := mkScanResult "node_modules" "Node Modules" "/Users/ada/Code/lib/node_modules"
             4 1 0 SAFE true None in
  let b := mkScanResult "node_modules" "Node Modules" "/Users/ada/Code/app/node_modules"
             3 1 2 SAFE true None in
  let category := mkCategory "node_modules" "Node Modules" [] SAFE ["**/node_modules"]
                    dev_search_roots true 0 None in
  exists agg,
    aggregate_recursive_results [a; b] category = Some agg
    /\ sr_size_bytes agg = 7
    /\ sr_category_name agg = "Node Modules (2 found)"
    /\ sr_path agg = "/Users/ada/Code/lib/node_modules (+1 more)".
Proof.
  intros a b category.
  destruct (aggregate_recursive_results [a; b] category) as [agg|] eqn:E;
    [|discriminate].
  exists agg. split; [reflexivity|].
  destruct (proj2 (aggregate_recursive_results_summary [a; b] category) agg E)
    as (_ & Hsize & _).
  split; [exact Hsize|]. injection E as <-. split; reflexivity.
Defined.

(** ** scanner.py: [scan_path], [scan_category], [quick_scan] *)

Section ScannerMore.
Context `{os : OS}.
Variable registry : list (string * Category).
Variable get_docker_breakdown : Disk -> option docker_breakdown.
Variable scan_all_categories : World -> list ScanResult * World.

Lemma scan_path_frame (w : World) (path : string) (category : Category) :
  disk (snd (scan_path w path category)) = disk w
  /\ sr_path (fst (scan_path w path category)) = str (expand_path path)
  /\ sr_category_id (fst (scan_path w path category)) = c_id category
  /\ sr_category_name (fst (scan_path w path category)) = c_name category
  /\ sr_risk_level (fst (scan_path w path category)) = c_risk_level category.
Proof.
  unfold scan_path.
  destruct (path_exists (disk w) (expand_path path)); cbn [negb];
    [|cbn; repeat split].
  destruct (path_is_file (disk w) (expand_path path)).
  { destruct (path_st_size (disk w) (expand_path path)); cbn; repeat split. }
  destruct (path_is_dir (disk w) (expand_path path)); [|cbn; repeat split].
  pose proof (get_directory_size_cached_disk w (expand_path path) 20) as Hd.
  unfold get_directory_size.
  destruct (get_directory_size_cached w (expand_path path) 20) as [[[size fc] dc] w'].
  cbn in *. repeat split. exact Hd.
Qed.

(** X13. [scan_path] leaves the disk as it is; its result carries the
    expanded path and the category's id, name and risk level; a path that
    does not exist is reported as such; and a result that does not exist or
    has an error has size and counts zero. *)
Theorem scan_path_result :
  forall (w : World) path category,
    disk (snd (scan_path w path category)) = disk w
    /\ sr_path (fst (scan_path w path category)) = str (expand_path path)
    /\ sr_category_id (fst (scan_path w path category)) = c_id category
    /\ sr_category_name (fst (scan_path w path category)) = c_name category
    /\ sr_risk_level (fst (scan_path w path category)) = c_risk_level category
    /\ (path_exists (disk w) (expand_path path) = false ->
        sr_exists (fst (scan_path w path category)) = false)
    /\ (sr_exists (fst (scan_path w path category)) = false
        \/ sr_error (fst (scan_path w path category)) <> None ->
        sr_size_bytes (fst (scan_path w path category)) = 0
        /\ sr_file_count (fst (scan_path w path category)) = 0
        /\ sr_dir_count (fst (scan_path w path category)) = 0).
Proof.
  intros w path category. unfold scan_path.
  destruct (path_exists (disk w) (expand_path path)); cbn [negb].
  2:{ cbn. repeat split; auto. }
  destruct (path_is_file (disk w) (expand_path path)).
  { destruct (path_st_size (disk w) (expand_path path)); cbn.
    - repeat (split; [first [reflexivity|discriminate]|]).
      intros [?|?]; [discriminate|congruence].
    - repeat (split; [first [reflexivity|discriminate]|]). auto. }
  destruct (path_is_dir (disk w) (expand_path path)).
  2:{ cbn. repeat (split; [first [reflexivity|discriminate]|]). auto. }
  pose proof (get_directory_size_cached_disk w (expand_path path) 20) as Hd.
  unfold get_directory_size.
  destruct (get_directory_size_cached w (expand_path path) 20) as [[[size fc] dc] w'].
  cbn in *. split; [exact Hd|].
  repeat (split; [first [reflexivity|discriminate]|]).
  intros [?|?]; [discriminate|congruence].
Qed.

Lemma scan_paths_loop (category : Category) (paths : list string) :
  forall (st : list ScanResult * World),
    let st' := fold_left (fun (st : list ScanResult * World) path =>
                            let (result, w') := scan_path (snd st) path category in
                            (fst st ++ [result], w'))
                         paths st in
    disk (snd st') = disk (snd st)
    /\ exists new,
         fst st' = fst st ++ new
         /\ map sr_path new = map (fun p => str (expand_path p)) paths
         /\ Forall (fun r => sr_category_id r = c_id category
                             /\ sr_category_name r = c_name category
                             /\ sr_risk_level r = c_risk_level category) new.
Proof.
  induction paths as [|p paths IH]; intros st; cbn [fold_left].
  - split; [reflexivity|]. exists []. rewrite List.app_nil_r. repeat split. constructor.
  - destruct (scan_path_frame (snd st) p category) as (Hd & Hp & Hid & Hname & Hrisk).
    destruct (scan_path (snd st) p category) as [result w'].
    cbn [fst snd] in *.
    destruct (IH (fst st ++ [result], w')) as (Hd' & new & Hnew & Hpaths & Hall).
    cbn [fst snd] in *. split; [congruence|].
    exists (result :: new). split; [|split].
    + rewrite Hnew, <- List.app_assoc. reflexivity.
    + cbn [map]. now rewrite Hp, Hpaths.
    + constructor; auto.
Qed.

(** X14. Unless it is the docker category with a docker that answers,
    [scan_category] returns one result for each declared path, in the order
    of declaration, each with the category's id, name and risk level, and
    leaves the disk as it is. *)
Theorem scan_category_one_per_path :
  forall (w : World) category,
    (c_id category <> "docker_data"
     \/ get_docker_breakdown (disk w) = None
     \/ (exists breakdown, get_docker_breakdown (disk w) = Some breakdown
                           /\ dk_available breakdown = false)) ->
    disk (snd (scan_category get_docker_breakdown w category)) = disk w
    /\ map sr_path (fst (scan_category get_docker_breakdown w category))
       = map (fun p => str (expand_path p)) (c_paths category)
    /\ Forall (fun r => sr_category_id r = c_id category
                        /\ sr_category_name r = c_name category
                        /\ sr_risk_level r = c_risk_level category)
         (fst (scan_category get_docker_breakdown w category)).
Proof.
  intros w category H.
  assert (E : scan_category get_docker_breakdown w category = scan_paths w category).
  { unfold scan_category, _scan_docker_category.
    destruct (String.eqb_spec (c_id category) "docker_data") as [Heq|]; [|reflexivity].
    destruct H as [H|[H|(b & H & Hb)]]; [contradiction|now rewrite H|].
    now rewrite H, Hb. }
  rewrite E. unfold scan_paths.
  destruct (scan_paths_loop category (c_paths category) ([], w))
    as (Hd & new & Hnew & Hpaths & Hall).
  cbn [fst snd] in *. rewrite Hnew. auto.
Qed.

Lemma scan_category_ids (w : World) (category : Category) :
  disk (snd (scan_category get_docker_breakdown w category)) = disk w
  /\ Forall (fun r => sr_category_id r = c_id category)
       (fst (scan_category get_docker_breakdown w category)).
Proof.
  unfold scan_category, _scan_docker_category.
  assert (Hp : disk (snd (scan_paths w category)) = disk w
               /\ Forall (fun r => sr_category_id r = c_id category)
                    (fst (scan_paths w category))).
  { unfold scan_paths.
    destruct (scan_paths_loop category (c_paths category) ([], w))
      as (Hd & new & Hnew & _ & Hall).
    cbn [fst snd] in *. rewrite Hnew. split; [exact Hd|].
    eapply List.Forall_impl; [|exact Hall]. tauto. }
  destruct (String.eqb (c_id category) "docker_data"); [|exact Hp].
  destruct (get_docker_breakdown (disk w)) as [b|]; [|exact Hp].
  destruct (dk_available b); [|exact Hp].
  split; [reflexivity|]. repeat constructor.
Qed.

Lemma aggregate_category_id (results : list ScanResult) (agg : ScanResult) (id : string) :
  Forall (fun r => sr_category_id r = id) results ->
  aggregate_category_results results = Some agg ->
  sr_category_id agg = id.
Proof.
  destruct results as [|first rest]; [discriminate|].
  intros H E. injection E as <-. cbn. now inversion H.
Qed.

Lemma quick_scan_step_unknown (st : list ScanResult * World) (cat_id : string) :
  dict_mem registry cat_id = false ->
  quick_scan_step registry get_docker_breakdown st cat_id = st.
Proof.
  unfold dict_mem, quick_scan_step. now destruct (dict_get registry cat_id).
Qed.

Lemma quick_scan_loop (ids : list string) :
  forall (st : list ScanResult * World),
    fold_left (quick_scan_step registry get_docker_breakdown) ids st
    = fold_left (quick_scan_step registry get_docker_breakdown)
        (List.filter (dict_mem registry) ids) st.
Proof.
  induction ids as [|x ids IH]; intros st; [reflexivity|]. cbn [fold_left List.filter].
  destruct (dict_mem registry x) eqn:E; cbn [fold_left].
  - apply IH.
  - rewrite quick_scan_step_unknown by assumption. apply IH.
Qed.

Lemma quick_scan_step_invariant (d0 : Disk) (ids : list string)
    (st : list ScanResult * World) (cat_id : string) :
  In cat_id ids ->
  disk (snd st) = d0
  /\ Forall (fun r => exists id category,
               In id ids /\ dict_get registry id = Some category
               /\ sr_category_id r = c_id category) (fst st) ->
  disk (snd (quick_scan_step registry get_docker_breakdown st cat_id)) = d0
  /\ Forall (fun r => exists id category,
               In id ids /\ dict_get registry id = Some category
               /\ sr_category_id r = c_id category)
       (fst (quick_scan_step registry get_docker_breakdown st cat_id)).
Proof.
  intros Hin [Hd Hall]. unfold quick_scan_step.
  destruct (dict_get registry cat_id) as [category|] eqn:Hcat; [|auto].
  destruct (scan_category_ids (snd st) category) as [Hd' Hids].
  destruct (scan_category get_docker_breakdown (snd st) category) as [results w'].
  cbn [fst snd] in *.
  destruct (aggregate_category_results results) as [agg|] eqn:Hagg; cbn [fst snd].
  - split; [congruence|]. apply List.Forall_app. split; [exact Hall|].
    constructor; [|constructor]. exists cat_id, category.
    repeat split; try assumption. now apply (aggregate_category_id results).
  - split; [congruence|exact Hall].
Qed.

Lemma fold_left_invariant_in {A B : Type} (P : A -> Prop) (f : A -> B -> A) (l : list B) :
  (forall a b, In b l -> P a -> P (f a b)) -> forall a, P a -> P (fold_left f l a).
Proof.
  induction l as [|b l IH]; intros Hf a Ha; simpl; [exact Ha|].
  apply IH; [intros; apply Hf; simpl; auto|]. apply Hf; simpl; auto.
Qed.

Lemma quick_scan_loop_length (ids : list string) :
  forall (st : list ScanResult * World),
    (List.length (fst (fold_left (quick_scan_step registry get_docker_breakdown) ids st))
     <= List.length (fst st) + List.length ids)%nat.
Proof.
  induction ids as [|x ids IH]; intros st; cbn [fold_left List.length]; [lia|].
  specialize (IH (quick_scan_step registry get_docker_breakdown st x)).
  assert (List.length (fst (quick_scan_step registry get_docker_breakdown st x))
          <= S (List.length (fst st)))%nat; [|lia].
  unfold quick_scan_step. destruct (dict_get registry x); [|lia].
  destruct (scan_category get_docker_breakdown (snd st) c) as [results w'].
  destruct (aggregate_category_results results); cbn [fst];
    rewrite ?List.length_app; cbn [List.length]; lia.
Qed.

(** X15. [quick_scan] of a list of ids skips the ids that are not in the
    registry, leaves the disk as it is, and returns at most one result for
    each id, by size, largest first, each under the id of a requested
    category. *)
Theorem quick_scan_known_ids :
  forall (w : World) ids,
    quick_scan registry get_docker_breakdown scan_all_categories w (Some ids)
    = quick_scan registry get_docker_breakdown scan_all_categories w
        (Some (List.filter (dict_mem registry) ids))
    /\ disk (snd (quick_scan registry get_docker_breakdown scan_all_categories w (Some ids)))
       = disk w
    /\ (List.length
          (fst (quick_scan registry get_docker_breakdown scan_all_categories w (Some ids)))
        <= List.length ids)%nat
    /\ StronglySorted (fun a b => sr_size_bytes b <= sr_size_bytes a)
         (fst (quick_scan registry get_docker_breakdown scan_all_categories w (Some ids)))
    /\ Forall (fun r => exists id category,
                 In id ids /\ dict_get registry id = Some category
                 /\ sr_category_id r = c_id category)
         (fst (quick_scan registry get_docker_breakdown scan_all_categories w (Some ids))).
Proof.
  intros w ids. unfold quick_scan. split; [now rewrite quick_scan_loop|].
  pose proof (fold_left_invariant_in
                (fun st => disk (snd st) = disk w
                           /\ Forall (fun r => exists id category,
                                        In id ids /\ dict_get registry id = Some category
                                        /\ sr_category_id r = c_id category) (fst st))
                (quick_scan_step registry get_docker_breakdown) ids
                (fun a b Hb Ha => quick_scan_step_invariant (disk w) ids a b Hb Ha)
                ([], w) (conj eq_refl (List.Forall_nil _))) as [Hd Hall].
  pose proof (quick_scan_loop_length ids ([], w)) as Hlen.
  destruct (fold_left (quick_scan_step registry get_docker_breakdown) ids ([], w))
    as [results w'].
  cbn [fst snd] in *. split; [exact Hd|].
  split; [now rewrite (Permutation_length (sort_desc_perm results))|].
  split; [apply sort_desc_sorted|].
  rewrite List.Forall_forall in *. intros r Hr. apply Hall.
  now apply (Permutation_in _ (sort_desc_perm results)).
Qed.

End ScannerMore.

(** ** scanner.py: more on the directory-size engine *)

Section SizeMore.
Context `{os : OS}.

(** X16. After [clear_size_cache] the next [get_directory_size_cached]
    measures the directory on the disk, whatever the cache held before, and
    stores what it measured. *)
Theorem clear_size_cache_forces_scan :
  forall (w : World) path max_depth,
    fst (get_directory_size_cached (clear_size_cache w) path max_depth)
    = get_directory_size_fast (disk w) path max_depth
    /\ _size_cache (snd (get_directory_size_cached (clear_size_cache w) path max_depth))
       = {[ str path := (get_directory_size_fast (disk w) path max_depth,
                         fst (time_time (clock w))) ]}.
Proof.
  intros w path max_depth. unfold get_directory_size_cached, clear_size_cache.
  cbn [clock disk _size_cache].
  destruct (time_time (clock w)) as [now clk].
  destruct (get_directory_size_fast (disk w) path max_depth) as [[size files] dirs].
  rewrite lookup_empty. cbn. split; [reflexivity|]. apply insert_empty.
Qed.

Lemma get_directory_size_fast_negative (d : Disk) (p : Path) (max_depth : Z) :
  max_depth < 0 -> get_directory_size_fast d p max_depth = (0, 0, 0).
Proof.
  intros H. unfold get_directory_size_fast.
  destruct (Z.to_nat (max_depth + 1)); simpl;
    destruct (Z.gtb_spec 0 max_depth); try reflexivity; lia.
Qed.

Lemma total_nonneg (l : list Z) : Forall (fun x => 0 <= x) l -> 0 <= total l.
Proof. induction 1 as [|x l Hx _ IH]; unfold total in *; simpl; lia. Qed.

Lemma total_le {A : Type} (f g : A -> Z) (l : list A) :
  (forall x, In x l -> f x <= g x) -> total (map f l) <= total (map g l).
Proof.
  induction l as [|x l IH]; intros H; unfold total in *; simpl; [lia|].
  specialize (H x (or_introl eq_refl)) as Hx.
  assert (fold_right Z.add 0 (map f l) <= fold_right Z.add 0 (map g l))
    by (apply IH; intros; apply H; now right).
  lia.
Qed.

Lemma get_directory_size_fast_counts_nonneg (d : Disk) (n : nat) :
  forall p max_depth,
    max_depth < Z.of_nat n ->
    0 <= files_of (get_directory_size_fast d p max_depth)
    /\ 0 <= dirs_of (get_directory_size_fast d p max_depth).
Proof.
  induction n as [|n IH]; intros p max_depth Hn.
  - rewrite get_directory_size_fast_negative by lia. cbn. lia.
  - destruct (Z.ltb_spec max_depth 0) as [Hneg|Hpos].
    + rewrite get_directory_size_fast_negative by lia. cbn. lia.
    + rewrite get_directory_size_fast_unfold by assumption.
      unfold files_of, dirs_of. cbn [fst snd].
      assert (Hf : 0 <= total (map (fun q => files_of (get_directory_size_fast d q (max_depth - 1)))
                                   (subdirectories d p))).
      { apply total_nonneg. rewrite List.Forall_forall. intros x Hx.
        apply List.in_map_iff in Hx as (q & <- & _). apply IH. lia. }
      assert (Hd : 0 <= total (map (fun q => dirs_of (get_directory_size_fast d q (max_depth - 1)))
                                   (subdirectories d p))).
      { apply total_nonneg. rewrite List.Forall_forall. intros x Hx.
        apply List.in_map_iff in Hx as (q & <- & _). apply IH. lia. }
      unfold files_of, dirs_of in *. lia.
Qed.

Lemma get_directory_size_fast_counts_step (d : Disk) (n : nat) :
  forall p max_depth,
    max_depth < Z.of_nat n ->
    files_of (get_directory_size_fast d p max_depth)
    <= files_of (get_directory_size_fast d p (max_depth + 1))
    /\ dirs_of (get_directory_size_fast d p max_depth)
       <= dirs_of (get_directory_size_fast d p (max_depth + 1)).
Proof.
  induction n as [|n IH]; intros p max_depth Hn.
  - rewrite get_directory_size_fast_negative by lia.
    apply (get_directory_size_fast_counts_nonneg d (Z.to_nat (max_depth + 2))). lia.
  - destruct (Z.ltb_spec max_depth 0) as [Hneg|Hpos].
    + rewrite get_directory_size_fast_negative by lia.
      apply (get_directory_size_fast_counts_nonneg d (Z.to_nat (max_depth + 2))). lia.
    + rewrite (get_directory_size_fast_unfold d p max_depth) by assumption.
      rewrite (get_directory_size_fast_unfold d p (max_depth + 1)) by lia.
      replace (max_depth + 1 - 1) with (max_depth - 1 + 1) by lia.
      unfold files_of at 1 3, dirs_of at 1 3. cbn [fst snd].
      split; apply Z.add_le_mono_l; apply total_le; intros q _; apply IH; lia.
Qed.

(** X17. A negative [max_depth] measures nothing; the file and directory
    counts of [get_directory_size_fast] are never negative and never
    decrease when [max_depth] is raised. *)
Theorem get_directory_size_fast_counts :
  forall (d : Disk) p,
    (forall max_depth, max_depth < 0 -> get_directory_size_fast d p max_depth = (0, 0, 0))
    /\ (forall max_depth,
          0 <= files_of (get_directory_size_fast d p max_depth)
          /\ 0 <= dirs_of (get_directory_size_fast d p max_depth))
    /\ (forall m m',
          m <= m' ->
          files_of (get_directory_size_fast d p m) <= files_of (get_directory_size_fast d p m')
          /\ dirs_of (get_directory_size_fast d p m) <= dirs_of (get_directory_size_fast d p m')).
Proof.
  intros d p. split; [intros; now apply get_directory_size_fast_negative|]. split.
  - intros max_depth.
    apply (get_directory_size_fast_counts_nonneg d (Z.to_nat (max_depth + 1))). lia.
  - intros m m' Hm.
    replace m' with (m + Z.of_nat (Z.to_nat (m' - m))) by lia.
    induction (Z.to_nat (m' - m)) as [|k IH].
    + rewrite Z.add_0_r. lia.
    + pose proof (get_directory_size_fast_counts_step d
                    (Z.to_nat (m + Z.of_nat k + 1)) p (m + Z.of_nat k)) as Hs.
      replace (m + Z.of_nat (S k)) with (m + Z.of_nat k + 1) by lia.
      destruct (Z.ltb_spec (m + Z.of_nat k) 0) as [Hneg|Hpos].
      * rewrite (get_directory_size_fast_negative d p (m + Z.of_nat k)) in * by lia.
        assert (m < 0) by lia.
        rewrite (get_directory_size_fast_negative d p m) by lia.
        apply (get_directory_size_fast_counts_nonneg d
                 (Z.to_nat (m + Z.of_nat k + 2))). lia.
      * destruct Hs as [Hf Hd]; [lia|]. lia.
Qed.

End SizeMore.

(** ** cleaner.py: more on [clean_category] *)

Section CleaningMore.
Context `{os : OS}.
Variable registry : list (string * Category).

(** X18. [clean_category] fails with an [IndexError] exactly on a known
    category that declares no paths, unless it has a native command and the
    call is not a dry run; in every other case it returns a result. *)
Theorem clean_category_index_error :
  forall (w : World) category_id dry_run,
    fst (clean_category registry w category_id dry_run) = IndexError
    <-> exists category,
          get_category registry category_id = Some category
          /\ c_paths category = []
          /\ truthy (c_cleanup_command category) && negb dry_run = false.
Proof.
  intros w category_id dry_run. unfold clean_category.
  destruct (get_category registry category_id) as [category|].
  2:{ split; [discriminate|]. intros (c & H & _). discriminate. }
  destruct (truthy (c_cleanup_command category) && negb dry_run) eqn:Hn.
  { destruct (_run_native_cleanup w category_id _ dry_run) as [r w'].
    split; [discriminate|]. intros (c & H & _ & Hc). injection H as <-. congruence. }
  destruct (c_paths category) as [|p paths] eqn:Hp.
  - cbn [fold_left]. split; [|reflexivity]. intros _. exists category. auto.
  - destruct (fold_left (clean_path dry_run) (p :: paths) (0, 0, [], [], w))
      as [[[[tb tf] errs] cleaned] w''].
    split.
    + destruct cleaned; discriminate.
    + intros (c & H & Hc & _). injection H as <-. congruence.
Qed.

Lemma clean_category_dry_run_keeps (w : World) (category_id : string) :
  disk (snd (clean_category registry w category_id true)) = disk w.
Proof.
  unfold clean_category.
  destruct (get_category registry category_id) as [category|]; [|reflexivity].
  rewrite andb_false_r.
  pose proof (clean_loop_dry_run_disk (c_paths category) (0, 0, [], [], w)) as H.
  destruct (fold_left (clean_path true) (c_paths category) (0, 0, [], [], w))
    as [[[[tb tf] errs] cleaned] w''].
  cbn [snd] in H.
  destruct (match cleaned with
            | p :: _ => Some p
            | [] => match c_paths category with p :: _ => Some p | [] => None end
            end); exact H.
Qed.

(** X20. Cleaning, not as a dry run, a category with a native command runs
    that command and nothing else: the declared paths are neither measured
    nor removed by the package, the result reports zero bytes and files
    under the command's name, and succeeds exactly when the command exits
    with code 0. *)
Theorem clean_category_native_run :
  forall (w : World) category_id category command,
    get_category registry category_id = Some category ->
    c_cleanup_command category = Some command ->
    command <> "" ->
    exists r,
      clean_category registry w category_id false
      = (Return r, mkWorld (fst (subprocess_run (disk w) command)) (clock w) (_size_cache w))
      /\ cr_category_id r = category_id
      /\ cr_path r = "[native command: " +:+ command +:+ "]"
      /\ cr_bytes_freed r = 0 /\ cr_files_deleted r = 0
      /\ cr_dry_run r = false
      /\ (cr_success r = true <->
          exists stderr, snd (subprocess_run (disk w) command) = Completed 0 stderr).
Proof.
  intros w category_id category command Hcat Hcmd Hne.
  unfold clean_category. rewrite Hcat, Hcmd. cbn [truthy].
  apply String.eqb_neq in Hne. rewrite Hne. cbn [negb andb].
  unfold _run_native_cleanup, set_disk.
  destruct (subprocess_run (disk w) command) as [d' out]. cbn [fst snd].
  destruct out as [returncode stderr| |msg].
  - destruct (Z.eqb_spec returncode 0) as [->|Hrc]; eexists; (split; [reflexivity|]);
      cbn; repeat split; try discriminate; eauto.
    intros (e & He). injection He as He _. contradiction.
  - eexists; split; [reflexivity|]. cbn. repeat split; try discriminate.
    intros (e & He). discriminate.
  - eexists; split; [reflexivity|]. cbn. repeat split; try discriminate.
    intros (e & He). discriminate.
Qed.

Lemma clean_category_id (w w' : World) (category_id : string) (dry_run : bool)
    (r : CleanupResult) :
  clean_category registry w category_id dry_run = (Return r, w') ->
  cr_category_id r = category_id /\ cr_dry_run r = dry_run.
Proof.
  unfold clean_category.
  destruct (get_category registry category_id) as [category|].
  2:{ intros H. injection H as <- _. auto. }
  destruct (truthy (c_cleanup_command category) && negb dry_run) eqn:Hn.
  - apply andb_true_iff in Hn as [_ Hd]. apply negb_true_iff in Hd. subst dry_run.
    unfold _run_native_cleanup.
    destruct (subprocess_run (disk w) _) as [d' out].
    destruct out as [rc stderr| |msg]; [destruct (rc =? 0)| |];
      intros H; injection H as <- _; auto.
  - destruct (fold_left (clean_path dry_run) (c_paths category) (0, 0, [], [], w))
      as [[[[tb tf] errs] cleaned] w''].
    destruct (match cleaned with
              | p :: _ => Some p
              | [] => match c_paths category with p :: _ => Some p | [] => None end
              end); [|discriminate].
    intros H. injection H as <- _. auto.
Qed.

(** X19. A dry run of [clean_category] never changes the disk, whatever the
    category id is, known or not, and whether or not the category has a
    native command; and every result of [clean_category] carries the id and
    the [dry_run] it was called with. *)
Theorem clean_category_dry_run_disk :
  forall (w : World) category_id,
    disk (snd (clean_category registry w category_id true)) = disk w
    /\ (forall dry_run r,
          fst (clean_category registry w category_id dry_run) = Return r ->
          cr_category_id r = category_id /\ cr_dry_run r = dry_run).
Proof.
  intros w category_id. split; [apply clean_category_dry_run_keeps|].
  intros dry_run r H.
  apply (clean_category_id w (snd (clean_category registry w category_id dry_run))).
  rewrite <- H. apply surjective_pairing.
Qed.

Lemma clean_items_failed (dry_run : bool) (items : list ScanResult) (w : World) :
  fold_left (clean_item registry dry_run) items (IndexError, w) = (IndexError, w).
Proof. induction items as [|x items IH]; [reflexivity|exact IH]. Qed.

Lemma clean_items_loop (dry_run : bool) (items : list ScanResult) :
  forall acc (w w' : World) results,
    fold_left (clean_item registry dry_run) items (Return acc, w) = (Return results, w') ->
    exists new,
      results = acc ++ new
      /\ map cr_category_id new = map sr_category_id items
      /\ Forall (fun r => cr_dry_run r = dry_run) new.
Proof.
  induction items as [|x items IH]; intros acc w w' results; cbn [fold_left].
  - intros H. injection H as <- _. exists []. rewrite List.app_nil_r. repeat split.
    constructor.
  - unfold clean_item at 2.
    destruct (clean_category registry w (sr_category_id x) dry_run) as [[r|] w1] eqn:E.
    + intros H. apply IH in H as (new & -> & Hids & Hdry).
      destruct (clean_category_id _ _ _ _ _ E) as [Hid Hd].
      exists (r :: new). rewrite <- List.app_assoc. split; [reflexivity|].
      split; [cbn [map]; now rewrite Hid, Hids|now constructor].
    + rewrite clean_items_failed. discriminate.
Qed.

Lemma clean_items_dry_run_disk (items : list ScanResult) :
  forall (st : outcome (list CleanupResult) * World),
    disk (snd (fold_left (clean_item registry true) items st)) = disk (snd st).
Proof.
  induction items as [|x items IH]; intros st; [reflexivity|]. cbn [fold_left].
  rewrite IH. destruct st as [[acc|] w]; [|reflexivity]. unfold clean_item.
  pose proof (clean_category_dry_run_keeps w (sr_category_id x)) as H.
  destruct (clean_category registry w (sr_category_id x) true) as [[r|] w1]; exact H.
Qed.

(** X21. [clean_safe_items] cleans the results that are [SAFE] and of
    positive size, and no others: when it returns, its results are those of
    these categories, in the order of the scan results, each flagged with
    the [dry_run] of the call; and a dry run leaves the disk as it is. *)
Theorem clean_safe_items_only_safe :
  forall (w : World) scan_results dry_run,
    (forall results w',
       clean_safe_items registry w scan_results dry_run = (Return results, w') ->
       map cr_category_id results
       = map sr_category_id
           (List.filter (fun r => RiskLevel_eqb (sr_risk_level r) SAFE
                                  && (sr_size_bytes r >? 0)) scan_results)
       /\ Forall (fun r => cr_dry_run r = dry_run) results)
    /\ disk (snd (clean_safe_items registry w scan_results true)) = disk w.
Proof.
  intros w scan_results dry_run. split.
  - intros results w' H. unfold clean_safe_items in H.
    apply clean_items_loop in H as (new & -> & Hids & Hdry). auto.
  - unfold clean_safe_items. apply clean_items_dry_run_disk.
Qed.

End CleaningMore.

(** ** Strings and paths: prefixes *)

Lemma append_assoc (a b c : string) : (a +:+ b) +:+ c = a +:+ (b +:+ c).
Proof.
  induction a as [|x a IH]; [reflexivity|].
  change ((String x a +:+ b) +:+ c) with (String x ((a +:+ b) +:+ c)).
  change (String x a +:+ (b +:+ c)) with (String x (a +:+ (b +:+ c))).
  now rewrite IH.
Qed.

Lemma startswith_app (a b : string) : startswith a (a +:+ b) = true.
Proof.
  unfold startswith. induction a as [|x a IH].
  - destruct b; reflexivity.
  - change (String x a +:+ b) with (String x (a +:+ b)). cbn [String.prefix].
    destruct (ascii_dec x x) as [_|H]; [exact IH|contradiction].
Qed.

Lemma append_not_empty (a b : string) : a <> "" -> a +:+ b <> "".
Proof. destruct a; [contradiction|discriminate]. Qed.

Lemma str_join_cons (x : string) (l : list string) :
  l <> [] -> str_join "/" (x :: l) = x +:+ "/" +:+ str_join "/" l.
Proof. destruct l; [contradiction|reflexivity]. Qed.

Lemma str_join_app (l1 l2 : list string) :
  l1 <> [] -> l2 <> [] ->
  str_join "/" (l1 ++ l2) = str_join "/" l1 +:+ "/" +:+ str_join "/" l2.
Proof.
  intros H1 H2. induction l1 as [|x l1 IH]; [contradiction|].
  destruct l1 as [|y l1].
  - cbn [List.app]. now rewrite str_join_cons.
  - change ((x :: y :: l1) ++ l2) with (x :: ((y :: l1) ++ l2)).
    rewrite str_join_cons by discriminate.
    rewrite IH by discriminate.
    rewrite (str_join_cons x (y :: l1)) by discriminate.
    now rewrite !append_assoc.
Qed.

(** The text of a path below [p] starts with the text of [p]. *)
Lemma str_below (p : Path) (ext : list string) :
  str p <> "." ->
  exists suffix,
    str (mkPath (root p) (tail p ++ ext)) = str p +:+ suffix
    /\ (tail p <> [] -> ext <> [] -> suffix = "/" +:+ str_join "/" ext).
Proof.
  intros Hp. unfold str in *. cbn [root tail].
  destruct (String.eqb_spec (root p +:+ str_join "/" (tail p)) "") as [|Hs];
    [contradiction|].
  destruct ext as [|e ext].
  - exists "". rewrite List.app_nil_r.
    destruct (String.eqb_spec (root p +:+ str_join "/" (tail p)) ""); [contradiction|].
    split; [now rewrite append_empty_r|intros _ H; contradiction].
  - destruct (tail p) as [|t tl] eqn:Ht.
    + exists (str_join "/" (e :: ext)). cbn [List.app].
      change (str_join "/" []) with "" in Hs. rewrite append_empty_r in Hs.
      change (str_join "/" []) with "". rewrite append_empty_r.
      destruct (String.eqb_spec (root p +:+ str_join "/" (e :: ext)) "") as [E|_].
      * now apply append_not_empty in E.
      * split; [reflexivity|intros H; contradiction].
    + exists ("/" +:+ str_join "/" (e :: ext)).
      rewrite str_join_app by discriminate. rewrite <- append_assoc.
      destruct (String.eqb_spec
                  ((root p +:+ str_join "/" (t :: tl)) +:+ "/" +:+ str_join "/" (e :: ext)) "")
        as [E|_].
      * now apply append_not_empty in E.
      * split; [reflexivity|auto].
Qed.

Lemma wf_str_not_dot (p : Path) : wf_path p -> tail p <> [] -> str p <> ".".
Proof.
  intros [_ Hwf] Ht. destruct (tail p) as [|t tl] eqn:E; [contradiction|].
  apply Forall_cons_1 in Hwf as [[Hk Hc] _].
  unfold keep_component in Hk. apply andb_true_iff in Hk as [Hne Hdot].
  apply negb_true_iff in Hne, Hdot.
  apply String.eqb_neq in Hne. apply String.eqb_neq in Hdot.
  unfold str. rewrite E.
  assert (Hj : exists rest, str_join "/" (t :: tl) = t +:+ rest).
  { destruct tl as [|u tl]; [exists ""; now rewrite append_empty_r|].
    eexists. reflexivity. }
  destruct Hj as [rest Hj]. rewrite Hj.
  destruct (String.eqb_spec (root p +:+ t +:+ rest) "") as [E0|_].
  - destruct (root p); [|discriminate]. destruct t; [contradiction|discriminate].
  - intros Hd. destruct (root p) as [|a r] eqn:Er.
    + change ("" +:+ t +:+ rest) with (t +:+ rest) in Hd.
      destruct t as [|c t]; [contradiction|].
      change (String c t +:+ rest) with (String c (t +:+ rest)) in Hd.
      injection Hd as -> Hd. destruct t as [|c' t]; [|discriminate].
      change ("" +:+ rest) with rest in Hd. subst rest.
      destruct tl as [|u tl]; [contradiction|].
      change (str_join "/" ("." :: u :: tl)) with ("." +:+ "/" +:+ str_join "/" (u :: tl)) in Hj.
      discriminate.
    + destruct p as [r0 tl0]. cbn in Er, E. subst r0.
      change (String a r +:+ t +:+ rest) with (String a (r +:+ t +:+ rest)) in Hd.
      injection Hd as -> Hd. destruct r; [|discriminate].
      destruct t; [contradiction|discriminate].
Qed.

(** ** cleaner.py: [is_inside_allowed_path] *)

Section AllowedPaths.
Context `{os : OS}.
Variable registry : list (string * Category).

(** X22. No path is inside an unknown category; a path a category declares
    is inside it, and so is every path below a declared path. *)
Theorem is_inside_allowed_path_below :
  forall (path : Path) category_id,
    (get_category registry category_id = None ->
     is_inside_allowed_path registry path category_id = false)
    /\ (forall category allowed,
          get_category registry category_id = Some category ->
          In allowed (c_paths category) ->
          path = expand_path allowed
          \/ (str (expand_path allowed) <> "." /\ is_ancestor (expand_path allowed) path) ->
          is_inside_allowed_path registry path category_id = true).
Proof.
  intros path category_id. unfold is_inside_allowed_path. split.
  - intros ->. reflexivity.
  - intros category allowed -> Hin Hpath.
    apply existsb_exists. exists allowed. split; [exact Hin|].
    destruct Hpath as [->|[Hdot [Hroot (ext & _ & Htail)]]].
    + rewrite <- (append_empty_r (str (expand_path allowed))) at 2.
      apply startswith_app.
    + destruct (str_below (expand_path allowed) ext Hdot) as (suffix & Hs & _).
      destruct path as [r tl]. cbn [root tail] in Hroot, Htail. subst r tl.
      rewrite Hs. apply startswith_app.
Qed.

Lemma str_join_last (tl : list string) (name suffix : string) (ext : list string) :
  exists rest,
    str_join "/" (tl ++ (name +:+ suffix) :: ext)
    = str_join "/" (tl ++ [name]) +:+ rest.
Proof.
  induction tl as [|x tl [rest IH]].
  - cbn [List.app]. destruct ext as [|e ext].
    + exists suffix. reflexivity.
    + exists (suffix +:+ "/" +:+ str_join "/" (e :: ext)).
      rewrite str_join_cons by discriminate. now rewrite append_assoc.
  - exists rest. cbn [List.app].
    rewrite !str_join_cons by (destruct tl; discriminate).
    rewrite IH. now rewrite !append_assoc.
Qed.

(** X23. [is_inside_allowed_path] compares texts, not components: a path
    whose component only starts with the last component of a declared path,
    such as a sibling directory with a longer name, and everything below it,
    counts as inside the category. *)
Theorem is_inside_allowed_path_text_prefix :
  forall category_id category allowed (parent : Path) name suffix ext,
    get_category registry category_id = Some category ->
    In allowed (c_paths category) ->
    expand_path allowed = (parent // name)%path ->
    is_inside_allowed_path registry
      (mkPath (root parent) (tail parent ++ (name +:+ suffix) :: ext)) category_id = true.
Proof.
  intros category_id category allowed parent name suffix ext Hcat Hin Hexp.
  unfold is_inside_allowed_path. rewrite Hcat.
  apply existsb_exists. exists allowed. split; [exact Hin|].
  assert (Hdot : str (parent // name)%path <> ".").
  { apply wf_str_not_dot.
    - rewrite <- Hexp. apply expand_path_wf.
    - cbn. destruct (tail parent); discriminate. }
  rewrite Hexp. unfold str in *. cbn [joinpath root tail] in *.
  destruct (str_join_last (tail parent) name suffix ext) as [rest ->].
  destruct (String.eqb_spec (root parent +:+ str_join "/" (tail parent ++ [name])) "")
    as [|Hne]; [contradiction|].
  rewrite <- append_assoc.
  destruct (String.eqb_spec
              ((root parent +:+ str_join "/" (tail parent ++ [name])) +:+ rest) "") as [E|_].
  - now apply append_not_empty in E.
  - apply startswith_app.
Qed.

End AllowedPaths.

(** ** scanner.py: the protection list and [run_command] *)

Section Protection.
Context `{os : OS}.
Variable str_strip : string -> string.
Variable shell_run : Disk -> string -> Disk * (proc_outcome * string).
Variable _load_config : Disk -> protection_config.
Variable _save_config : Disk -> protection_config -> Disk * bool.

(** X24. A path on the protection list protects itself and, when it is not
    a bare root, everything below it: [is_protected] answers [True] for a
    path that expands to a listed path or to a path below one. *)
Theorem is_protected_below :
  forall (d : Disk) path protected,
    In protected (protected_paths (_load_config d)) ->
    expand_path path = expand_path protected
    \/ (tail (expand_path protected) <> []
        /\ is_ancestor (expand_path protected) (expand_path path)) ->
    is_protected _load_config d path = true.
Proof.
  intros d path protected Hin Hpath. unfold is_protected.
  apply existsb_exists. exists protected. split; [exact Hin|].
  destruct Hpath as [->|[Ht [Hroot (ext & Hext & Htail)]]].
  - now rewrite String.eqb_refl.
  - apply orb_true_iff. right.
    destruct (str_below (expand_path protected) ext
                (wf_str_not_dot _ (expand_path_wf protected) Ht)) as (suffix & Hs & Hsuf).
    destruct (expand_path path) as [r tl]. cbn [root tail] in Hroot, Htail. subst r tl.
    rewrite Hs, (Hsuf Ht Hext), <- append_assoc. apply startswith_app.
Qed.

Lemma list_remove_first_In (x y : string) (l : list string) :
  In y (list_remove_first x l) -> In y l.
Proof.
  induction l as [|z l IH]; cbn [list_remove_first]; [auto|].
  destruct (String.eqb z x); [now right|].
  intros [->|H]; [now left|right; auto].
Qed.

Lemma list_remove_first_other (x y : string) (l : list string) :
  y <> x -> In y l -> In y (list_remove_first x l).
Proof.
  intros Hne. induction l as [|z l IH]; cbn [list_remove_first]; [auto|].
  destruct (String.eqb_spec z x) as [->|Hz].
  - intros [E|H]; [congruence|exact H].
  - intros [->|H]; [now left|right; auto].
Qed.

Lemma list_remove_first_NoDup (x : string) (l : list string) :
  List.NoDup l -> ~ In x (list_remove_first x l) /\ List.NoDup (list_remove_first x l).
Proof.
  induction 1 as [|z l Hz Hl [IH1 IH2]]; cbn [list_remove_first].
  - split; [auto|constructor].
  - destruct (String.eqb_spec z x) as [->|Hne]; [auto|].
    split.
    + intros [E|H]; [contradiction|auto].
    + constructor; [|exact IH2]. intros H. apply Hz. eapply list_remove_first_In, H.
Qed.

Lemma NoDup_snoc (x : string) (l : list string) :
  List.NoDup l -> ~ In x l -> List.NoDup (l ++ [x]).
Proof.
  induction 1 as [|z l Hz Hl IH]; intros Hx; cbn [List.app].
  - constructor; [auto|constructor].
  - constructor.
    + rewrite List.in_app_iff. intros [H|[->|[]]]; [auto|apply Hx; now left].
    + apply IH. intros H. apply Hx. now right.
Qed.

Lemma append_if_absent (x : string) (l : list string) :
  In x (if negb (str_in x l) then l ++ [x] else l)
  /\ (exists new, (if negb (str_in x l) then l ++ [x] else l) = l ++ new)
  /\ (List.NoDup l -> List.NoDup (if negb (str_in x l) then l ++ [x] else l)).
Proof.
  destruct (str_in x l) eqn:Hin; cbn [negb].
  - split; [now apply str_in_In|]. split; [|auto].
    exists []. now rewrite List.app_nil_r.
  - split; [apply List.in_app_iff; right; now left|]. split; [eexists; reflexivity|].
    intros Hnd. apply NoDup_snoc; [exact Hnd|].
    intros H. apply str_in_In in H. congruence.
Qed.

(** The second half of [add_protection]: the category, then the save. *)
Lemma add_protection_category (d d' : Disk) (config1 : protection_config)
    (category_id : option string) (res : pydict) :
  (let config :=
     match category_id with
     | Some c =>
         if negb (String.eqb c "") && negb (str_in c (protected_categories config1))
         then mkProtectionConfig (protected_paths config1)
                                 (protected_categories config1 ++ [c])
         else config1
     | None => config1
     end in
   let (d1, saved) := _save_config d config in
   if saved then (protection_saved config, d1)
   else ([("success", PyBool false); ("error", PyStr "Failed to save config")], d1))
  = (res, d') ->
  dict_get res "success" = Some (PyBool true) ->
  exists config,
    res = protection_saved config
    /\ _save_config d config = (d', true)
    /\ protected_paths config = protected_paths config1
    /\ (forall c, category_id = Some c -> c <> "" -> In c (protected_categories config))
    /\ (exists new, protected_categories config = protected_categories config1 ++ new)
    /\ (List.NoDup (protected_categories config1) ->
        List.NoDup (protected_categories config)).
Proof.
  cbv zeta.
  set (config := match category_id with Some c => _ | None => config1 end).
  assert (Hc : protected_paths config = protected_paths config1
               /\ (forall c, category_id = Some c -> c <> "" ->
                     In c (protected_categories config))
               /\ (exists new, protected_categories config
                               = protected_categories config1 ++ new)
               /\ (List.NoDup (protected_categories config1) ->
                   List.NoDup (protected_categories config))).
  { subst config. destruct category_id as [c|].
    2:{ split; [reflexivity|]. split; [intros c Hc; discriminate|].
        split; [exists []; now rewrite List.app_nil_r|auto]. }
    destruct (append_if_absent c (protected_categories config1)) as (Hin & Hpre & Hnd).
    destruct (String.eqb_spec c "") as [->|Hne]; cbn [negb andb].
    { split; [reflexivity|]. split; [intros q Hq Hq'; injection Hq as <-; contradiction|].
      split; [exists []; now rewrite List.app_nil_r|auto]. }
    destruct (str_in c (protected_categories config1)); cbn [negb] in *;
      cbn [protected_paths protected_categories];
      (split; [reflexivity|]);
      (split; [intros q Hq _; injection Hq as <-; exact Hin|]);
      (split; [exact Hpre|exact Hnd]). }
  clearbody config.
  destruct (_save_config d config) as [d1 saved] eqn:Hsave. destruct saved.
  - intros H _. injection H as <- <-. exists config. split; [reflexivity|].
    split; [exact Hsave|exact Hc].
  - intros H. injection H as <- <-. discriminate.
Qed.

(** X25. [add_protection] refuses a path that does not exist and then saves
    nothing, not even the category given with it.  When it reports success,
    the config it saved and returns lists the path, expanded, which exists,
    and the category; it keeps the earlier entries in place, adding at the
    end, and adds no duplicate. *)
Theorem add_protection_saved :
  forall (d : Disk) path category_id res d',
    add_protection _load_config _save_config d path category_id = (res, d') ->
    (forall p, path = Some p -> p <> "" ->
       path_exists d (Path_of_str (str (expand_path p))) = false ->
       d' = d /\ dict_get res "success" = Some (PyBool false))
    /\ (dict_get res "success" = Some (PyBool true) ->
        exists config,
          res = protection_saved config
          /\ _save_config d config = (d', true)
          /\ (forall p, path = Some p -> p <> "" ->
                In (str (expand_path p)) (protected_paths config)
                /\ path_exists d (Path_of_str (str (expand_path p))) = true)
          /\ (forall c, category_id = Some c -> c <> "" ->
                In c (protected_categories config))
          /\ (exists new, protected_paths config
                          = protected_paths (_load_config d) ++ new)
          /\ (exists new, protected_categories config
                          = protected_categories (_load_config d) ++ new)
          /\ (List.NoDup (protected_paths (_load_config d)) ->
              List.NoDup (protected_paths config))
          /\ (List.NoDup (protected_categories (_load_config d)) ->
              List.NoDup (protected_categories config))).
Proof.
  intros d path category_id res d'. unfold add_protection.
  destruct (negb (truthy path) && negb (truthy category_id)) eqn:Hnone.
  { intros H. injection H as <- <-. split; [|discriminate].
    intros p -> Hp. cbn [truthy] in Hnone. apply String.eqb_neq in Hp.
    rewrite Hp in Hnone. discriminate. }
  set (old := _load_config d).
  destruct path as [p|].
  2:{ (* no path: only the category *)
    intros H. split; [intros q Hq; discriminate|]. intros Hs.
    destruct (add_protection_category _ _ _ _ _ H Hs)
      as (config & Hres & Hsave & Hp & Hin & Hpre & Hnd).
    exists config. split; [exact Hres|]. split; [exact Hsave|].
    split; [intros q Hq; discriminate|]. split; [exact Hin|].
    rewrite Hp. split; [exists []; now rewrite List.app_nil_r|]. auto. }
  destruct (String.eqb_spec p "") as [->|Hp].
  { (* an empty path is no path *)
    intros H. split; [intros q Hq Hne; injection Hq as <-; contradiction|]. intros Hs.
    destruct (add_protection_category _ _ _ _ _ H Hs)
      as (config & Hres & Hsave & Hpc & Hin & Hpre & Hnd).
    exists config. split; [exact Hres|]. split; [exact Hsave|].
    split; [intros q Hq Hne; injection Hq as <-; contradiction|]. split; [exact Hin|].
    rewrite Hpc. split; [exists []; now rewrite List.app_nil_r|]. auto. }
  destruct (path_exists d (Path_of_str (str (expand_path p)))) eqn:Hex; cbn [negb].
  2:{ intros H. injection H as <- <-. split; [|discriminate]. auto. }
  destruct (append_if_absent (str (expand_path p)) (protected_paths old))
    as (Hin1 & Hpre1 & Hnd1).
  destruct (str_in (str (expand_path p)) (protected_paths old)); cbn [negb] in *;
    intros H;
    (split; [intros q Hq _ Hno; injection Hq as <-; congruence|]); intros Hs;
    destruct (add_protection_category _ _ _ _ _ H Hs)
      as (config & Hres & Hsave & Hpc & Hin & Hpre & Hnd);
    cbn [protected_paths protected_categories] in *;
    exists config; (split; [exact Hres|]); (split; [exact Hsave|]);
    (split; [intros q Hq _; injection Hq as <-; rewrite Hpc; auto|]);
    (split; [exact Hin|]); rewrite Hpc; auto.
Qed.

(** X26. When [remove_protection] reports success, the config it saved and
    returns holds only entries that were protected before, keeps every
    entry other than the path and the category given, and, the lists having
    no duplicates, no longer holds the path, expanded, nor the category. *)
Theorem remove_protection_saved :
  forall (d : Disk) path category_id res d',
    remove_protection _load_config _save_config d path category_id = (res, d') ->
    dict_get res "success" = Some (PyBool true) ->
    exists config,
      res = protection_saved config
      /\ _save_config d config = (d', true)
      /\ (forall x, In x (protected_paths config) ->
            In x (protected_paths (_load_config d)))
      /\ (forall x, In x (protected_categories config) ->
            In x (protected_categories (_load_config d)))
      /\ (forall x, In x (protected_paths (_load_config d)) ->
            (forall p, path = Some p -> x <> str (expand_path p)) ->
            In x (protected_paths config))
      /\ (forall x, In x (protected_categories (_load_config d)) ->
            category_id <> Some x -> In x (protected_categories config))
      /\ (List.NoDup (protected_paths (_load_config d)) ->
          forall p, path = Some p -> p <> "" ->
            ~ In (str (expand_path p)) (protected_paths config))
      /\ (List.NoDup (protected_categories (_load_config d)) ->
          forall c, category_id = Some c -> c <> "" ->
            ~ In c (protected_categories config)).
Proof.
  intros d path category_id res d'. unfold remove_protection.
  destruct (negb (truthy path) && negb (truthy category_id)).
  { intros H. injection H as <- <-. discriminate. }
  set (old := _load_config d).
  set (config1 := match path with Some p => _ | None => old end).
  assert (H1 : protected_categories config1 = protected_categories old
               /\ (forall x, In x (protected_paths config1) -> In x (protected_paths old))
               /\ (forall x, In x (protected_paths old) ->
                     (forall p, path = Some p -> x <> str (expand_path p)) ->
                     In x (protected_paths config1))
               /\ (List.NoDup (protected_paths old) ->
                   forall p, path = Some p -> p <> "" ->
                     ~ In (str (expand_path p)) (protected_paths config1))).
  { subst config1. destruct path as [p|].
    2:{ split; [reflexivity|]. split; [auto|]. split; [auto|].
        intros _ q Hq. discriminate. }
    destruct (String.eqb_spec p "") as [->|Hp].
    { split; [reflexivity|]. split; [auto|]. split; [auto|].
      intros _ q Hq Hne. injection Hq as <-. contradiction. }
    destruct (str_in (str (expand_path p)) (protected_paths old)) eqn:Hin;
      cbn [protected_paths protected_categories].
    - split; [reflexivity|]. split; [intros x; apply list_remove_first_In|].
      split.
      + intros x Hx Hne. apply list_remove_first_other; [now apply Hne|exact Hx].
      + intros Hnd q Hq _. injection Hq as <-.
        now apply list_remove_first_NoDup.
    - split; [reflexivity|]. split; [auto|]. split; [auto|].
      intros _ q Hq _. injection Hq as <-. intros H. apply str_in_In in H. congruence. }
  clearbody config1.
  set (config2 := match category_id with Some c => _ | None => config1 end).
  assert (H2 : protected_paths config2 = protected_paths config1
               /\ (forall x, In x (protected_categories config2) ->
                     In x (protected_categories config1))
               /\ (forall x, In x (protected_categories config1) ->
                     category_id <> Some x -> In x (protected_categories config2))
               /\ (List.NoDup (protected_categories config1) ->
                   forall c, category_id = Some c -> c <> "" ->
                     ~ In c (protected_categories config2))).
  { subst config2. destruct category_id as [c|].
    2:{ split; [reflexivity|]. split; [auto|]. split; [auto|].
        intros _ q Hq. discriminate. }
    destruct (String.eqb_spec c "") as [->|Hc]; cbn [negb andb].
    { split; [reflexivity|]. split; [auto|]. split; [auto|].
      intros _ q Hq Hne. injection Hq as <-. contradiction. }
    destruct (str_in c (protected_categories config1)) eqn:Hin;
      cbn [protected_paths protected_categories].
    - split; [reflexivity|]. split; [intros x; apply list_remove_first_In|].
      split.
      + intros x Hx Hne. apply list_remove_first_other; [congruence|exact Hx].
      + intros Hnd q Hq _. injection Hq as <-.
        now apply list_remove_first_NoDup.
    - split; [reflexivity|]. split; [auto|]. split; [auto|].
      intros _ q Hq _. injection Hq as <-. intros H. apply str_in_In in H. congruence. }
  clearbody config2.
  destruct H1 as (Hc1 & Hsub1 & Hkeep1 & Hgone1).
  destruct H2 as (Hp2 & Hsub2 & Hkeep2 & Hgone2).
  destruct (_save_config d config2) as [d1 saved] eqn:Hsave. destruct saved.
  2:{ intros H. injection H as <- <-. discriminate. }
  intros H _. injection H as <- <-. exists config2.
  split; [reflexivity|]. split; [exact Hsave|]. rewrite Hp2.
  split; [exact Hsub1|].
  split; [intros x Hx; rewrite <- Hc1; auto|].
  split; [intros x Hx Hne; auto|].
  split; [intros x Hx Hne; apply Hkeep2; [now rewrite Hc1|exact Hne]|].
  split; [exact Hgone1|]. rewrite <- Hc1. exact Hgone2.
Qed.

(** X27. [run_command] runs nothing but the whitelisted commands: for a
    command that, stripped, is on neither list, it refuses and the disk is
    as before; otherwise it runs exactly the stripped command, once.  It
    reports success exactly when the command was on a list and exited with
    code 0. *)
Theorem run_command_whitelist :
  forall (d : Disk) command,
    let cmd := str_strip command in
    let res := fst (run_command str_strip shell_run d command) in
    let d' := snd (run_command str_strip shell_run d command) in
    (~ In cmd (ALLOWED_COMMANDS ++ DESTRUCTIVE_COMMANDS) ->
       d' = d /\ dict_get res "success" = Some (PyBool false)
       /\ dict_get res "command" = None)
    /\ (In cmd (ALLOWED_COMMANDS ++ DESTRUCTIVE_COMMANDS) ->
          d' = fst (shell_run d cmd)
          /\ dict_get res "command" = Some (PyStr cmd))
    /\ (dict_get res "success" = Some (PyBool true) <->
        In cmd (ALLOWED_COMMANDS ++ DESTRUCTIVE_COMMANDS)
        /\ exists stderr, fst (snd (shell_run d cmd)) = Completed 0 stderr).
Proof.
  intros d command cmd res d'. subst res d'. unfold run_command. fold cmd.
  assert (Hin : In cmd (ALLOWED_COMMANDS ++ DESTRUCTIVE_COMMANDS)
                <-> negb (str_in cmd ALLOWED_COMMANDS)
                    && negb (str_in cmd DESTRUCTIVE_COMMANDS) = false).
  { rewrite List.in_app_iff, <- !str_in_In.
    destruct (str_in cmd ALLOWED_COMMANDS), (str_in cmd DESTRUCTIVE_COMMANDS);
      cbn; intuition discriminate. }
  destruct (negb (str_in cmd ALLOWED_COMMANDS)
            && negb (str_in cmd DESTRUCTIVE_COMMANDS)) eqn:Hno.
  - assert (Hnot : ~ In cmd (ALLOWED_COMMANDS ++ DESTRUCTIVE_COMMANDS))
      by (intros H; apply Hin in H; discriminate).
    cbn [fst snd]. split; [intros _; repeat split|].
    split; [intros H; contradiction|].
    split; [discriminate|]. intros [H _]. contradiction.
  - assert (Hyes : In cmd (ALLOWED_COMMANDS ++ DESTRUCTIVE_COMMANDS)) by now apply Hin.
    destruct (shell_run d cmd) as [d1 [out stdout]]. cbn [fst snd].
    split; [intros H; contradiction|].
    destruct out as [returncode stderr| |msg]; cbn [fst snd].
    + split; [intros _; split; reflexivity|].
      cbn [dict_get String.eqb Ascii.eqb Bool.eqb].
      destruct (Z.eqb_spec returncode 0) as [->|Hrc].
      * split; [intros _; split; [exact Hyes|eauto]|reflexivity].
      * split; [discriminate|]. intros [_ [e He]]. injection He as He _. contradiction.
    + split; [intros _; split; reflexivity|].
      split; [discriminate|]. intros [_ [e He]]. discriminate.
    + split; [intros _; split; reflexivity|].
      split; [discriminate|]. intros [_ [e He]]. discriminate.
Qed.

End Protection.

(** ** cleaner.py: [delete_node_modules_project] *)

Section NodeModules.
Context `{os : OS}.

Lemma Path_name_joinpath (p : Path) (name : string) : Path_name (p // name)%path = name.
Proof. unfold Path_name, joinpath. cbn [tail]. apply List.last_last. Qed.

(** X28. [delete_node_modules_project] only ever removes a directory called
    [node_modules]: the project's own, or the path given when it already has
    that name.  A dry run, and a call for a project without one, remove
    nothing; a call for a project without one fails and leaves the size
    cache alone. *)
Theorem delete_node_modules_project_target :
  forall (w : World) project_path dry_run,
    let res := fst (delete_node_modules_project w project_path dry_run) in
    let w' := snd (delete_node_modules_project w project_path dry_run) in
    exists node_modules : Path,
      Path_name node_modules = "node_modules"
      /\ (node_modules = expand_path project_path
          \/ node_modules = (expand_path project_path // "node_modules")%path)
      /\ (disk w' = disk w \/ disk w' = fst (shutil_rmtree (disk w) node_modules))
      /\ (dry_run = true -> disk w' = disk w)
      /\ (path_exists (disk w) node_modules = false ->
          w' = w /\ dict_get res "success" = Some (PyBool false))
      /\ (dict_get res "success" = Some (PyBool true) ->
          path_exists (disk w) node_modules = true
          /\ dict_get res "path" = Some (PyStr (str node_modules))
          /\ dict_get res "bytes_freed"
             = Some (PyInt (fst (fst (fst (get_directory_size w node_modules)))))
          /\ (dry_run = false -> snd (shutil_rmtree (disk w) node_modules) = None)).
Proof.
  intros w project_path dry_run res w'. subst res w'.
  unfold delete_node_modules_project.
  set (node_modules :=
         if negb (String.eqb (Path_name (expand_path project_path)) "node_modules")
         then (expand_path project_path // "node_modules")%path
         else expand_path project_path).
  exists node_modules. split.
  { subst node_modules.
    destruct (String.eqb_spec (Path_name (expand_path project_path)) "node_modules")
      as [E|_]; cbn [negb]; [exact E|apply Path_name_joinpath]. }
  split.
  { subst node_modules. destruct (negb _); auto. }
  clearbody node_modules.
  destruct (path_exists (disk w) node_modules) eqn:Hex; cbn [negb].
  2:{ cbn [fst snd]. split; [now left|]. split; [auto|]. split; [auto|]. discriminate. }
  pose proof (get_directory_size_cached_disk w node_modules 20) as Hd.
  fold (get_directory_size w node_modules) in Hd.
  destruct (get_directory_size w node_modules) as [[[size files] dirs] w1].
  cbn [fst snd] in Hd |- *.
  destruct dry_run.
  { cbn [fst snd]. split; [now left|]. split; [auto|]. split; [discriminate|].
    intros _. repeat split. discriminate. }
  rewrite Hd.
  destruct (shutil_rmtree (disk w) node_modules) as [d2 [[msg|msg]|]]; cbn [fst snd set_disk disk];
    (split; [now right|]); (split; [discriminate|]); (split; [discriminate|]);
    try discriminate.
  intros _. repeat split.
Qed.

End NodeModules.

(** ** cleaner.py on the registry of categories.py *)

Section Registry.
Context `{os : OS}.

(** The categories of [CATEGORIES] that declare no paths are the five that
    are scanned recursively, and none of them has a native command. *)
Lemma CATEGORIES_paths (category_id : string) (category : Category) :
  dict_get CATEGORIES category_id = Some category ->
  c_paths category <> []
  \/ (In category_id ["node_modules"; "python_venvs"; "pycache"; "build_artifacts";
                      "target_dirs"]
      /\ c_is_recursive category = true).
Proof.
  unfold CATEGORIES. cbn [dict_get].
  repeat match goal with
         | |- (if String.eqb ?k category_id then _ else _) = _ -> _ =>
             destruct (String.eqb_spec k category_id) as [<-|_];
             [intros H; injection H as <-; cbn [c_paths c_is_recursive];
              first [left; discriminate | right; split; [cbn; tauto|reflexivity]]|]
         end.
  discriminate.
Qed.

Lemma CATEGORIES_recursive (category_id : string) :
  In category_id ["node_modules"; "python_venvs"; "pycache"; "build_artifacts";
                  "target_dirs"] ->
  exists category,
    dict_get CATEGORIES category_id = Some category
    /\ c_paths category = [] /\ c_cleanup_command category = None
    /\ c_is_recursive category = true.
Proof.
  intros [<-|[<-|[<-|[<-|[<-|[]]]]]]; eexists; (split; [vm_compute; reflexivity|]);
    repeat split.
Qed.

Lemma clean_category_returns (registry : list (string * Category)) (w : World)
    (category_id : string) (dry_run : bool) (category : Category) :
  get_category registry category_id = Some category ->
  c_paths category <> [] ->
  fst (clean_category registry w category_id dry_run) <> IndexError.
Proof.
  intros Hcat Hp. unfold clean_category. rewrite Hcat.
  destruct (truthy (c_cleanup_command category) && negb dry_run).
  - destruct (_run_native_cleanup w category_id _ dry_run). discriminate.
  - destruct (fold_left (clean_path dry_run) (c_paths category) (0, 0, [], [], w))
      as [[[[tb tf] errs] cleaned] w'].
    destruct cleaned; [|discriminate].
    destruct (c_paths category); [contradiction|discriminate].
Qed.

(** X29. With the registry of the package, [clean_category] fails with an
    [IndexError] for exactly five category ids, those of the categories that
    are scanned recursively and declare no paths, whether the call is a dry
    run or not; and it then leaves the disk and the size cache as they
    were. *)
Theorem clean_category_recursive_categories :
  forall (w : World) category_id dry_run,
    (fst (clean_category CATEGORIES w category_id dry_run) = IndexError
     <-> In category_id ["node_modules"; "python_venvs"; "pycache"; "build_artifacts";
                         "target_dirs"])
    /\ (fst (clean_category CATEGORIES w category_id dry_run) = IndexError
        <-> exists category,
              get_category CATEGORIES category_id = Some category
              /\ c_is_recursive category = true)
    /\ (fst (clean_category CATEGORIES w category_id dry_run) = IndexError ->
        snd (clean_category CATEGORIES w category_id dry_run) = w).
Proof.
  intros w category_id dry_run.
  assert (Hback : In category_id ["node_modules"; "python_venvs"; "pycache";
                                  "build_artifacts"; "target_dirs"] ->
                  clean_category CATEGORIES w category_id dry_run = (IndexError, w)).
  { intros Hin. destruct (CATEGORIES_recursive _ Hin) as (category & Hc & Hp & Hn & _).
    unfold clean_category, get_category. rewrite Hc, Hp, Hn. reflexivity. }
  assert (Hfwd : fst (clean_category CATEGORIES w category_id dry_run) = IndexError ->
                 In category_id ["node_modules"; "python_venvs"; "pycache";
                                 "build_artifacts"; "target_dirs"]).
  { intros H. destruct (get_category CATEGORIES category_id) as [category|] eqn:Hc.
    - destruct (CATEGORIES_paths _ _ Hc) as [Hp|[Hin _]]; [|exact Hin].
      now apply (clean_category_returns _ w _ dry_run _ Hc) in Hp.
    - unfold clean_category in H. rewrite Hc in H. discriminate. }
  split; [split; [exact Hfwd|intros H; now rewrite Hback]|].
  split.
  - split.
    + intros H. apply Hfwd in H.
      destruct (CATEGORIES_recursive _ H) as (category & Hc & _ & _ & Hr). eauto.
    + intros (category & Hc & Hr).
      destruct (CATEGORIES_paths _ _ Hc) as [Hp|[Hin _]]; [|now rewrite Hback].
      exfalso. revert Hc Hr Hp. unfold get_category, CATEGORIES. cbn [dict_get].
      repeat match goal with
             | |- (if String.eqb ?k category_id then _ else _) = _ -> _ =>
                 destruct (String.eqb_spec k category_id) as [<-|_];
                 [intros H; injection H as <-; cbn [c_paths c_is_recursive];
                  first [discriminate | intros _ Hp; now apply Hp]|]
             end.
      discriminate.
  - intros H. apply Hfwd in H. now rewrite Hback.
Qed.

End Registry.

(** ** The further properties on the example disks *)

(** The npm cache as [CATEGORIES] declares it. *)
Lemma scan_category_one_per_path_witness :
  let category := mkCategory "npm_cache" "NPM Cache" ["~/.npm/_cacache"; "~/.npm/_logs"]
                    SAFE [] [] false 0 (Some "npm cache clean --force") in
  let no_docker := fun _ : @Disk TreeOS => @None docker_breakdown in
  (c_id category <> "docker_data"
   \/ no_docker (disk (world0 disk_npm)) = None
   \/ (exists breakdown, no_docker (disk (world0 disk_npm)) = Some breakdown
                         /\ dk_available breakdown = false))
  /\ map sr_path (fst (@scan_category TreeOS no_docker (world0 disk_npm) category))
     = ["/Users/ada/.npm/_cacache"; "/Users/ada/.npm/_logs"]
  /\ map sr_size_bytes (fst (@scan_category TreeOS no_docker (world0 disk_npm) category))
     = [6; 0].
Proof.
  intros category no_docker.
  assert (H : c_id category <> "docker_data"
              \/ no_docker (disk (world0 disk_npm)) = None
              \/ (exists breakdown, no_docker (disk (world0 disk_npm)) = Some breakdown
                                    /\ dk_available breakdown = false))
    by (left; discriminate).
  split; [exact H|].
  destruct (@scan_category_one_per_path TreeOS no_docker (world0 disk_npm) category H)
    as (_ & Hpaths & _).
  split; [exact Hpaths|]. vm_compute. reflexivity.
Defined.

(** The tree OS has no [npm]: the native command runs and fails. *)
Lemma clean_category_native_run_witness :
  let command := "npm cache clean --force" in
  exists category,
    @get_category CATEGORIES "npm_cache" = Some category
    /\ c_cleanup_command category = Some command
    /\ (command = "" -> False)
    /\ exists r,
         fst (@clean_category TreeOS CATEGORIES (world0 disk_npm) "npm_cache" false)
         = Return r
         /\ cr_path r = "[native command: npm cache clean --force]"
         /\ cr_bytes_freed r = 0
         /\ cr_success r = false.
Proof.
  intros command.
  destruct (@get_category CATEGORIES "npm_cache") as [category|] eqn:Hcat;
    [|discriminate].
  exists category.
  assert (Hcmd : c_cleanup_command category = Some command)
    by (injection Hcat as <-; reflexivity).
  assert (Hne : command <> "") by discriminate.
  split; [reflexivity|]. split; [exact Hcmd|]. split; [exact Hne|].
  destruct (@clean_category_native_run TreeOS CATEGORIES (world0 disk_npm) "npm_cache"
              category command Hcat Hcmd Hne)
    as (r & Hr & _ & Hpath & Hbytes & _ & _ & Hsucc).
  exists r. rewrite Hr. split; [reflexivity|]. split; [exact Hpath|].
  split; [exact Hbytes|].
  destruct (cr_success r); [|reflexivity].
  destruct (proj1 Hsucc eq_refl) as [stderr Hs]. discriminate.
Defined.

(** A directory next to the npm cache whose name starts like it. *)
Lemma is_inside_allowed_path_text_prefix_witness :
  let parent := Path_of_str "/Users/ada/.npm" in
  exists category,
    @get_category CATEGORIES "npm_cache" = Some category
    /\ In "~/.npm/_cacache" (c_paths category)
    /\ @expand_path TreeOS "~/.npm/_cacache" = (parent // "_cacache")%path
    /\ @is_inside_allowed_path TreeOS CATEGORIES
         (Path_of_str "/Users/ada/.npm/_cacache-old/keep.txt") "npm_cache" = true.
Proof.
  intros parent.
  destruct (@get_category CATEGORIES "npm_cache") as [category|] eqn:Hcat;
    [|discriminate].
  exists category.
  assert (Hin : In "~/.npm/_cacache" (c_paths category))
    by (injection Hcat as <-; left; reflexivity).
  assert (Hexp : @expand_path TreeOS "~/.npm/_cacache" = (parent // "_cacache")%path)
    by reflexivity.
  split; [reflexivity|]. split; [exact Hin|]. split; [exact Hexp|].
  exact (@is_inside_allowed_path_text_prefix TreeOS CATEGORIES "npm_cache" category
           "~/.npm/_cacache" parent "_cacache" "-old" ["keep.txt"] Hcat Hin Hexp).
Defined.

Lemma is_protected_below_witness :
  let load := fun _ : @Disk TreeOS => mkProtectionConfig ["~/Documents"] [] in
  In "~/Documents" (protected_paths (load disk_npm))
  /\ (@expand_path TreeOS "~/Documents/taxes/2024.pdf" = @expand_path TreeOS "~/Documents"
      \/ (tail (@expand_path TreeOS "~/Documents") <> []
          /\ is_ancestor (@expand_path TreeOS "~/Documents")
               (@expand_path TreeOS "~/Documents/taxes/2024.pdf")))
  /\ @is_protected TreeOS load disk_npm "~/Documents/taxes/2024.pdf" = true.
Proof.
  intros load.
  assert (Hin : In "~/Documents" (protected_paths (load disk_npm))) by (left; reflexivity).
  assert (Hpath : @expand_path TreeOS "~/Documents/taxes/2024.pdf"
                  = @expand_path TreeOS "~/Documents"
                  \/ (tail (@expand_path TreeOS "~/Documents") <> []
                      /\ is_ancestor (@expand_path TreeOS "~/Documents")
                           (@expand_path TreeOS "~/Documents/taxes/2024.pdf"))).
  { right. split; [discriminate|]. split; [reflexivity|].
    exists ["taxes"; "2024.pdf"]. split; [discriminate|reflexivity]. }
  split; [exact Hin|]. split; [exact Hpath|].
  exact (@is_protected_below TreeOS load disk_npm "~/Documents/taxes/2024.pdf"
           "~/Documents" Hin Hpath).
Defined.

(** Protecting [~/.npm], which exists on the example disk, with an empty
    config and a save that succeeds. *)
Lemma add_protection_saved_witness :
  let load := fun _ : @Disk TreeOS => mkProtectionConfig [] [] in
  let save := fun (d : @Disk TreeOS) (_ : protection_config) => (d, true) in
  let res := fst (@add_protection TreeOS load save disk_npm (Some "~/.npm") None) in
  dict_get res "success" = Some (PyBool true)
  /\ exists config,
       res = protection_saved config
       /\ In "/Users/ada/.npm" (protected_paths config).
Proof.
  intros load save res.
  assert (Hs : dict_get res "success" = Some (PyBool true)) by reflexivity.
  split; [exact Hs|].
  destruct (proj2 (@add_protection_saved TreeOS load save disk_npm (Some "~/.npm") None
                     res (snd (@add_protection TreeOS load save disk_npm
                                 (Some "~/.npm") None))
                     (surjective_pairing _)) Hs)
    as (config & Hres & _ & Hin & _).
  exists config. split; [exact Hres|].
  refine (proj1 (Hin "~/.npm" eq_refl _)). discriminate.
Defined.

Lemma remove_protection_saved_witness :
  let load := fun _ : @Disk TreeOS =>
                mkProtectionConfig ["/Users/ada/.npm"; "/Users/ada/Documents"]
                                   ["npm_cache"] in
  let save := fun (d : @Disk TreeOS) (_ : protection_config) => (d, true) in
  let res := fst (@remove_protection TreeOS load save disk_npm (Some "~/.npm")
                    (Some "npm_cache")) in
  dict_get res "success" = Some (PyBool true)
  /\ exists config,
       res = protection_saved config
       /\ In "/Users/ada/Documents" (protected_paths config)
       /\ (In "/Users/ada/.npm" (protected_paths config) -> False)
       /\ (In "npm_cache" (protected_categories config) -> False).
Proof.
  intros load save res.
  assert (Hs : dict_get res "success" = Some (PyBool true)) by reflexivity.
  split; [exact Hs|].
  destruct (@remove_protection_saved TreeOS load save disk_npm (Some "~/.npm")
              (Some "npm_cache") res
              (snd (@remove_protection TreeOS load save disk_npm (Some "~/.npm")
                      (Some "npm_cache")))
              (surjective_pairing _) Hs)
    as (config & Hres & _ & _ & _ & Hkeep & _ & Hgone & Hgonec).
  exists config. split; [exact Hres|]. split.
  - apply Hkeep; [right; left; reflexivity|].
    intros p Hp. injection Hp as <-. discriminate.
  - split.
    + refine (Hgone _ "~/.npm" eq_refl _); [|discriminate].
      repeat constructor; cbn; intuition discriminate.
    + refine (Hgonec _ "npm_cache" eq_refl _); [|discriminate].
      repeat constructor; cbn; intuition discriminate.
Defined.

(** A dry run over a scan with one safe item of positive size. *)
Lemma clean_safe_items_only_safe_witness :
  let npm := mkScanResult "npm_cache" "NPM Cache" "/Users/ada/.npm/_cacache" 6 1 0
               SAFE true None in
  let logs := mkScanResult "system_logs" "System Logs" "/var/log" 9 3 0 REVIEW true None in
  let pip := mkScanResult "pip_cache" "Pip Cache" "/Users/ada/Library/Caches/pip" 0 0 0
               SAFE false None in
  exists results w',
    @clean_safe_items TreeOS CATEGORIES (world0 disk_npm) [npm; logs; pip] true
    = (Return results, w')
    /\ map cr_category_id results = ["npm_cache"]
    /\ map cr_bytes_freed results = [6].
Proof.
  intros npm logs pip.
  destruct (@clean_safe_items TreeOS CATEGORIES (world0 disk_npm) [npm; logs; pip] true)
    as [[results|] w'] eqn:E; [|vm_compute in E; discriminate].
  exists results, w'. split; [reflexivity|].
  destruct (proj1 (@clean_safe_items_only_safe TreeOS CATEGORIES (world0 disk_npm)
                     [npm; logs; pip] true) results w' E) as [Hids _].
  split; [exact Hids|].
  vm_compute in E. injection E as <- _. reflexivity.
Defined.

(** A file of the npm cache is inside the npm category. *)
Lemma is_inside_allowed_path_below_witness :
  let path := Path_of_str "/Users/ada/.npm/_cacache/some/file" in
  exists category,
    @get_category CATEGORIES "npm_cache" = Some category
    /\ In "~/.npm/_cacache" (c_paths category)
    /\ is_ancestor (@expand_path TreeOS "~/.npm/_cacache") path
    /\ @is_inside_allowed_path TreeOS CATEGORIES path "npm_cache" = true
    /\ @is_inside_allowed_path TreeOS CATEGORIES path "nonexistent_category" = false.
Proof.
  intros path.
  destruct (@get_category CATEGORIES "npm_cache") as [category|] eqn:Hcat;
    [|discriminate].
  exists category.
  assert (Hin : In "~/.npm/_cacache" (c_paths category))
    by (injection Hcat as <-; left; reflexivity).
  assert (Hanc : is_ancestor (@expand_path TreeOS "~/.npm/_cacache") path).
  { split; [reflexivity|]. exists ["some"; "file"]. split; [discriminate|reflexivity]. }
  split; [reflexivity|]. split; [exact Hin|]. split; [exact Hanc|]. split.
  - apply (proj2 (@is_inside_allowed_path_below TreeOS CATEGORIES path "npm_cache")
             category "~/.npm/_cacache" Hcat Hin).
    right. split; [discriminate|exact Hanc].
  - apply (proj1 (@is_inside_allowed_path_below TreeOS CATEGORIES path
                    "nonexistent_category")).
    reflexivity.
Defined.
